(** * Verification and remediation hooks: a shallow embedding

    This development embeds two hook programs,

    - [hooks/betty-auto-test-fix.py]   (class [BettyAutoTestFix]), and
    - [hooks/smart-completion-guardian.py] (class [SmartCompletionGuardian]),

    as executable Rocq functions, and states the properties of the
    verification and remediation engine over them.

    Conventions.  A Python [str] is a Rocq [string] whose characters are
    the code points below 256.  A Python [dict] with string keys is a
    [gmap string _].  Code that can raise runs in a state-and-exception
    monad over the state of the host machine; the host itself (processes,
    files, clock, network, the [re] engine) is an interface, [Host]. *)

From Stdlib Require Import ZArith String Ascii List Bool Lia.
From stdpp Require Import base option list gmap strings pretty.

Set Default Proof Using "Type".
Local Open Scope Z_scope.

(** ** Python values and strings *)

Module Py.

(** The values stored in the dictionaries of the two programs. *)
Inductive pyval : Type :=
| VNone
| VBool (b : bool)
| VInt (z : Z)
| VStr (s : string)
| VTuple (l : list string).

#[global] Instance pyval_eq_dec : EqDecision pyval.
Proof. solve_decision. Defined.

(** Truth value of an object, as tested by [if x] and [not x]. *)
Definition truthy (v : pyval) : bool :=
  match v with
  | VNone => false
  | VBool b => b
  | VInt z => negb (z =? 0)
  | VStr s => negb (String.eqb s EmptyString)
  | VTuple l => negb (Nat.eqb (List.length l) 0)
  end.

(** A dictionary with string keys; [get d k] is [d.get(k)] and
    [get_default d k v] is [d.get(k, v)]. *)
Abbreviation dict := (gmap string pyval).

Definition get (d : dict) (k : string) : pyval := default VNone (d !! k).
Definition get_default (d : dict) (k : string) (v : pyval) : pyval :=
  default v (d !! k).
Definition has_key (d : dict) (k : string) : bool := bool_decide (is_Some (d !! k)).

(** *** Characters *)

(** [str.isspace] on the code points below 256. *)
Definition isspace (c : ascii) : bool :=
  let n := nat_of_ascii c in
  ((9 <=? n) && (n <=? 13) || (28 <=? n) && (n <=? 32)
   || (n =? 133) || (n =? 160))%nat.

(** [str.lower] on one code point below 256: the ASCII capitals and the
    Latin-1 capitals (all of 192..222 but the multiplication sign). *)
Definition lower_char (c : ascii) : ascii :=
  let n := nat_of_ascii c in
  if ((65 <=? n) && (n <=? 90)
      || (192 <=? n) && (n <=? 222) && negb (n =? 215))%nat
  then ascii_of_nat (n + 32) else c.

Fixpoint lower (s : string) : string :=
  match s with
  | EmptyString => EmptyString
  | String c s' => String (lower_char c) (lower s')
  end.

(** *** Searching and slicing *)

(** [s.startswith(p)]. *)
Definition startswith (p s : string) : bool := String.prefix p s.

(** [needle in hay]. *)
Fixpoint contains (needle hay : string) : bool :=
  String.prefix needle hay
  || match hay with
     | EmptyString => false
     | String _ hay' => contains needle hay'
     end.

(** [s[:n]]. *)
Definition take_str (n : nat) (s : string) : string := String.substring 0 n s.

Definition rev_str (s : string) : string :=
  string_of_list_ascii (rev (list_ascii_of_string s)).

(** [s.endswith(p)]. *)
Definition endswith (p s : string) : bool := String.prefix (rev_str p) (rev_str s).

(** [s.lstrip()], [s.rstrip()] and [s.strip()]. *)
Fixpoint lstrip (s : string) : string :=
  match s with
  | EmptyString => EmptyString
  | String c s' => if isspace c then lstrip s' else s
  end.

Fixpoint rstrip (s : string) : string :=
  match s with
  | EmptyString => EmptyString
  | String c s' =>
      match rstrip s' with
      | EmptyString => if isspace c then EmptyString else String c EmptyString
      | String _ _ as r => String c r
      end
  end.

Definition strip (s : string) : string := rstrip (lstrip s).

(** [s[:-1]]. *)
Definition drop_last (s : string) : string :=
  string_of_list_ascii (removelast (list_ascii_of_string s)).

Definition newline : ascii := ascii_of_nat 10.

(** [s.split('\n')]: the pieces between the newlines; never empty. *)
Fixpoint split_lines (s : string) : list string :=
  match s with
  | EmptyString => [EmptyString]
  | String c s' =>
      if Ascii.eqb c newline then EmptyString :: split_lines s'
      else match split_lines s' with
           | [] => [String c EmptyString]
           | l :: ls => String c l :: ls
           end
  end.

(** The number of newlines of a string. *)
Fixpoint newlines (s : string) : nat :=
  match s with
  | EmptyString => 0%nat
  | String c s' => ((if Ascii.eqb c newline then 1 else 0) + newlines s')%nat
  end.

(** Whether a string holds a character that is not white space. *)
Fixpoint has_ink (s : string) : bool :=
  match s with
  | EmptyString => false
  | String c s' => negb (isspace c) || has_ink s'
  end.

(** The lines of a text file as [readlines] returns them: each line keeps
    its newline, and a final line without one is kept as it is. *)
Fixpoint readlines_of (s : string) : list string :=
  match s with
  | EmptyString => []
  | String c s' =>
      if Ascii.eqb c newline then String c EmptyString :: readlines_of s'
      else match readlines_of s' with
           | [] => [String c EmptyString]
           | l :: ls => String c l :: ls
           end
  end.

(** *** Conversions and indexing that can fail *)

Definition is_digit (c : ascii) : bool :=
  let n := nat_of_ascii c in ((48 <=? n) && (n <=? 57))%nat.

Definition digit_value (c : ascii) : Z := Z.of_nat (nat_of_ascii c) - 48.

Definition underscore : ascii := ascii_of_nat 95.

(** The digits of a decimal literal; an underscore may stand between two
    digits. *)
Fixpoint parse_digits (acc : Z) (after_underscore : bool) (s : string) : option Z :=
  match s with
  | EmptyString => if after_underscore then None else Some acc
  | String c s' =>
      if is_digit c then parse_digits (acc * 10 + digit_value c) false s'
      else if Ascii.eqb c underscore
           then if after_underscore then None else parse_digits acc true s'
           else None
  end.

Definition parse_unsigned (s : string) : option Z :=
  match s with
  | String c _ => if is_digit c then parse_digits 0 false s else None
  | EmptyString => None
  end.

(** The white space that [int] skips around a literal: the ASCII white
    space (tab to carriage return, and the blank), and the two other
    spaces below 256, which [int] reads as blanks.  The separators 28 to
    31 are white space for [str.strip] and not for [int]. *)
Definition is_int_space (c : ascii) : bool :=
  let n := nat_of_ascii c in
  ((9 <=? n) && (n <=? 13) || (n =? 32) || (n =? 133) || (n =? 160))%nat.

Fixpoint int_lstrip (s : string) : string :=
  match s with
  | EmptyString => EmptyString
  | String c s' => if is_int_space c then int_lstrip s' else s
  end.

Fixpoint int_rstrip (s : string) : string :=
  match s with
  | EmptyString => EmptyString
  | String c s' =>
      match int_rstrip s' with
      | EmptyString => if is_int_space c then EmptyString else String c EmptyString
      | String _ _ as r => String c r
      end
  end.

(** The number of digits of a literal, leading zeros included. *)
Fixpoint count_digits (s : string) : Z :=
  match s with
  | EmptyString => 0
  | String c s' => (if is_digit c then 1 else 0) + count_digits s'
  end.

(** The longest literal that [int] converts: [sys.get_int_max_str_digits()],
    as the interpreter starts. *)
Definition max_str_digits : Z := 4300.

(** [int(s)] for a string [s], [None] standing for [ValueError]: white
    space around the literal is skipped, a sign may come first, and a
    literal of more than [max_str_digits] digits is refused. *)
Definition int_of_str (s : string) : option Z :=
  let literal := int_rstrip (int_lstrip s) in
  if max_str_digits <? count_digits literal then None
  else
    match literal with
    | String c s' =>
        if Ascii.eqb c (ascii_of_nat 45) then Z.opp <$> parse_unsigned s'
        else if Ascii.eqb c (ascii_of_nat 43) then parse_unsigned s'
        else parse_unsigned (String c s')
    | EmptyString => None
    end.

(** [len(l)]. *)
Definition len {A} (l : list A) : Z := Z.of_nat (List.length l).

(** Equality of two values as keys of a dictionary: [True] and [1] are
    the same key, and so are [False] and [0]. *)
Definition key_eqb (a b : pyval) : bool :=
  match a, b with
  | VBool x, VInt z | VInt z, VBool x => z =? (if x then 1 else 0)
  | _, _ => bool_decide (a = b)
  end.

(** [l[i]] for a Python index [i], negative indices counting from the
    end; [None] stands for [IndexError]. *)
Definition index_of {A} (l : list A) (i : Z) : option nat :=
  let n := Z.of_nat (List.length l) in
  if (0 <=? i) && (i <? n) then Some (Z.to_nat i)
  else if (- n <=? i) && (i <? 0) then Some (Z.to_nat (n + i))
  else None.

Definition py_nth {A} (l : list A) (i : Z) : option A :=
  j ← index_of l i; l !! j.

(** [l[i] = x]. *)
Definition py_set_nth {A} (l : list A) (i : Z) (x : A) : option (list A) :=
  j ← index_of l i; Some (<[j := x]> l).

(** [s.replace(old, new)] for a non-empty [old]; [fuel] bounds the number
    of characters still to scan. *)
Fixpoint replace_fuel (fuel : nat) (old new s : string) : string :=
  match fuel with
  | O => s
  | S fuel' =>
      if String.prefix old s
      then new +:+ replace_fuel fuel' old new
             (String.substring (String.length old) (String.length s) s)
      else match s with
           | EmptyString => EmptyString
           | String c s' => String c (replace_fuel fuel' old new s')
           end
  end.

Definition replace (old new s : string) : string :=
  match old with
  | EmptyString => s
  | String _ _ => replace_fuel (S (String.length s)) old new s
  end.

Definition nl : string := String newline EmptyString.
Definition tab : string := String (ascii_of_nat 9) EmptyString.

Definition carriage_return : ascii := ascii_of_nat 13.

(** What reading a file in text mode does to the ends of its lines: a
    carriage return followed by a newline, and a carriage return alone,
    are read as a newline.  Writing in text mode leaves a newline as it
    is. *)
Fixpoint universal_newlines (s : string) : string :=
  match s with
  | EmptyString => EmptyString
  | String c s' =>
      if Ascii.eqb c carriage_return then
        match s' with
        | String c' s'' =>
            if Ascii.eqb c' newline then String newline (universal_newlines s'')
            else String newline (universal_newlines s')
        | EmptyString => String newline EmptyString
        end
      else String c (universal_newlines s')
  end.

End Py.

(** ** The host machine and the monad of effects *)

Module Rt.
Import Py.

(** An exception raised by the interpreter or by a library: an instance of
    a subclass of [Exception].  The two programs only distinguish a
    subprocess timeout from everything else; [str(e)] is the message.
    The signals that end the interpreter ([KeyboardInterrupt],
    [SystemExit]) are not exceptions in this sense and are not modelled. *)
Inductive py_exn : Type :=
| TimeoutExpired (msg : string)
| OtherError (msg : string).

Definition exn_str (e : py_exn) : string :=
  match e with
  | TimeoutExpired msg => msg
  | OtherError msg => msg
  end.

(** The result of a computation: a value, or an exception in flight. *)
Inductive outcome (A : Type) : Type :=
| Ok (a : A)
| Raise (e : py_exn).
Arguments Ok {A} a.
Arguments Raise {A} e.

(** What [subprocess.run(..., capture_output=True, text=True)] returns. *)
Record completed_process : Type := CompletedProcess {
  returncode : Z;
  proc_stdout : string;
  proc_stderr : string
}.

(** The host: everything outside the two programs.  Each operation reads
    or changes the state of the machine, of type [World].

    - [subprocess_run cmd timeout] runs a shell command in the project
      directory; it raises on timeout or when the launch fails;
    - [path_exists], [rglob] query the file tree; they raise when the
      tree cannot be read, as for a directory without permission;
    - [file_read] opens a file in text mode and reads it all, [file_write]
      opens it for writing in text mode and writes the text;
    - [json_write] opens a file (for writing or appending) and dumps one
      JSON document into it;
    - [now_isoformat] and [now_stamp] read the clock;
    - [import_requests] is the statement [import requests]; it raises
      when the module cannot be imported;
    - [requests_post] posts one notification to the given URL;
    - [re_findall], [re_search] are the functions of module [re]; a match
      is given by the list of its groups;
    - [repr_tuple] renders a tuple of strings as [str()] does. *)
Class Host : Type := {
  World : Type;
  subprocess_run : string -> option nat -> World -> outcome completed_process * World;
  path_exists : string -> World -> outcome bool;
  rglob : string -> string -> World -> outcome (list string);
  file_read : string -> World -> outcome string * World;
  file_write : string -> string -> World -> outcome unit * World;
  json_write : string -> World -> outcome unit * World;
  now_isoformat : World -> string;
  now_stamp : World -> string;
  import_requests : World -> outcome unit * World;
  requests_post : string -> World -> outcome unit * World;
  re_findall : string -> string -> list (list string);
  re_search : string -> string -> option (list string);
  repr_tuple : list string -> string
}.

Section Monad.
Context `{Host}.
(** [E] is the type of the events a program leaves behind: what it
    prints, posts and logs. *)
Context {E : Type}.

Record state : Type := State {
  world : World;
  trace : list E
}.

Definition M (A : Type) : Type := state -> outcome A * state.

Definition ret {A} (a : A) : M A := fun st => (Ok a, st).

Definition bind {A B} (m : M A) (k : A -> M B) : M B :=
  fun st =>
    match m st with
    | (Ok a, st') => k a st'
    | (Raise e, st') => (Raise e, st')
    end.

Definition raise {A} (e : py_exn) : M A := fun st => (Raise e, st).

(** [try: body / except ...: handler]. *)
Definition try_except {A} (body : M A) (handler : py_exn -> M A) : M A :=
  fun st =>
    match body st with
    | (Ok a, st') => (Ok a, st')
    | (Raise e, st') => handler e st'
    end.

(** Lift a value that may be an exception. *)
Definition lift {A} (o : outcome A) : M A :=
  match o with
  | Ok a => ret a
  | Raise e => raise e
  end.

(** An operation of the host on the world. *)
Definition host {A} (op : World -> outcome A * World) : M A :=
  fun st =>
    let '(o, w) := op (world st) in
    (o, State w (trace st)).

(** Read the world without changing it. *)
Definition ask {A} (q : World -> A) : M A := fun st => (Ok (q (world st)), st).

(** Query the world without changing it; the query may raise. *)
Definition query {A} (q : World -> outcome A) : M A := fun st => (q (world st), st).

(** Leave an event behind. *)
Definition emit (e : E) : M unit :=
  fun st => (Ok tt, State (world st) (trace st ++ [e])).

(** [for x in xs: body], with the variables the loop updates in [s]. *)
Fixpoint for_each {A S} (xs : list A) (body : A -> S -> M S) (s : S) : M S :=
  match xs with
  | [] => ret s
  | x :: xs' => bind (body x s) (for_each xs' body)
  end.

(** *** Specifications

    [spec m R]: whenever [m] ends, it has only appended events to the
    trace, and [R] relates its outcome to the events it appended. *)
Definition spec {A} (m : M A) (R : outcome A -> list E -> Prop) : Prop :=
  forall st o st',
    m st = (o, st') -> exists evs, trace st' = trace st ++ evs /\ R o evs.

(** [silent m]: [m] leaves no event. *)
Definition silent {A} (m : M A) : Prop := spec m (fun _ evs => evs = []).

(** [returns m]: [m] never raises. *)
Definition returns {A} (m : M A) : Prop :=
  forall st, exists a st', m st = (Ok a, st').

(** *** Python operations that can raise *)

(** [str(v)], as an f-string renders a value. *)
Definition py_str (v : pyval) : string :=
  match v with
  | VNone => "None"
  | VBool true => "True"
  | VBool false => "False"
  | VInt z => pretty z
  | VStr s => s
  | VTuple l => repr_tuple l
  end.

Definition type_error_exn : py_exn := OtherError "TypeError".
Definition attribute_error_exn : py_exn := OtherError "AttributeError".
Definition value_error_exn : py_exn := OtherError "ValueError".
Definition index_error_exn : py_exn := OtherError "IndexError".

(** [int(v)]. *)
Definition py_int (v : pyval) : M Z :=
  match v with
  | VInt z => ret z
  | VBool b => ret (if b then 1 else 0)
  | VStr s => match int_of_str s with
              | Some z => ret z
              | None => raise value_error_exn
              end
  | VNone | VTuple _ => raise type_error_exn
  end.

(** [needle in v] for a string [needle]. *)
Definition py_in (needle : string) (v : pyval) : M bool :=
  match v with
  | VStr s => ret (contains needle s)
  | VTuple l => ret (bool_decide (needle ∈ l))
  | VNone | VBool _ | VInt _ => raise type_error_exn
  end.

(** [v[:n]]. *)
Definition py_slice_to (n : nat) (v : pyval) : M pyval :=
  match v with
  | VStr s => ret (VStr (take_str n s))
  | VTuple l => ret (VTuple (take n l))
  | VNone | VBool _ | VInt _ => raise type_error_exn
  end.

(** [open(path, 'r')] followed by [read()].  Every path in the two
    programs is a string; another value raises. *)
Definition open_read (path : pyval) : M string :=
  match path with
  | VStr p => host (file_read p)
  | _ => raise type_error_exn
  end.

(** [open(path, 'w')] followed by [write(text)]. *)
Definition open_write (path : pyval) (text : string) : M unit :=
  match path with
  | VStr p => host (file_write p text)
  | _ => raise type_error_exn
  end.

Definition of_option {A} (e : py_exn) (o : option A) : M A :=
  match o with
  | Some a => ret a
  | None => raise e
  end.

End Monad.

Arguments state {_} E.
Arguments M {_} E A.

Declare Scope py_scope.
Delimit Scope py_scope with py.
Notation "'let*' x ':=' m 'in' k" := (bind m (fun x => k))
  (at level 10, x pattern, m at level 100, k at level 200) : py_scope.
Notation "m ';;' k" := (bind m (fun _ => k))
  (at level 100, k at level 200, right associativity) : py_scope.

End Rt.

(** ** [betty-auto-test-fix.py]: run the checks, try to fix, verify again *)

Module Betty.
Import Py Rt.
Local Open Scope py_scope.

(** A failure is the dictionary the parsers build: keys [type], [command],
    [fixable] and, by kind, [details] or [file], [line], [column],
    [message]. *)
Abbreviation failure := (gmap string pyval).

(** The result of [run_command]. *)
Record cmd_result : Type := CmdResult {
  success : bool;
  output : string;
  cmd_returncode : Z
}.

(** One entry of [results['tests_run']]. *)
Record test_run : Type := TestRun {
  tr_command : string;
  tr_type : string;
  tr_success : bool;
  tr_output : string
}.

(** The dictionary [run_all_tests] returns. *)
Record test_results : Type := TestResults {
  timestamp : string;
  project_type : string;
  changed_files : list string;
  tests_run : list test_run;
  failures : list failure;
  has_failures : bool
}.

(** The dictionary [attempt_fixes] returns. *)
Record fix_results : Type := FixResults {
  attempted : Z;
  fixed : list failure;
  failed : list failure;
  fixed_count : Z;
  all_fixed : bool
}.

(** The notifications posted to the ntfy topic, by title. *)
Inductive notification : Type :=
| AutoFixSuccess (fixed_count : Z)
| AutoFixPartial (fixed_count remaining : Z)
| AutoFixManualRequired (failure_count : Z) (first : list (string * string)).

(** The lines printed on the standard error stream. *)
Inductive message : Type :=
| MsgStarting (project_type : string)
| MsgFoundIssues (n : Z)
| MsgAllFixedVerifying
| MsgAllPassingReady
| MsgFixedRemain (fixed_count remaining : Z)
| MsgCouldNotFix
| MsgNoFixesNeeded
| MsgError (e : string).

(** The statistics of the saved report. *)
Record report_stats : Type := ReportStats {
  total_tests : Z;
  passed : Z;
  failed_tests : Z;
  failure_count : Z
}.

(** What a run leaves behind: a line on standard error, a notification
    handed to [requests.post], an entry of the history of fixes, the
    report of the run. *)
Inductive event : Type :=
| Stderr (m : message)
| Posted (n : notification)
| FixLogged (timestamp : string) (f : failure) (status : string)
| ReportSaved (timestamp : string) (session_id : pyval) (r : test_results)
    (stats : report_stats).

#[global] Instance cmd_result_eq_dec : EqDecision cmd_result.
Proof. solve_decision. Defined.
#[global] Instance test_run_eq_dec : EqDecision test_run.
Proof. solve_decision. Defined.
#[global] Instance test_results_eq_dec : EqDecision test_results.
Proof. solve_decision. Defined.
#[global] Instance fix_results_eq_dec : EqDecision fix_results.
Proof. solve_decision. Defined.
#[global] Instance notification_eq_dec : EqDecision notification.
Proof. solve_decision. Defined.
#[global] Instance message_eq_dec : EqDecision message.
Proof. solve_decision. Defined.
#[global] Instance report_stats_eq_dec : EqDecision report_stats.
Proof. solve_decision. Defined.
#[global] Instance event_eq_dec : EqDecision event.
Proof. solve_decision. Defined.

Definition betty_dir : string := "/home/jarvis/projects/Betty".
Definition test_results_dir : string := betty_dir +:+ "/test-results".
Definition fix_history_file : string := betty_dir +:+ "/fixes/auto-fixes.jsonl".
Definition ntfy_url : string := "https://ntfy.da-tech.io/Betty".

(** Maximum fix attempts: [self.max_fix_attempts], set by the constructor
    and read nowhere. *)
Definition max_fix_attempts : Z := 3.

(** The computations of the engine. *)
Abbreviation M := (Rt.M event).

Section Engine.
Context `{Host}.

(** *** The stage runner *)

Definition run_command (command : string) : M cmd_result :=
  try_except
    (let* result := host (subprocess_run command (Some 60%nat)) in
     ret {| success := returncode result =? 0;
            output := proc_stdout result +:+ proc_stderr result;
            cmd_returncode := returncode result |})
    (fun e =>
       match e with
       | TimeoutExpired _ =>
           ret {| success := false;
                  output := "Command timed out after 60 seconds";
                  cmd_returncode := -1 |}
       | OtherError _ =>
           ret {| success := false;
                  output := exn_str e;
                  cmd_returncode := -1 |}
       end).

(** *** The failure classifier *)

(** What [re.findall] puts in its list for one match: the group itself
    when the pattern has one group, the tuple of the groups otherwise. *)
Definition match_value (groups : list string) : pyval :=
  match groups with
  | [g] => VStr g
  | _ => VTuple groups
  end.

Definition test_patterns : list string :=
  [ "FAIL\s+(.+?)\.(.+?)\s";
    "FAILED\s+(.+?)::(.+?)\s";
    "AssertionError:\s+(.+)";
    "Error:\s+(.+)" ].

Definition test_failure (command : string) (m : list string) : failure :=
  <[ "type" := VStr "test_failure" ]>
  (<[ "command" := VStr command ]>
  (<[ "details" := match_value m ]>
  (<[ "fixable" := VBool true ]> ∅))).

Definition parse_test_failures (output command : string) : list failure :=
  take 10
    (flat_map (fun pattern => map (test_failure command) (re_findall pattern output))
       test_patterns).

Definition lint_patterns : list string :=
  [ "(.+?):(\d+):(\d+):\s+error:\s+(.+)";
    "(.+?):(\d+):(\d+):\s+(.+)" ].

(** [match[i]] and [match[-1]] on the tuple of groups.  The patterns for
    lint and type errors have four and three groups, so that a match is a
    tuple of so many strings and every index used below is in range. *)
Definition group (i : nat) (m : list string) : pyval := VStr (nth i m EmptyString).
Definition last_group (m : list string) : pyval := VStr (List.last m EmptyString).

Definition lint_error (command : string) (m : list string) : failure :=
  <[ "type" := VStr "lint_error" ]>
  (<[ "command" := VStr command ]>
  (<[ "file" := group 0 m ]>
  (<[ "line" := group 1 m ]>
  (<[ "column" := if (2 <? List.length m)%nat then group 2 m else VInt 0 ]>
  (<[ "message" := last_group m ]>
  (<[ "fixable" := VBool true ]> ∅)))))).

Definition parse_lint_failures (output command : string) : list failure :=
  take 10
    (flat_map (fun pattern => map (lint_error command) (re_findall pattern output))
       lint_patterns).

Definition type_patterns : list string :=
  [ "(.+?):(\d+):\s+error:\s+(.+)";
    "(.+?):(\d+):\s+error:\s+(.+)" ].

Definition type_error (command : string) (m : list string) : failure :=
  <[ "type" := VStr "type_error" ]>
  (<[ "command" := VStr command ]>
  (<[ "file" := group 0 m ]>
  (<[ "line" := group 1 m ]>
  (<[ "message" := group 2 m ]>
  (<[ "fixable" := VBool true ]> ∅))))).

Definition parse_type_failures (output command : string) : list failure :=
  take 10
    (flat_map (fun pattern => map (type_error command) (re_findall pattern output))
       type_patterns).

Definition yaml_error (command : string) : failure :=
  <[ "type" := VStr "yaml_error" ]>
  (<[ "command" := VStr command ]>
  (<[ "fixable" := VBool true ]> ∅)).

Definition parse_build_failures (output command : string) : list failure :=
  if contains "docker" (lower command) then
    if contains "yaml" (lower output) || contains "yml" (lower output)
    then [yaml_error command]
    else []
  else [].

(** *** One verification pass *)

(** A project's configuration: [test_configs[project_type]]; a missing
    list of commands reads as the empty list, as [config.get(k, [])]. *)
Record config : Type := Config {
  test_commands : list string;
  lint_commands : list string;
  type_commands : list string;
  build_commands : list string;
  common_fixes : gmap string (failure -> M bool)
}.

Definition empty_config : config :=
  {| test_commands := []; lint_commands := []; type_commands := [];
     build_commands := []; common_fixes := ∅ |}.

(** [results['tests_run'].append(t)]. *)
Definition append_test_run (t : test_run) (r : test_results) : test_results :=
  {| timestamp := timestamp r; project_type := project_type r;
     changed_files := changed_files r; tests_run := tests_run r ++ [t];
     failures := failures r; has_failures := has_failures r |}.

(** [results['failures'].extend(fs)]. *)
Definition extend_failures (fs : list failure) (r : test_results) : test_results :=
  {| timestamp := timestamp r; project_type := project_type r;
     changed_files := changed_files r; tests_run := tests_run r;
     failures := failures r ++ fs; has_failures := has_failures r |}.

(** [results['has_failures'] = b]. *)
Definition set_has_failures (b : bool) (r : test_results) : test_results :=
  {| timestamp := timestamp r; project_type := project_type r;
     changed_files := changed_files r; tests_run := tests_run r;
     failures := failures r; has_failures := b |}.

(** One turn of a loop of [run_all_tests]: run the command, record it,
    and classify its output only when the command failed. *)
Definition run_stage (kind : string) (parse : string -> string -> list failure)
    (cmd : string) (results : test_results) : M test_results :=
  let* result := run_command cmd in
  let results :=
    append_test_run
      {| tr_command := cmd; tr_type := kind; tr_success := success result;
         tr_output := take_str 1000 (output result) |} results in
  if negb (success result)
  then ret (extend_failures (parse (output result) cmd) results)
  else ret results.

(** The body of [run_all_tests] once [config] is looked up. *)
Definition run_stages (cfg : config) (ptype : string) (changed : list string)
    : M test_results :=
  let* now := ask now_isoformat in
  let results :=
    {| timestamp := now; project_type := ptype; changed_files := changed;
       tests_run := []; failures := []; has_failures := false |} in
  let* results :=
    for_each (test_commands cfg) (run_stage "test" parse_test_failures) results in
  let* results :=
    for_each (lint_commands cfg) (run_stage "lint" parse_lint_failures) results in
  let* results :=
    for_each (type_commands cfg) (run_stage "type-check" parse_type_failures) results in
  let* results :=
    for_each (build_commands cfg) (run_stage "build" parse_build_failures) results in
  ret (set_has_failures (0 <? Z.of_nat (List.length (failures results))) results).

(** *** The fixers *)

(** [try: body / except: return False]. *)
Definition guarded (body : M bool) : M bool :=
  try_except body (fun _ => ret false).

Definition empty_str : pyval := VStr EmptyString.

Definition fix_missing_import_js_body (f : failure) : M bool :=
  let file_path := get f "file" in
  if negb (truthy file_path) then ret false
  else
    let* content := open_read file_path in
    let message := get_default f "message" empty_str in
    let* undefined := py_in "'React' is not defined" message in
    if undefined then
      if negb (contains "import React" content) then
        open_write file_path ("import React from 'react';" +:+ nl +:+ content) ;;
        ret true
      else ret false
    else ret false.

Definition fix_missing_import_js (f : failure) : M bool :=
  guarded (fix_missing_import_js_body f).

Definition fix_syntax_error_js_body (f : failure) : M bool :=
  let file_path := get f "file" in
  let* line_num := py_int (get_default f "line" (VInt 0)) in
  if negb (truthy file_path) || (line_num =? 0) then ret false
  else
    let* content := open_read file_path in
    let lines := readlines_of content in
    if line_num <=? len lines then
      let* line := of_option index_error_exn (py_nth lines (line_num - 1)) in
      let* lines :=
        if endswith "," (rstrip line) && (line_num =? len lines) then
          of_option index_error_exn
            (py_set_nth lines (line_num - 1) (drop_last (rstrip line) +:+ nl))
        else if negb (endswith ";" (rstrip line)) && negb (endswith "{" (rstrip line)) then
          of_option index_error_exn
            (py_set_nth lines (line_num - 1) (rstrip line +:+ ";" +:+ nl))
        else ret lines in
      open_write file_path (String.concat EmptyString lines) ;;
      ret true
    else ret false.

Definition fix_syntax_error_js (f : failure) : M bool :=
  guarded (fix_syntax_error_js_body f).

Definition fix_type_error_ts_body (f : failure) : M bool :=
  let file_path := get f "file" in
  let message := get_default f "message" empty_str in
  if negb (truthy file_path) then ret false
  else
    let* content := open_read file_path in
    let* implicit_any := py_in "implicitly has an 'any' type" message in
    if implicit_any then
      let content := replace ": any" ": any" content in
      open_write file_path content ;;
      ret true
    else ret false.

Definition fix_type_error_ts (f : failure) : M bool :=
  guarded (fix_type_error_ts_body f).

Definition fix_lint_error_js_body (f : failure) : M bool :=
  let* result := run_command "npm run lint -- --fix" in
  ret (success result).

Definition fix_lint_error_js (f : failure) : M bool :=
  guarded (fix_lint_error_js_body f).

(** [re.search(pattern, v)]: the groups of the first match. *)
Definition py_re_search (pattern : string) (v : pyval) : M (option (list string)) :=
  match v with
  | VStr s => ret (re_search pattern s)
  | _ => raise type_error_exn
  end.

Definition fix_import_error_py_body (f : failure) : M bool :=
  let file_path := get f "file" in
  let message := get_default f "message" empty_str in
  if negb (truthy file_path) then ret false
  else
    let* content := open_read file_path in
    let* missing := py_in "No module named" message in
    if missing then
      let* found := py_re_search "No module named '(.+?)'" message in
      match found with
      | Some groups =>
          let module := nth 0 groups EmptyString in
          let* result := run_command ("pip install " +:+ module) in
          ret (success result)
      | None => ret false
      end
    else ret false.

Definition fix_import_error_py (f : failure) : M bool :=
  guarded (fix_import_error_py_body f).

Definition fix_syntax_error_py_body (f : failure) : M bool :=
  let file_path := get f "file" in
  let* line_num := py_int (get_default f "line" (VInt 0)) in
  if negb (truthy file_path) || (line_num =? 0) then ret false
  else
    let* content := open_read file_path in
    let lines := readlines_of content in
    if line_num <=? len lines then
      let* line := of_option index_error_exn (py_nth lines (line_num - 1)) in
      let* lines :=
        if endswith ":" (rstrip line) && (line_num <? len lines) then
          let* next_line := of_option index_error_exn (py_nth lines line_num) in
          if negb (startswith "    " next_line) && negb (startswith tab next_line) then
            of_option index_error_exn
              (py_set_nth lines line_num ("    " +:+ next_line))
          else ret lines
        else ret lines in
      open_write file_path (String.concat EmptyString lines) ;;
      ret true
    else ret false.

Definition fix_syntax_error_py (f : failure) : M bool :=
  guarded (fix_syntax_error_py_body f).

Definition fix_indentation_error_py_body (f : failure) : M bool :=
  let file_path := get f "file" in
  if negb (truthy file_path) then ret false
  else
    let* result := run_command ("autopep8 --in-place " +:+ py_str file_path) in
    let* result :=
      if negb (success result)
      then run_command ("black " +:+ py_str file_path)
      else ret result in
    ret (success result).

Definition fix_indentation_error_py (f : failure) : M bool :=
  guarded (fix_indentation_error_py_body f).

Definition fix_type_error_py (f : failure) : M bool := ret false.

Definition fix_yaml_error_body (f : failure) : M bool :=
  let* result := run_command "yamllint -d relaxed docker-compose.yml" in
  ret (success result).

Definition fix_yaml_error (f : failure) : M bool :=
  guarded (fix_yaml_error_body f).

Definition fix_dockerfile_error (f : failure) : M bool := ret false.

(** The loop of [attempt_generic_fix]: the first command that succeeds
    ends it. *)
Fixpoint first_success (commands : list string) : M bool :=
  match commands with
  | [] => ret false
  | cmd :: rest =>
      let* result := run_command cmd in
      if success result then ret true else first_success rest
  end.

Definition attempt_generic_fix (f : failure) : M bool :=
  let failure_type := get f "type" in
  if bool_decide (failure_type = VStr "lint_error") then
    first_success
      [ "npm run lint -- --fix";
        "ruff check --fix";
        "autopep8 --in-place --recursive ." ]
  else ret false.

(** *** The configurations *)

Definition javascript_config : config :=
  {| test_commands := ["npm test"; "npm run test:unit"; "npm run test:integration"];
     lint_commands := ["npm run lint"; "npm run eslint"];
     type_commands := ["npm run type-check"; "npm run tsc"];
     build_commands := ["npm run build"];
     common_fixes :=
       <[ "missing_import" := fix_missing_import_js ]>
       (<[ "syntax_error" := fix_syntax_error_js ]>
       (<[ "type_error" := fix_type_error_ts ]>
       (<[ "lint_error" := fix_lint_error_js ]> ∅))) |}.

Definition python_config : config :=
  {| test_commands := ["pytest"; "python -m pytest"; "python -m unittest"];
     lint_commands := ["ruff check"; "flake8"; "pylint"];
     type_commands := ["mypy ."];
     build_commands := ["python setup.py build"];
     common_fixes :=
       <[ "import_error" := fix_import_error_py ]>
       (<[ "syntax_error" := fix_syntax_error_py ]>
       (<[ "indentation_error" := fix_indentation_error_py ]>
       (<[ "type_error" := fix_type_error_py ]> ∅))) |}.

Definition docker_config : config :=
  {| test_commands := ["docker-compose config"];
     lint_commands := [];
     type_commands := [];
     build_commands := ["docker-compose build"; "docker build ."];
     common_fixes :=
       <[ "yaml_error" := fix_yaml_error ]>
       (<[ "dockerfile_error" := fix_dockerfile_error ]> ∅) |}.

Definition test_configs : gmap string config :=
  <[ "javascript" := javascript_config ]>
  (<[ "python" := python_config ]>
  (<[ "docker" := docker_config ]> ∅)).

(** [self.test_configs.get(project_type, {})]. *)
Definition config_of (ptype : string) : config :=
  default empty_config (test_configs !! ptype).

Definition run_all_tests (ptype : string) (changed : list string) : M test_results :=
  run_stages (config_of ptype) ptype changed.

(** *** One round of fixes *)

(** [log_fix]: append one entry to the history of fixes. *)
Definition log_fix (f : failure) (status : string) : M unit :=
  let* now := ask now_isoformat in
  host (json_write fix_history_file) ;;
  emit (FixLogged now f status).

Definition fix_results_init : fix_results :=
  {| attempted := 0; fixed := []; failed := []; fixed_count := 0;
     all_fixed := false |}.

(** [fix_results['attempted'] += 1]. *)
Definition count_attempt (r : fix_results) : fix_results :=
  {| attempted := attempted r + 1; fixed := fixed r; failed := failed r;
     fixed_count := fixed_count r; all_fixed := all_fixed r |}.

(** [fix_results['fixed'].append(f)] and [fix_results['fixed_count'] += 1]. *)
Definition record_fixed (f : failure) (r : fix_results) : fix_results :=
  {| attempted := attempted r; fixed := fixed r ++ [f]; failed := failed r;
     fixed_count := fixed_count r + 1; all_fixed := all_fixed r |}.

(** [fix_results['failed'].append(f)]. *)
Definition record_failed (f : failure) (r : fix_results) : fix_results :=
  {| attempted := attempted r; fixed := fixed r; failed := failed r ++ [f];
     fixed_count := fixed_count r; all_fixed := all_fixed r |}.

(** [fix_results['all_fixed'] = b]. *)
Definition set_all_fixed (b : bool) (r : fix_results) : fix_results :=
  {| attempted := attempted r; fixed := fixed r; failed := failed r;
     fixed_count := fixed_count r; all_fixed := b |}.

(** [failure_type in fixers] and [fixers[failure_type]]. *)
Definition lookup_fixer (fixers : gmap string (failure -> M bool))
    (failure_type : pyval) : option (failure -> M bool) :=
  match failure_type with
  | VStr name => fixers !! name
  | _ => None
  end.

(** [failure.get('fixable')], as a truth value. *)
Definition fixable (f : failure) : bool := truthy (get f "fixable").

(** One turn of the loop of [attempt_fixes]. *)
Definition attempt_fix (fixers : gmap string (failure -> M bool))
    (f : failure) (r : fix_results) : M fix_results :=
  if negb (fixable f) then ret r
  else
    let r := count_attempt r in
    let failure_type := get f "type" in
    match lookup_fixer fixers failure_type with
    | Some fixer =>
        let* done := fixer f in
        if done then
          log_fix f "success" ;;
          ret (record_fixed f r)
        else
          log_fix f "failed" ;;
          ret (record_failed f r)
    | None =>
        let* done := attempt_generic_fix f in
        if done then ret (record_fixed f r)
        else ret (record_failed f r)
    end.

Definition attempt_fixes (results : test_results) (ptype : string)
    (changed : list string) : M fix_results :=
  let cfg := config_of ptype in
  let fixers := common_fixes cfg in
  let* r := for_each (failures results) (attempt_fix fixers) fix_results_init in
  ret (set_all_fixed (fixed_count r =? len (failures results)) r).

(** *** Project type and changed files *)

Definition exists_in_project (name : string) : M bool :=
  query (path_exists (betty_dir +:+ "/" +:+ name)).

Definition detect_project_type : M string :=
  let* package_json := exists_in_project "package.json" in
  if package_json then ret "javascript"
  else
    let* requirements := exists_in_project "requirements.txt" in
    let* setup_py := if requirements then ret true else exists_in_project "setup.py" in
    if setup_py then ret "python"
    else
      let* compose := exists_in_project "docker-compose.yml" in
      if compose then ret "docker"
      else
        let* js := query (rglob betty_dir "*.js") in
        let* ts := query (rglob betty_dir "*.ts") in
        let* py := query (rglob betty_dir "*.py") in
        if len py <? len (js ++ ts) then ret "javascript" else ret "python".

(** One entry of [tools_used]: [tool.get('name')] and
    [tool.get('params', {}).get('file_path')]. *)
Record tool_use : Type := ToolUse {
  tu_name : option string;
  tu_file_path : option string
}.

(** The payload of the hook, as [json.load] returns it for a payload of
    the shape the hook protocol gives it: [hook_data.get('session_id')]
    and [hook_data.get('tools_used', [])].  Input that is not JSON makes
    [json.load] raise. *)
Record hook_data : Type := HookData {
  session_id : pyval;
  tools_used : list tool_use
}.

Definition is_edit_tool (name : option string) : bool :=
  match name with
  | Some n => bool_decide (n ∈ ["Edit"; "MultiEdit"; "Write"])
  | None => false
  end.

Definition extract_changed_files (tools : list tool_use) : list string :=
  fold_left
    (fun changed tool =>
       if is_edit_tool (tu_name tool) then
         match tu_file_path tool with
         | Some file_path =>
             if negb (String.eqb file_path EmptyString)
                && negb (bool_decide (file_path ∈ changed))
             then changed ++ [file_path]
             else changed
         | None => changed
         end
       else changed)
    tools [].

(** *** Report and notifications *)

Definition count_runs (p : test_run -> bool) (l : list test_run) : Z :=
  len (filter (fun t => p t = true) l).

Definition save_test_report (results : test_results) (data : hook_data) : M unit :=
  let* now := ask now_isoformat in
  let stats :=
    {| total_tests := len (tests_run results);
       passed := count_runs tr_success (tests_run results);
       failed_tests := count_runs (fun t => negb (tr_success t)) (tests_run results);
       failure_count := len (failures results) |} in
  let* stamp := ask now_stamp in
  let report_path := test_results_dir +:+ "/test_report_" +:+ stamp +:+ ".json" in
  host (json_write report_path) ;;
  emit (ReportSaved now (session_id data) results stats).

(** [try: import requests ... requests.post(...) / except: pass]: the
    module is imported first, then the message is built and handed to
    [requests.post]; whatever raises on the way is ignored. *)
Definition post_quietly (build : M notification) : M unit :=
  try_except
    (host import_requests ;;
     let* n := build in
     emit (Posted n) ;;
     host (requests_post ntfy_url))
    (fun _ => ret tt).

Definition send_success_notification (fr : fix_results) : M unit :=
  post_quietly (ret (AutoFixSuccess (fixed_count fr))).

Definition send_partial_fix_notification (fr : fix_results) (final : test_results)
    : M unit :=
  post_quietly (ret (AutoFixPartial (fixed_count fr) (len (failures final)))).

(** The lines of [send_failure_notification] for the first failures that
    have a [file]. *)
Fixpoint failure_lines (fs : list failure) : M (list (string * string)) :=
  match fs with
  | [] => ret []
  | f :: rest =>
      if has_key f "file" then
        let* short := py_slice_to 50 (get_default f "message" (VStr "error")) in
        let* lines := failure_lines rest in
        ret ((py_str (get f "file"), py_str short) :: lines)
      else failure_lines rest
  end.

Definition send_failure_notification (results : test_results) : M unit :=
  post_quietly
    (let* lines := failure_lines (take 3 (failures results)) in
     ret (AutoFixManualRequired (len (failures results)) lines)).

(** *** The main entry point *)

(** The local variables of [run_comprehensive_test] when its [try] block
    ends normally. *)
Record run_locals : Type := RunLocals {
  loc_test_results : test_results;
  loc_fix_results : option fix_results;
  loc_final_results : option test_results
}.

Definition print (m : message) : M unit := emit (Stderr m).

(** The remediation step of [run_comprehensive_test]: "If there are
    failures, attempt to fix", then "Run tests again to verify".  It
    yields the values of [fix_results] and [final_results], where they
    were assigned. *)
Definition remediate (results : test_results) (ptype : string) (changed : list string)
    : M (option fix_results * option test_results) :=
  if has_failures results then
    print (MsgFoundIssues (len (failures results))) ;;
    let* fr := attempt_fixes results ptype changed in
    if all_fixed fr then
      print MsgAllFixedVerifying ;;
      let* final := run_all_tests ptype changed in
      (if negb (has_failures final) then
         send_success_notification fr ;;
         print MsgAllPassingReady
       else
         send_partial_fix_notification fr final ;;
         print (MsgFixedRemain (fixed_count fr) (len (failures final)))) ;;
      ret (Some fr, Some final)
    else
      send_failure_notification results ;;
      print MsgCouldNotFix ;;
      ret (Some fr, None)
  else
    print MsgNoFixesNeeded ;;
    ret (None, None).

Definition comprehensive_test_body (stdin : outcome hook_data) : M run_locals :=
  let* data := lift stdin in
  let* ptype := detect_project_type in
  print (MsgStarting ptype) ;;
  let changed := extract_changed_files (tools_used data) in
  let* results := run_all_tests ptype changed in
  let* (fr, final) := remediate results ptype changed in
  save_test_report results data ;;
  ret (RunLocals results fr final).

Definition run_comprehensive_test (stdin : outcome hook_data) : M Z :=
  try_except
    (comprehensive_test_body stdin ;; ret 0)
    (fun e => print (MsgError (exn_str e)) ;; ret 0).

End Engine.

(** *** Reading a trace

    The run prints one line before it hands the issues it found to
    [attempt_fixes], and one line before it verifies again.
    [fix_rounds] and [reverifications] count these two lines in a trace:
    they tell what the run announced.  What the run executed, and how
    often, is told by [one_round] and [run_steps] below, state by
    state. *)
Definition is_round (e : event) : bool :=
  match e with
  | Stderr (MsgFoundIssues _) => true
  | _ => false
  end.

Definition is_reverification (e : event) : bool :=
  match e with
  | Stderr MsgAllFixedVerifying => true
  | _ => false
  end.

Definition is_stderr (e : event) : bool :=
  match e with
  | Stderr _ => true
  | _ => false
  end.

Definition fix_rounds (evs : list event) : nat := List.length (List.filter is_round evs).

Definition reverifications (evs : list event) : nat :=
  List.length (List.filter is_reverification evs).

(** The ledger that the loop of [attempt_fixes] keeps, once the failures
    [done] have had their turn: every fixable failure was attempted once
    and stands either in [fixed] or in [failed]. *)
Definition ledger (done : list failure) (r : fix_results) : Prop :=
  fixed_count r = len (fixed r) /\
  attempted r = len (fixed r) + len (failed r) /\
  attempted r = len (List.filter fixable done) /\
  (forall f, f ∈ fixed r -> f ∈ done /\ fixable f = true) /\
  (forall f, f ∈ failed r -> f ∈ done /\ fixable f = true).

(** What [attempt_fixes] returns for the failures of [results]. *)
Definition tally (results : test_results) (r : fix_results) : Prop :=
  ledger (failures results) r /\
  all_fixed r = (fixed_count r =? len (failures results)).

(** The last line of a run that verified again, and the notification that
    goes with it: they tell whether the final pass still has failures. *)
Definition verdict (fr : fix_results) (final : test_results) : message :=
  if has_failures final
  then MsgFixedRemain (fixed_count fr) (len (failures final))
  else MsgAllPassingReady.

Definition verdict_notification (fr : fix_results) (final : test_results) : notification :=
  if has_failures final
  then AutoFixPartial (fixed_count fr) (len (failures final))
  else AutoFixSuccess (fixed_count fr).

(** The course of the remediation step on the failures of [results], told
    by what it assigned and by the lines it printed:
    - no failure: no round is announced;
    - some failure not reported fixed: one round is announced, and no
      verification after it;
    - every failure reported fixed: one round is announced, then one
      verification, whose result only chooses the verdict. *)
Definition remediation_course (results : test_results)
    (fr : option fix_results) (final : option test_results) (evs : list event) : Prop :=
  match fr, final with
  | None, None =>
      has_failures results = false /\
      fix_rounds evs = 0%nat /\ reverifications evs = 0%nat /\
      Stderr MsgNoFixesNeeded ∈ evs
  | Some fr, None =>
      has_failures results = true /\ tally results fr /\ all_fixed fr = false /\
      fix_rounds evs = 1%nat /\ reverifications evs = 0%nat /\
      Stderr MsgCouldNotFix ∈ evs
  | Some fr, Some final =>
      has_failures results = true /\ tally results fr /\ all_fixed fr = true /\
      fix_rounds evs = 1%nat /\ reverifications evs = 1%nat /\
      has_failures final = (0 <? len (failures final)) /\
      Stderr (verdict fr final) ∈ evs
  | None, Some _ => False
  end.

(** Events that are not lines of the standard error stream. *)
Definition quiet (evs : list event) : Prop := Forall (fun e => is_stderr e = false) evs.

(** *** The shape of a trace

    The kinds of event, and what the remediation step and the whole
    [try] block leave behind, event by event. *)
Definition is_fix_log (e : event) : bool :=
  match e with
  | FixLogged _ _ _ => true
  | _ => false
  end.

Definition is_report (e : event) : bool :=
  match e with
  | ReportSaved _ _ _ _ => true
  | _ => false
  end.

Definition is_error_line (e : event) : bool :=
  match e with
  | Stderr (MsgError _) => true
  | _ => false
  end.

(** The entries of the history of fixes. *)
Definition fix_logs (evs : list event) : Prop := Forall (fun e => is_fix_log e = true) evs.

(** The statistics that [save_test_report] computes. *)
Definition stats_of (results : test_results) : report_stats :=
  {| total_tests := len (tests_run results);
     passed := count_runs tr_success (tests_run results);
     failed_tests := count_runs (fun t => negb (tr_success t)) (tests_run results);
     failure_count := len (failures results) |}.

(** The remediation step on the failures of [results]: the announcement
    of the issues found, the entries that the round of fixes logged, and
    then
    - nothing more, when logging an entry raised;
    - the announcement of the final verification, the notification, if
      it could be handed over, and the last line, when every failure was
      reported fixed;
    - the notification, if it could be built, and the last line, when
      some failure was not reported fixed. *)
Definition remediation_trace (results : test_results)
    (o : outcome (option fix_results * option test_results)) (evs : list event) : Prop :=
  if has_failures results then
    exists logs rest,
      evs = Stderr (MsgFoundIssues (len (failures results))) :: logs ++ rest /\
      fix_logs logs /\
      match o with
      | Raise _ => rest = []
      | Ok (Some fr, Some final) =>
          tally results fr /\ all_fixed fr = true /\
          has_failures final = (0 <? len (failures final)) /\
          exists posts,
            rest = Stderr MsgAllFixedVerifying :: posts ++ [Stderr (verdict fr final)] /\
            (posts = [] \/ posts = [Posted (verdict_notification fr final)])
      | Ok (Some fr, None) =>
          tally results fr /\ all_fixed fr = false /\
          exists posts,
            rest = posts ++ [Stderr MsgCouldNotFix] /\
            (posts = [] \/
             exists lines,
               posts = [Posted (AutoFixManualRequired (len (failures results)) lines)])
      | Ok (None, _) => False
      end
  else o = Ok (None, None) /\ evs = [Stderr MsgNoFixesNeeded].

(** The [try] block of a run on the payload [data]: nothing, when the
    detection of the project type raises; otherwise the first line, the
    remediation step on the results of the first pass and, when the
    block ends normally, the report of that pass. *)
Definition run_trace (data : hook_data) (o : outcome run_locals) (evs : list event) : Prop :=
  (exists e, o = Raise e /\ evs = []) \/
  exists ptype results o' mid,
    remediation_trace results o' mid /\
    has_failures results = (0 <? len (failures results)) /\
    match o with
    | Ok locals =>
        results = loc_test_results locals /\
        o' = Ok (loc_fix_results locals, loc_final_results locals) /\
        exists now,
          evs = Stderr (MsgStarting ptype) :: mid ++
                [ReportSaved now (session_id data) results (stats_of results)]
    | Raise _ => evs = Stderr (MsgStarting ptype) :: mid
    end.

(** The entries of the history of fixes among the events: the failure and
    the status of each. *)
Definition logged (evs : list event) : list (failure * string) :=
  omap (fun e => match e with
                 | FixLogged _ f status => Some (f, status)
                 | _ => None
                 end) evs.

Section Registry.
Context `{Host}.

(** Whether a fixer is registered for the type of a failure. *)
Definition has_fixer (fixers : gmap string (failure -> M bool)) (f : failure) : bool :=
  bool_decide (is_Some (lookup_fixer fixers (get f "type"))).

(** The fix that a turn of [attempt_fixes] tries for a fixable failure:
    the fixer registered for its type, and the generic fix when there is
    none. *)
Definition fixer_of (fixers : gmap string (failure -> M bool)) (f : failure) : M bool :=
  match lookup_fixer fixers (get f "type") with
  | Some fixer => fixer f
  | None => attempt_generic_fix f
  end.

End Registry.

(** *** The executions of a pass

    What the host is asked during a pass, command by command. *)
Section Executions.
Context `{Host}.

(** The result that [run_command] makes of what [subprocess.run] did. *)
Definition result_of (o : outcome completed_process) : cmd_result :=
  match o with
  | Ok p =>
      {| success := returncode p =? 0;
         output := proc_stdout p +:+ proc_stderr p;
         cmd_returncode := returncode p |}
  | Raise (TimeoutExpired _) =>
      {| success := false;
         output := "Command timed out after 60 seconds";
         cmd_returncode := -1 |}
  | Raise (OtherError msg) =>
      {| success := false; output := msg; cmd_returncode := -1 |}
  end.

(** The commands run one after the other, each once and with the timeout
    of sixty seconds, from the world [w]: what [subprocess.run] did for
    each, and the world after the last. *)
Fixpoint run_each (cmds : list string) (w : World)
    : list (outcome completed_process) * World :=
  match cmds with
  | [] => ([], w)
  | cmd :: rest =>
      let '(o, w1) := subprocess_run cmd (Some 60%nat) w in
      let '(os, w2) := run_each rest w1 in
      (o :: os, w2)
  end.

(** The entry of [tests_run] for a command of a stage of the kind [kind]
    for which [subprocess.run] did [o]. *)
Definition record_of (kind cmd : string) (o : outcome completed_process) : test_run :=
  {| tr_command := cmd; tr_type := kind;
     tr_success := success (result_of o);
     tr_output := take_str 1000 (output (result_of o)) |}.

(** The issues of that command: those the parser of the stage reads in
    its output, when it failed. *)
Definition issues_of (parse : string -> string -> list failure) (cmd : string)
    (o : outcome completed_process) : list failure :=
  if success (result_of o) then [] else parse (output (result_of o)) cmd.

(** *** The executions of a run

    The steps of [run_comprehensive_test] as executions of its parts,
    each started in the state in which the step before it ended. *)

(** The state after a line was printed. *)
Definition printed (st : state event) (m : message) : state event :=
  State (world st) (trace st ++ [Stderr m]).

(** The remediation step on [results], from the state [s] in which the
    first pass ended to the state [s'], with what it assigned to
    [fix_results] and [final_results]:
    - without failures nothing is executed;
    - with failures [attempt_fixes] is executed once, in the state after
      the announcement of the issues;
    - when its result has [all_fixed], [run_all_tests] is executed once
      more, in the state after the announcement of the verification, and
      then the notification that goes with the verdict is sent;
    - otherwise the failure notification is sent, and no pass is
      executed. *)
Definition one_round (results : test_results) (ptype : string) (changed : list string)
    (s : state event) (fr : option fix_results) (final : option test_results)
    (s' : state event) : Prop :=
  match fr, final with
  | None, None =>
      has_failures results = false /\ s' = printed s MsgNoFixesNeeded
  | Some fr, None =>
      has_failures results = true /\ all_fixed fr = false /\
      exists s1 s2,
        attempt_fixes results ptype changed
          (printed s (MsgFoundIssues (len (failures results)))) = (Ok fr, s1) /\
        send_failure_notification results s1 = (Ok tt, s2) /\
        s' = printed s2 MsgCouldNotFix
  | Some fr, Some final =>
      has_failures results = true /\ all_fixed fr = true /\
      exists s1 s2 s3,
        attempt_fixes results ptype changed
          (printed s (MsgFoundIssues (len (failures results)))) = (Ok fr, s1) /\
        run_all_tests ptype changed (printed s1 MsgAllFixedVerifying) = (Ok final, s2) /\
        (if has_failures final
         then send_partial_fix_notification fr final s2
         else send_success_notification fr s2) = (Ok tt, s3) /\
        s' = printed s3 (verdict fr final)
  | None, Some _ => False
  end.

(** The [try] block of a run on the payload [data], from the state [st]
    to the state [st']: the project type is detected, the first pass is
    executed in the state after the first line, then the remediation
    step, then the report is saved.  A block that raises has stopped in
    the detection, in the one round of fixes, or in saving the report. *)
Definition run_steps (data : hook_data) (st : state event) (o : outcome run_locals)
    (st' : state event) : Prop :=
  let changed := extract_changed_files (tools_used data) in
  match o with
  | Ok locals =>
      let results := loc_test_results locals in
      exists ptype s1 s2,
        detect_project_type st = (Ok ptype, st) /\
        run_all_tests ptype changed (printed st (MsgStarting ptype)) = (Ok results, s1) /\
        one_round results ptype changed s1
          (loc_fix_results locals) (loc_final_results locals) s2 /\
        save_test_report results data s2 = (Ok tt, st')
  | Raise e =>
      detect_project_type st = (Raise e, st') \/
      exists ptype results s1,
        detect_project_type st = (Ok ptype, st) /\
        run_all_tests ptype changed (printed st (MsgStarting ptype)) = (Ok results, s1) /\
        (has_failures results = true /\
         attempt_fixes results ptype changed
           (printed s1 (MsgFoundIssues (len (failures results)))) = (Raise e, st')
         \/
         exists fr final s2,
           one_round results ptype changed s1 fr final s2 /\
           save_test_report results data s2 = (Raise e, st'))
  end.

End Executions.

End Betty.

(** ** [smart-completion-guardian.py]: the completion gate *)

Module Guardian.
Import Py Rt.
Local Open Scope py_scope.

(** An issue is the dictionary the checks build: keys [type], [message],
    [fix_hint] and, by kind, [file], [line], [column]. *)
Abbreviation issue := (gmap string pyval).

(** The headings of the block message, one per kind of issue. *)
Inductive heading : Type :=
| TypeScriptErrors
| PythonSyntaxErrors
| LintingErrors
| DockerConfiguration
| GitWarnings
| OtherIssues.

(** One bullet of the block message, with its hint line when the issue
    has a [fix_hint]. *)
Record bullet : Type := Bullet {
  bullet_text : string;
  bullet_hint : option string
}.

(** The block message: its first line counts the issues, then one group
    of bullets under each heading, then the closing advice. *)
Record block_message : Type := BlockMessage {
  issue_count : Z;
  groups : list (heading * list bullet)
}.

(** The lines printed on the standard error stream. *)
Inductive message : Type :=
| MsgChecking
| MsgBlocked (n : Z)
| MsgAllowed
| MsgError (e : string).

(** What an evaluation of the gate leaves behind: the lines on standard
    error, the block action on standard output, the entry appended to
    [completion-blocks.jsonl]. *)
Inductive event : Type :=
| Stderr (m : message)
| StdoutBlock (m : option block_message)
| BlockLogged (timestamp : string) (issues : list issue) (blocked : bool).

#[global] Instance heading_eq_dec : EqDecision heading.
Proof. solve_decision. Defined.
#[global] Instance bullet_eq_dec : EqDecision bullet.
Proof. solve_decision. Defined.
#[global] Instance block_message_eq_dec : EqDecision block_message.
Proof. solve_decision. Defined.
#[global] Instance message_eq_dec : EqDecision message.
Proof. solve_decision. Defined.
#[global] Instance event_eq_dec : EqDecision event.
Proof. solve_decision. Defined.

Definition betty_dir : string := "/home/jarvis/projects/Betty".
Definition blocks_log : string := "/home/jarvis/projects/Betty/completion-blocks.jsonl".

Definition completion_patterns : list string :=
  [ "all done"; "complete"; "finished"; "ready";
    "all set"; "that's it"; "task complete" ].

(** What [should_check] finds under [tool_input] in the payload:
    - [NoCommand]: no [command], because the payload has no [tool_input]
      or because that dictionary has no such key;
    - [Command v]: the dictionary holds the value [v] under [command];
    - [NoDictionary]: the value under [tool_input] is not a dictionary. *)
Inductive command_field : Type :=
| NoCommand
| Command (v : pyval)
| NoDictionary.

(** The payload of the hook, as [json.load] returns it:
    [tool_input.get('tool_name')], where a name that is missing or not a
    string is [None], and what stands under [tool_input].  Input that is
    not a JSON object makes [json.load], or the first [get], raise. *)
Record tool_input : Type := ToolInput {
  tool_name : option string;
  command : command_field
}.

(** [tool_input.get('tool_input', {}).get('command', '').lower()] up to
    the call of [lower]: a value that is not a dictionary has no [get],
    and a command that is not a string has no [lower]. *)
Definition command_text (t : tool_input) : outcome string :=
  match command t with
  | NoCommand => Ok EmptyString
  | Command (VStr s) => Ok s
  | Command _ | NoDictionary => Raise attribute_error_exn
  end.

Definition should_check (t : tool_input) : outcome bool :=
  if negb (bool_decide (tool_name t = Some "Bash")) then Ok false
  else
    match command_text t with
    | Ok text =>
        let command := lower text in
        if contains "echo" command || contains "print" command then
          Ok (existsb (fun pattern => contains pattern (lower command)) completion_patterns)
        else Ok false
    | Raise e => Raise e
    end.

(** What [git status --porcelain] prints for the given entries: one line
    for each. *)
Fixpoint porcelain (entries : list string) : string :=
  match entries with
  | [] => EmptyString
  | entry :: rest => entry +:+ nl +:+ porcelain rest
  end.

(** An entry of that output is one line of text: it holds no newline, and
    it holds a character that is not white space. *)
Definition is_entry (l : string) : bool := Nat.eqb (newlines l) 0 && has_ink l.

(** The double quote, for the commands and patterns that hold one. *)
Definition dq : string := String (ascii_of_nat 34) EmptyString.

(** The computations of the gate. *)
Abbreviation M := (Rt.M event).

Section Gate.
Context `{Host}.

Definition print (m : message) : M unit := emit (Stderr m).

Definition exists_in_project (name : string) : M bool :=
  query (path_exists (betty_dir +:+ "/" +:+ name)).

(** [for a, b, c, d in matches: ...]: a match that is not a tuple of
    four groups cannot be unpacked. *)
Definition unpack4 (m : list string) : M (string * string * string * string) :=
  match m with
  | [a; b; c; d] => ret (a, b, c, d)
  | _ => raise value_error_exn
  end.

Definition typescript_issue (m : list string) (errors : list issue) : M (list issue) :=
  let* (file_path, line, col, message) := unpack4 m in
  ret (errors ++
    [ <[ "type" := VStr "typescript" ]>
      (<[ "file" := VStr file_path ]>
      (<[ "line" := VStr line ]>
      (<[ "column" := VStr col ]>
      (<[ "message" := VStr message ]>
      (<[ "fix_hint" :=
            VStr ("Edit " +:+ file_path +:+ ":" +:+ line +:+ " to fix: " +:+ message) ]>
       ∅))))) ]).

Definition check_javascript : M (list issue) :=
  let* package_json := exists_in_project "package.json" in
  if package_json then
    let* result :=
      host (subprocess_run
              "npm run type-check 2>&1 || npx tsc --noEmit 2>&1 || true"
              (Some 10%nat)) in
    if negb (String.eqb (proc_stdout result) EmptyString)
       || negb (String.eqb (proc_stderr result) EmptyString) then
      let output := proc_stdout result +:+ proc_stderr result in
      let ts_errors := re_findall "(.+?)\((\d+),(\d+)\): error TS\d+: (.+)" output in
      for_each (take 5 ts_errors) typescript_issue []
    else ret []
  else ret [].

Definition find_recent_python : string :=
  "find . -name " +:+ dq +:+ "*.py" +:+ dq +:+ " -mmin -10 2>/dev/null | head -5".

Definition python_issue (py_file : string) (errors : list issue) : M (list issue) :=
  if negb (String.eqb py_file EmptyString) then
    let* result :=
      host (subprocess_run ("python3 -m py_compile " +:+ py_file +:+ " 2>&1") None) in
    if negb (String.eqb (proc_stderr result) EmptyString) then
      match re_search ("File " +:+ dq +:+ "(.+?)" +:+ dq +:+ ", line (\d+)")
              (proc_stderr result) with
      | Some m =>
          let file := nth 0 m EmptyString in
          let line := nth 1 m EmptyString in
          ret (errors ++
            [ <[ "type" := VStr "python_syntax" ]>
              (<[ "file" := VStr file ]>
              (<[ "line" := VStr line ]>
              (<[ "message" := VStr (hd EmptyString (split_lines (proc_stderr result))) ]>
              (<[ "fix_hint" :=
                    VStr ("Fix Python syntax at " +:+ file +:+ ":" +:+ line) ]>
               ∅)))) ])
      | None => ret errors
      end
    else ret errors
  else ret errors.

Definition check_python : M (list issue) :=
  let* py_files :=
    try_except
      (let* result := host (subprocess_run find_recent_python None) in
       if negb (String.eqb (proc_stdout result) EmptyString)
       then ret (split_lines (strip (proc_stdout result)))
       else ret [])
      (fun _ => ret []) in
  for_each py_files python_issue [].

Definition check_docker : M (list issue) :=
  let* docker_compose := exists_in_project "docker-compose.yml" in
  if docker_compose then
    let* result := host (subprocess_run "docker-compose config -q 2>&1" (Some 5%nat)) in
    if negb (returncode result =? 0) then
      ret [ <[ "type" := VStr "docker_compose" ]>
            (<[ "file" := VStr "docker-compose.yml" ]>
            (<[ "message" :=
                  VStr (if negb (String.eqb (proc_stderr result) EmptyString)
                        then proc_stderr result else proc_stdout result) ]>
            (<[ "fix_hint" :=
                  VStr "Fix docker-compose.yml syntax - check YAML formatting" ]>
             ∅))) ]
    else ret []
  else ret [].

Definition lint_issue (m : list string) (errors : list issue) : M (list issue) :=
  let* (file_path, line, col, message) := unpack4 m in
  ret (errors ++
    [ <[ "type" := VStr "lint" ]>
      (<[ "file" := VStr file_path ]>
      (<[ "line" := VStr line ]>
      (<[ "column" := VStr col ]>
      (<[ "message" := VStr message ]>
      (<[ "fix_hint" :=
            VStr ("Run 'npm run lint -- --fix' or edit " +:+ file_path +:+ ":" +:+ line) ]>
       ∅))))) ]).

Definition check_linting : M (list issue) :=
  let* package_json := exists_in_project "package.json" in
  if package_json then
    let* result := host (subprocess_run "npm run lint 2>&1 | head -20" (Some 10%nat)) in
    if contains "error" (lower (proc_stdout result)) then
      let lint_errors :=
        re_findall "(.+?):(\d+):(\d+)\s+error\s+(.+)" (proc_stdout result) in
      for_each (take 3 lint_errors) lint_issue []
    else ret []
  else ret [].

Definition git_warning (modified_files : Z) : issue :=
  <[ "type" := VStr "git_warning" ]>
  (<[ "message" := VStr (pretty modified_files +:+ " files have uncommitted changes") ]>
  (<[ "fix_hint" := VStr "Consider committing changes before marking complete" ]> ∅)).

(** The body of [check_git_status] on the output of [git status]. *)
Definition git_warnings (stdout : string) : list issue :=
  if negb (String.eqb stdout EmptyString) then
    let modified_files := len (split_lines (strip stdout)) in
    if 10 <? modified_files then [git_warning modified_files] else []
  else [].

Definition check_git_status : M (list issue) :=
  let* result := host (subprocess_run "git status --porcelain" None) in
  ret (git_warnings (proc_stdout result)).

Definition run_checks : M (list issue) :=
  let issues := [] in
  let* js_check := check_javascript in
  let issues := issues ++ js_check in
  let* py_check := check_python in
  let issues := issues ++ py_check in
  let* docker_check := check_docker in
  let issues := issues ++ docker_check in
  let* lint_check := check_linting in
  let issues := issues ++ lint_check in
  let* git_check := check_git_status in
  let issues := issues ++ git_check in
  ret issues.

(** *** The block message *)

(** [by_type]: the issues grouped by [issue.get('type', 'unknown')], the
    groups in the order in which their first issue came. *)
Fixpoint add_to_group (issue_type : pyval) (i : issue)
    (by_type : list (pyval * list issue)) : list (pyval * list issue) :=
  match by_type with
  | [] => [(issue_type, [i])]
  | (k, l) :: rest =>
      if key_eqb k issue_type then (k, l ++ [i]) :: rest
      else (k, l) :: add_to_group issue_type i rest
  end.

Definition group_by_type (issues : list issue) : list (pyval * list issue) :=
  fold_left
    (fun by_type i => add_to_group (get_default i "type" (VStr "unknown")) i by_type)
    issues [].

Definition heading_of (issue_type : pyval) : heading :=
  if bool_decide (issue_type = VStr "typescript") then TypeScriptErrors
  else if bool_decide (issue_type = VStr "python_syntax") then PythonSyntaxErrors
  else if bool_decide (issue_type = VStr "lint") then LintingErrors
  else if bool_decide (issue_type = VStr "docker_compose") then DockerConfiguration
  else if bool_decide (issue_type = VStr "git_warning") then GitWarnings
  else OtherIssues.

Definition bullet_of (i : issue) (bullets : list bullet) : M (list bullet) :=
  let* text :=
    if has_key i "file" && has_key i "line" then
      let* short := py_slice_to 50 (get_default i "message" (VStr "error")) in
      ret (py_str (get i "file") +:+ ":" +:+ py_str (get i "line")
           +:+ " - " +:+ py_str short)
    else
      let* short := py_slice_to 80 (get_default i "message" (VStr "error")) in
      ret (py_str short) in
  let hint :=
    if has_key i "fix_hint" then Some (py_str (get i "fix_hint")) else None in
  ret (bullets ++ [ {| bullet_text := text; bullet_hint := hint |} ]).

Definition group_of (g : pyval * list issue)
    (message : list (heading * list bullet)) : M (list (heading * list bullet)) :=
  let '(issue_type, type_issues) := g in
  let* bullets := for_each (take 3 type_issues) bullet_of [] in
  ret (message ++ [(heading_of issue_type, bullets)]).

Definition format_block_message (issues : list issue) : M (option block_message) :=
  match issues with
  | [] => ret None
  | _ :: _ =>
      let by_type := group_by_type issues in
      let* message := for_each by_type group_of [] in
      ret (Some {| issue_count := len issues; groups := message |})
  end.

(** *** The gate *)

Definition append_block_log (issues : list issue) (blocked : bool) : M unit :=
  host (json_write blocks_log) ;;
  let* now := ask now_isoformat in
  emit (BlockLogged now issues blocked).

Definition check_completion_body (stdin : outcome tool_input) : M unit :=
  let* t := lift stdin in
  let* checked := lift (should_check t) in
  if negb checked then ret tt
  else
    print MsgChecking ;;
    let* issues := run_checks in
    match issues with
    | _ :: _ =>
        let* block_message := format_block_message issues in
        emit (StdoutBlock block_message) ;;
        append_block_log issues true ;;
        print (MsgBlocked (len issues))
    | [] =>
        print MsgAllowed ;;
        append_block_log [] false
    end.

Definition check_completion (stdin : outcome tool_input) : M Z :=
  try_except
    (check_completion_body stdin ;; ret 0)
    (fun e => print (MsgError (exn_str e)) ;; ret 0).

End Gate.

(** The decision of the gate, read off what it left behind: the tool call
    is blocked when a block action was printed, and allowed otherwise. *)
Definition is_block (e : event) : bool :=
  match e with
  | StdoutBlock _ => true
  | _ => false
  end.

Definition allowed (tr : list event) : bool := negb (existsb is_block tr).

(** An issue of the type [ty] as the checks build it: its [type] is [ty]
    and its [message] is a string. *)
Definition issue_of (ty : string) (i : issue) : Prop :=
  i !! "type" = Some (VStr ty) /\ exists s, i !! "message" = Some (VStr s).

(** The issues that the block message can render: [message] is missing or
    a string. *)
Definition printable (i : issue) : Prop :=
  exists s, get_default i "message" (VStr "error") = VStr s.

(** Whether the keys of the groups are pairwise different, as the keys of
    a dictionary are. *)
Fixpoint distinct_keys (by_type : list (pyval * list issue)) : bool :=
  match by_type with
  | [] => true
  | (k, _) :: rest =>
      forallb (fun g => negb (key_eqb k (fst g))) rest && distinct_keys rest
  end.

End Guardian.

(** ** Scripted hosts

    A host given by tables: which paths exist, what each command does,
    what the [re] engine finds.  Its world is the list of the commands run
    so far.  Commands, files and patterns outside the tables behave as on
    a quiet machine: the command exits with 0 and prints nothing, the file
    cannot be read, the pattern matches nothing. *)

Module Script.
Import Py Rt.

Record script : Type := {
  existing : list string;
  commands : list (string * outcome completed_process);
  found : list (string * string * list (list string));
  readable : list (string * string)
}.

Definition lookup_str {A} (k : string) (l : list (string * A)) : option A :=
  snd <$> List.find (fun kv => String.eqb (fst kv) k) l.

Definition lookup_found (pattern text : string)
    (l : list (string * string * list (list string))) : list (list string) :=
  match List.find
          (fun e => String.eqb (fst (fst e)) pattern && String.eqb (snd (fst e)) text) l
  with
  | Some e => snd e
  | None => []
  end.

Definition silent : completed_process :=
  {| returncode := 0; proc_stdout := EmptyString; proc_stderr := EmptyString |}.

Definition scripted (s : script) : Host :=
  {| World := list string;
     subprocess_run cmd _ w :=
       (default (Ok silent) (lookup_str cmd (commands s)), w ++ [cmd]);
     path_exists p _ := Ok (bool_decide (p ∈ existing s));
     rglob _ _ _ := Ok [];
     file_read p w :=
       (match lookup_str p (readable s) with
        | Some text => Ok text
        | None => Raise (OtherError "FileNotFoundError")
        end, w);
     file_write _ _ w := (Ok tt, w);
     json_write _ w := (Ok tt, w);
     now_isoformat _ := "2025-01-01T00:00:00";
     now_stamp _ := "20250101_000000";
     import_requests w := (Ok tt, w);
     requests_post _ w := (Ok tt, w);
     re_findall pattern text := lookup_found pattern text (found s);
     re_search pattern text := List.head (lookup_found pattern text (found s));
     repr_tuple l :=
       "(" +:+ String.concat ", " (map (fun x => "'" +:+ x +:+ "'") l) +:+ ")" |}.

(** The initial state: nothing run, nothing printed. *)
Definition start {E} (s : script) : @state (scripted s) E :=
  @State (scripted s) E [] [].

(** *** A JavaScript project whose lint error never goes away

    [npm run lint] reports the same missing semicolon at every run,
    although [npm run lint -- --fix] exits with 0; [npm test] passes and
    prints a deprecation notice that looks like an error. *)

Definition lint_output : string := "app.js:12:3: error: missing semicolon" +:+ nl.
Definition test_output : string := "Error: deprecated API" +:+ nl.

Definition stubborn : script :=
  {| existing := ["/home/jarvis/projects/Betty/package.json"];
     commands :=
       [ ("npm run lint", Ok (CompletedProcess 1 lint_output EmptyString));
         ("npm test", Ok (CompletedProcess 0 test_output EmptyString)) ];
     found :=
       [ ("(.+?):(\d+):(\d+):\s+error:\s+(.+)", lint_output,
          [["app.js"; "12"; "3"; "missing semicolon"]]);
         ("(.+?):(\d+):(\d+):\s+(.+)", lint_output,
          [["app.js"; "12"; "3"; "error: missing semicolon"]]);
         ("Error:\s+(.+)", test_output, [["deprecated API"]]) ];
     readable := [] |}.

(** The results of a pass before its first stage. *)
Definition no_results : Betty.test_results :=
  {| Betty.timestamp := EmptyString; Betty.project_type := "javascript";
     Betty.changed_files := []; Betty.tests_run := []; Betty.failures := [];
     Betty.has_failures := false |}.

(** The payload of a session that changed nothing. *)
Definition idle_session : Betty.hook_data :=
  {| Betty.session_id := VStr "session"; Betty.tools_used := [] |}.

(** The two issues that the lint stage of the stubborn project yields at
    every pass: both lint patterns match the one line. *)
Definition semicolon_error : Betty.failure :=
  Betty.lint_error "npm run lint" ["app.js"; "12"; "3"; "missing semicolon"].

Definition semicolon_message : Betty.failure :=
  Betty.lint_error "npm run lint" ["app.js"; "12"; "3"; "error: missing semicolon"].

(** A failure about a file that cannot be read. *)
Definition missing_react : Betty.failure :=
  <[ "type" := VStr "missing_import" ]>
  (<[ "file" := VStr "src/App.jsx" ]>
  (<[ "message" := VStr "'React' is not defined" ]>
  (<[ "fixable" := VBool true ]> ∅))).

(** A failure marked as not fixable, and the results of a pass that found
    it next to a lint error. *)
Definition unfixable_build_error : Betty.failure :=
  <[ "type" := VStr "build_error" ]>
  (<[ "command" := VStr "npm run build" ]>
  (<[ "fixable" := VBool false ]> ∅)).

Definition mixed_results : Betty.test_results :=
  {| Betty.timestamp := "2025-01-01T00:00:00"; Betty.project_type := "javascript";
     Betty.changed_files := []; Betty.tests_run := [];
     Betty.failures := [unfixable_build_error; semicolon_error];
     Betty.has_failures := true |}.

(** *** A JavaScript project whose build crashes

    [npm run build] exits with 1 and prints a line that no rule of the
    classifier knows; every other command passes. *)
Definition crash_output : string := "Segmentation fault (core dumped)".

Definition broken_build : script :=
  {| existing := ["/home/jarvis/projects/Betty/package.json"];
     commands :=
       [ ("npm run build", Ok (CompletedProcess 1 EmptyString crash_output)) ];
     found := [];
     readable := [] |}.

(** *** Runs on the scripted hosts *)

(** The value a computation returned, and [None] when it raised. *)
Definition returned {A S} (r : outcome A * S) : option A :=
  match fst r with
  | Ok a => Some a
  | Raise _ => None
  end.

(** Whether a computation raised. *)
Definition raised {A S} (r : outcome A * S) : bool :=
  match fst r with
  | Ok _ => false
  | Raise _ => true
  end.

(** The run of the engine on the stubborn project: the local variables
    at the end of the [try] block, and the state it ends in. *)
Definition stubborn_run : outcome Betty.run_locals * @state (scripted stubborn) Betty.event :=
  Betty.comprehensive_test_body (H := scripted stubborn) (Ok idle_session) (start stubborn).

Definition no_locals : Betty.run_locals :=
  {| Betty.loc_test_results := no_results; Betty.loc_fix_results := None;
     Betty.loc_final_results := None |}.

Definition stubborn_locals : Betty.run_locals := default no_locals (returned stubborn_run).
Definition stubborn_end : @state (scripted stubborn) Betty.event := snd stubborn_run.

Definition no_fix_results : Betty.fix_results :=
  {| Betty.attempted := 0; Betty.fixed := []; Betty.failed := [];
     Betty.fixed_count := 0; Betty.all_fixed := false |}.

Definition stubborn_fix_results : Betty.fix_results :=
  default no_fix_results (Betty.loc_fix_results stubborn_locals).
Definition stubborn_final_results : Betty.test_results :=
  default no_results (Betty.loc_final_results stubborn_locals).

(** The run of the engine on the project whose build crashes. *)
Definition broken_run : outcome Betty.run_locals * @state (scripted broken_build) Betty.event :=
  Betty.comprehensive_test_body (H := scripted broken_build) (Ok idle_session)
    (start broken_build).

Definition broken_locals : Betty.run_locals := default no_locals (returned broken_run).
Definition broken_end : @state (scripted broken_build) Betty.event := snd broken_run.

(** One round of fixes on the mixed results, on the stubborn project. *)
Definition mixed_round : outcome Betty.fix_results * @state (scripted stubborn) Betty.event :=
  Betty.attempt_fixes (H := scripted stubborn) mixed_results "javascript" [] (start stubborn).

Definition mixed_fix_results : Betty.fix_results := default no_fix_results (returned mixed_round).

(** The first stage of a pass on the stubborn project. *)
Definition stubborn_test_stage
    : outcome Betty.test_results * @state (scripted stubborn) Betty.event :=
  Betty.run_stage (H := scripted stubborn) "test"
    (Betty.parse_test_failures (H := scripted stubborn)) "npm test"
    no_results (start stubborn).

(** *** A repository with uncommitted changes

    [git status --porcelain] lists [n] modified files; nothing else is
    wrong with the project. *)
Definition changed_entries (n : nat) : list string :=
  map (fun i => " M src/module" +:+ pretty i +:+ ".py") (seq 1 n).

Definition git_output (n : nat) : completed_process :=
  CompletedProcess 0 (Guardian.porcelain (changed_entries n)) EmptyString.

Definition dirty (n : nat) : script :=
  {| existing := [];
     commands := [ ("git status --porcelain", Ok (git_output n)) ];
     found := [];
     readable := [] |}.

(** The tool call that announces completion. *)
Definition all_done : Guardian.tool_input :=
  {| Guardian.tool_name := Some "Bash";
     Guardian.command := Guardian.Command (VStr "echo 'All done'") |}.

(** The evaluation of the gate on the repository with [n] changes. *)
Definition dirty_gate (n : nat) : outcome unit * @state (scripted (dirty n)) Guardian.event :=
  Guardian.check_completion_body (H := scripted (dirty n)) (Ok all_done) (start (dirty n)).

(** *** A project whose type check hangs

    The type check of the gate runs into its timeout of ten seconds. *)
Definition type_check_command : string :=
  "npm run type-check 2>&1 || npx tsc --noEmit 2>&1 || true".

Definition type_check_timeout : py_exn :=
  TimeoutExpired
    ("Command '" +:+ type_check_command +:+ "' timed out after 10 seconds").

Definition hung : script :=
  {| existing := ["/home/jarvis/projects/Betty/package.json"];
     commands := [ (type_check_command, Raise type_check_timeout) ];
     found := [];
     readable := [] |}.

(** *** More runs on the stubborn project *)

(** One verification pass, and the round of fixes on its results. *)
Definition stubborn_pass
    : outcome Betty.test_results * @state (scripted stubborn) Betty.event :=
  Betty.run_all_tests (H := scripted stubborn) "javascript" [] (start stubborn).

Definition stubborn_pass_results : Betty.test_results :=
  default no_results (returned stubborn_pass).

Definition stubborn_round
    : outcome Betty.fix_results * @state (scripted stubborn) Betty.event :=
  Betty.attempt_fixes (H := scripted stubborn) stubborn_pass_results "javascript" []
    (snd stubborn_pass).

Definition stubborn_round_results : Betty.fix_results :=
  default no_fix_results (returned stubborn_round).

(** *** A JavaScript project that the linter can repair

    As the stubborn project, but [npm run lint] passes once
    [npm run lint -- --fix] has run. *)
Definition healing : Host :=
  {| World := list string;
     subprocess_run cmd timeout w :=
       if String.eqb cmd "npm run lint" && bool_decide ("npm run lint -- --fix" ∈ w)
       then (Ok silent, w ++ [cmd])
       else @subprocess_run (scripted stubborn) cmd timeout w;
     path_exists := @path_exists (scripted stubborn);
     rglob := @rglob (scripted stubborn);
     file_read := @file_read (scripted stubborn);
     file_write := @file_write (scripted stubborn);
     json_write := @json_write (scripted stubborn);
     now_isoformat := @now_isoformat (scripted stubborn);
     now_stamp := @now_stamp (scripted stubborn);
     import_requests := @import_requests (scripted stubborn);
     requests_post := @requests_post (scripted stubborn);
     re_findall := @re_findall (scripted stubborn);
     re_search := @re_search (scripted stubborn);
     repr_tuple := @repr_tuple (scripted stubborn) |}.

Definition healing_start : @state healing Betty.event := @State healing Betty.event [] [].

Definition healing_run : outcome Betty.run_locals * @state healing Betty.event :=
  Betty.comprehensive_test_body (H := healing) (Ok idle_session) healing_start.

Definition healing_locals : Betty.run_locals := default no_locals (returned healing_run).
Definition healing_end : @state healing Betty.event := snd healing_run.

(** *** A JavaScript project with a failing test

    [npm test] exits with 1 and prints an assertion error; the last two
    test patterns both match the line. *)
Definition assertion_output : string := "AssertionError: expected 1 to equal 2" +:+ nl.

Definition red : script :=
  {| existing := ["/home/jarvis/projects/Betty/package.json"];
     commands := [ ("npm test", Ok (CompletedProcess 1 assertion_output EmptyString)) ];
     found :=
       [ ("AssertionError:\s+(.+)", assertion_output, [["expected 1 to equal 2"]]);
         ("Error:\s+(.+)", assertion_output, [["expected 1 to equal 2"]]) ];
     readable := [] |}.

Definition failed_assertion : Betty.failure :=
  Betty.test_failure "npm test" ["expected 1 to equal 2"].

Definition red_run : outcome Betty.run_locals * @state (scripted red) Betty.event :=
  Betty.comprehensive_test_body (H := scripted red) (Ok idle_session) (start red).

Definition red_locals : Betty.run_locals := default no_locals (returned red_run).
Definition red_end : @state (scripted red) Betty.event := snd red_run.

(** *** A machine with files

    A host whose world is the content of its files, the last write
    first.  A file is read in text mode, so that the text read has
    newlines for all ends of lines, and written as the text is.  Every
    command exits with 0 and prints nothing, and the [re] engine finds
    nothing. *)
Definition disk : Host :=
  {| World := list (string * string);
     subprocess_run _ _ w := (Ok silent, w);
     path_exists p w := Ok (bool_decide (is_Some (lookup_str p w)));
     rglob _ _ _ := Ok [];
     file_read p w :=
       (match lookup_str p w with
        | Some content => Ok (universal_newlines content)
        | None => Raise (OtherError "FileNotFoundError")
        end, w);
     file_write p text w := (Ok tt, (p, text) :: w);
     json_write _ w := (Ok tt, w);
     now_isoformat _ := "2025-01-01T00:00:00";
     now_stamp _ := "20250101_000000";
     import_requests w := (Ok tt, w);
     requests_post _ w := (Ok tt, w);
     re_findall _ _ := [];
     re_search _ _ := None;
     repr_tuple l :=
       "(" +:+ String.concat ", " (map (fun x => "'" +:+ x +:+ "'") l) +:+ ")" |}.

Definition on_disk (files : list (string * string)) : @state disk Betty.event :=
  @State disk Betty.event files [].

(** A JavaScript file whose first line lacks its semicolon, and the
    failure that names the line. *)
Definition app_js : string := "let x = 1" +:+ nl +:+ "let y = 2;" +:+ nl.
Definition app_js_fixed : string := "let x = 1;" +:+ nl +:+ "let y = 2;" +:+ nl.

Definition missing_semicolon : Betty.failure :=
  <[ "type" := VStr "syntax_error" ]>
  (<[ "file" := VStr "app.js" ]>
  (<[ "line" := VStr "1" ]>
  (<[ "fixable" := VBool true ]> ∅))).

(** A Python file whose block is not indented, and the failure that
    names the line of the colon. *)
Definition main_py : string := "if ready:" +:+ nl +:+ "run()" +:+ nl.
Definition main_py_fixed : string := "if ready:" +:+ nl +:+ "    run()" +:+ nl.

Definition missing_indent : Betty.failure :=
  <[ "type" := VStr "syntax_error" ]>
  (<[ "file" := VStr "main.py" ]>
  (<[ "line" := VStr "1" ]>
  (<[ "fixable" := VBool true ]> ∅))).



Definition implicit_any : Betty.failure :=
  <[ "type" := VStr "type_error" ]>
  (<[ "file" := VStr "util.ts" ]>
  (<[ "line" := VStr "1" ]>
  (<[ "message" := VStr "Parameter 'x' implicitly has an 'any' type." ]>
  (<[ "fixable" := VBool true ]> ∅)))).

(** A component that uses React without importing it. *)
Definition app_jsx : string := "export const App = () => <div/>;" +:+ nl.
Definition app_jsx_fixed : string := "import React from 'react';" +:+ nl +:+ app_jsx.

(** *** Projects whose issues reach the other fixers

    A JavaScript project whose type check fails, a Python project whose
    type check fails, and a Docker project whose build stops at its
    YAML. *)
Definition type_pattern : string := "(.+?):(\d+):\s+error:\s+(.+)".

Definition tsc_output : string :=
  "util.ts:1: error: Parameter 'x' implicitly has an 'any' type." +:+ nl.

Definition untyped : script :=
  {| existing := ["/home/jarvis/projects/Betty/package.json"];
     commands :=
       [ ("npm run type-check", Ok (CompletedProcess 1 tsc_output EmptyString)) ];
     found :=
       [ (type_pattern, tsc_output,
          [["util.ts"; "1"; "Parameter 'x' implicitly has an 'any' type."]]) ];
     readable := [] |}.

Definition untyped_parameter : Betty.failure :=
  Betty.type_error "npm run type-check"
    ["util.ts"; "1"; "Parameter 'x' implicitly has an 'any' type."].

Definition mypy_output : string :=
  "main.py:3: error: Incompatible types in assignment" +:+ nl.

Definition mistyped : script :=
  {| existing := ["/home/jarvis/projects/Betty/requirements.txt"];
     commands := [ ("mypy .", Ok (CompletedProcess 1 mypy_output EmptyString)) ];
     found :=
       [ (type_pattern, mypy_output,
          [["main.py"; "3"; "Incompatible types in assignment"]]) ];
     readable := [] |}.

Definition mistyped_assignment : Betty.failure :=
  Betty.type_error "mypy ." ["main.py"; "3"; "Incompatible types in assignment"].

Definition compose_output : string :=
  "yaml: line 3: mapping values are not allowed in this context" +:+ nl.

Definition miscomposed : script :=
  {| existing := ["/home/jarvis/projects/Betty/docker-compose.yml"];
     commands :=
       [ ("docker-compose build", Ok (CompletedProcess 1 EmptyString compose_output)) ];
     found := [];
     readable := [] |}.

Definition broken_yaml : Betty.failure := Betty.yaml_error "docker-compose build".

(** The project type detected on a scripted host, and the first pass for
    it. *)
Definition detected (s : script) : outcome string * @state (scripted s) Betty.event :=
  Betty.detect_project_type (H := scripted s) (start s).

Definition first_pass (s : script) (ptype : string)
    : outcome Betty.test_results * @state (scripted s) Betty.event :=
  Betty.run_all_tests (H := scripted s) ptype [] (start s).

Definition first_failures (s : script) (ptype : string) : list Betty.failure :=
  Betty.failures (default no_results (returned (first_pass s ptype))).

(** *** The pass of the gate on the repository with uncommitted changes *)
Definition dirty_pass (n : nat)
    : outcome (list Guardian.issue) * @state (scripted (dirty n)) Guardian.event :=
  Guardian.run_checks (H := scripted (dirty n))
    (@State (scripted (dirty n)) Guardian.event [] [Guardian.Stderr Guardian.MsgChecking]).

Definition dirty_issues (n : nat) : list Guardian.issue :=
  default [] (returned (dirty_pass n)).

End Script.

(** * Properties *)

(** ** Rules for specifications *)

Module RtFacts.
Import Py Rt.

Section Rules.
Context `{Host} {E : Type}.

Abbreviation M := (Rt.M E).

Lemma spec_ret {A} (a : A) (R : outcome A -> list E -> Prop) :
  R (Ok a) [] -> spec (ret a) R.
Proof.
  intros HR st o st' Hrun. inversion Hrun; subst.
  exists []. by rewrite app_nil_r.
Qed.

Lemma spec_raise {A} (e : py_exn) (R : outcome A -> list E -> Prop) :
  R (Raise e) [] -> spec (raise e) R.
Proof.
  intros HR st o st' Hrun. inversion Hrun; subst.
  exists []. by rewrite app_nil_r.
Qed.

Lemma spec_lift {A} (o : outcome A) (R : outcome A -> list E -> Prop) :
  R o [] -> spec (lift o) R.
Proof. destruct o; [apply spec_ret | apply spec_raise]. Qed.

Lemma spec_host {A} (op : World -> outcome A * World)
    (R : outcome A -> list E -> Prop) :
  (forall o, R o []) -> spec (host op) R.
Proof.
  intros HR st o st' Hrun. unfold host in Hrun.
  destruct (op (world st)) as [o1 w]. inversion Hrun; subst.
  exists []. by rewrite app_nil_r.
Qed.

Lemma spec_ask {A} (q : World -> A) (R : outcome A -> list E -> Prop) :
  (forall a, R (Ok a) []) -> spec (ask q) R.
Proof.
  intros HR st o st' Hrun. inversion Hrun; subst.
  exists []. by rewrite app_nil_r.
Qed.

Lemma spec_query {A} (q : World -> outcome A) (R : outcome A -> list E -> Prop) :
  (forall o, R o []) -> spec (query q) R.
Proof.
  intros HR st o st' Hrun. inversion Hrun; subst.
  exists []. by rewrite app_nil_r.
Qed.

Lemma spec_emit (e : E) (R : outcome unit -> list E -> Prop) :
  R (Ok tt) [e] -> spec (emit e) R.
Proof.
  intros HR st o st' Hrun. inversion Hrun; subst. by exists [e].
Qed.

(** Sequencing: the events of the two parts are appended. *)
Lemma spec_bind {A B} (m : M A) (k : A -> M B)
    (R1 : outcome A -> list E -> Prop) (R : outcome B -> list E -> Prop) :
  spec m R1 ->
  (forall e evs, R1 (Raise e) evs -> R (Raise e) evs) ->
  (forall a evs1, R1 (Ok a) evs1 -> spec (k a) (fun o evs2 => R o (evs1 ++ evs2))) ->
  spec (bind m k) R.
Proof.
  intros Hm Hraise Hk st o st' Hrun. unfold bind in Hrun.
  destruct (m st) as [[a|e] st1] eqn:Em.
  - destruct (Hm _ _ _ Em) as (evs1 & Ht1 & HR1).
    destruct (Hk _ _ HR1 _ _ _ Hrun) as (evs2 & Ht2 & HR2).
    exists (evs1 ++ evs2). split; [|done].
    by rewrite Ht2, Ht1, app_assoc.
  - inversion Hrun; subst.
    destruct (Hm _ _ _ Em) as (evs1 & Ht1 & HR1). eauto.
Qed.

Lemma spec_try_except {A} (body : M A) (handler : py_exn -> M A)
    (R1 : outcome A -> list E -> Prop) (R : outcome A -> list E -> Prop) :
  spec body R1 ->
  (forall a evs, R1 (Ok a) evs -> R (Ok a) evs) ->
  (forall e evs1, R1 (Raise e) evs1 ->
     spec (handler e) (fun o evs2 => R o (evs1 ++ evs2))) ->
  spec (try_except body handler) R.
Proof.
  intros Hm Hok Hh st o st' Hrun. unfold try_except in Hrun.
  destruct (body st) as [[a|e] st1] eqn:Em.
  - inversion Hrun; subst.
    destruct (Hm _ _ _ Em) as (evs1 & Ht1 & HR1). eauto.
  - destruct (Hm _ _ _ Em) as (evs1 & Ht1 & HR1).
    destruct (Hh _ _ HR1 _ _ _ Hrun) as (evs2 & Ht2 & HR2).
    exists (evs1 ++ evs2). split; [|done].
    by rewrite Ht2, Ht1, app_assoc.
Qed.

Lemma spec_weaken {A} (m : M A) (R1 R : outcome A -> list E -> Prop) :
  spec m R1 -> (forall o evs, R1 o evs -> R o evs) -> spec m R.
Proof.
  intros Hm HR st o st' Hrun.
  destruct (Hm _ _ _ Hrun) as (evs & Ht & H1). eauto.
Qed.

(** A loop maintains an invariant over the items done so far, the loop
    variables and the events of the turns so far. *)
Lemma spec_for_each {A S} (xs : list A) (body : A -> S -> M S)
    (I : list A -> S -> list E -> Prop) (X : py_exn -> list E -> Prop)
    (pre : list A) (s : S) (evs0 : list E) :
  I pre s evs0 ->
  (forall x done s evs, I done s evs ->
     spec (body x s) (fun o evs' =>
       match o with
       | Ok s' => I (done ++ [x]) s' (evs ++ evs')
       | Raise e => X e (evs ++ evs')
       end)) ->
  spec (for_each xs body s) (fun o evs' =>
    match o with
    | Ok s' => I (pre ++ xs) s' (evs0 ++ evs')
    | Raise e => X e (evs0 ++ evs')
    end).
Proof.
  revert pre s evs0. induction xs as [|x xs IH]; intros pre s evs0 HI Hbody; simpl.
  - apply spec_ret. by rewrite !app_nil_r.
  - eapply spec_bind.
    + apply (Hbody x pre s evs0 HI).
    + intros e evs Hx. exact Hx.
    + intros s1 evs1 HI1. simpl in HI1.
      eapply spec_weaken.
      * apply (IH (pre ++ [x]) s1 (evs0 ++ evs1) HI1 Hbody).
      * intros [s'|e] evs2; simpl; rewrite <- ?app_assoc; simpl; by rewrite ?app_assoc.
Qed.

Lemma silent_spec {A} (m : M A) (R : outcome A -> list E -> Prop) :
  silent m -> (forall o, R o []) -> spec m R.
Proof.
  intros Hm HR. eapply spec_weaken; [exact Hm|].
  intros o evs ->. apply HR.
Qed.

Lemma silent_ret {A} (a : A) : silent (ret a : M A).
Proof. by apply spec_ret. Qed.

Lemma silent_raise {A} (e : py_exn) : silent (raise e : M A).
Proof. by apply spec_raise. Qed.

Lemma silent_lift {A} (o : outcome A) : silent (lift o : M A).
Proof. by apply spec_lift. Qed.

Lemma silent_host {A} (op : World -> outcome A * World) : silent (host op : M A).
Proof. by apply spec_host. Qed.

Lemma silent_ask {A} (q : World -> A) : silent (ask q : M A).
Proof. by apply spec_ask. Qed.

Lemma silent_query {A} (q : World -> outcome A) : silent (query q : M A).
Proof. by apply spec_query. Qed.

Lemma silent_bind {A B} (m : M A) (k : A -> M B) :
  silent m -> (forall a, silent (k a)) -> silent (bind m k).
Proof.
  intros Hm Hk. eapply spec_bind; [exact Hm | by intros e evs -> |].
  intros a evs1 ->. apply Hk.
Qed.

Lemma silent_try_except {A} (body : M A) (handler : py_exn -> M A) :
  silent body -> (forall e, silent (handler e)) -> silent (try_except body handler).
Proof.
  intros Hm Hh. eapply spec_try_except; [exact Hm | by intros a evs -> |].
  intros e evs1 ->. apply Hh.
Qed.

Lemma silent_of_option {A} (e : py_exn) (o : option A) : silent (of_option e o : M A).
Proof. destruct o; [apply silent_ret | apply silent_raise]. Qed.

Lemma silent_py_int (v : pyval) : silent (py_int v : M Z).
Proof.
  destruct v; simpl; try apply silent_ret; try apply silent_raise.
  case_match; [apply silent_ret | apply silent_raise].
Qed.

Lemma silent_py_in (needle : string) (v : pyval) : silent (py_in needle v : M bool).
Proof. destruct v; simpl; try apply silent_ret; apply silent_raise. Qed.

Lemma silent_py_slice_to (n : nat) (v : pyval) : silent (py_slice_to n v : M pyval).
Proof. destruct v; simpl; try apply silent_ret; apply silent_raise. Qed.

Lemma silent_open_read (path : pyval) : silent (open_read path : M string).
Proof. destruct path; simpl; try apply silent_raise. apply silent_host. Qed.

Lemma silent_open_write (path : pyval) (text : string) : silent (open_write path text : M unit).
Proof. destruct path; simpl; try apply silent_raise. apply silent_host. Qed.

Lemma silent_for_each {A S} (xs : list A) (body : A -> S -> M S) (s : S) :
  (forall x s, silent (body x s)) -> silent (for_each xs body s).
Proof.
  intros Hbody. revert s. induction xs as [|x xs IH]; intros s; simpl.
  - apply silent_ret.
  - apply silent_bind; [apply Hbody | apply IH].
Qed.

(** *** Computations that never raise *)

Lemma returns_ret {A} (a : A) : returns (ret a : M A).
Proof. intros st. by eexists _, _. Qed.

Lemma returns_ask {A} (q : World -> A) : returns (ask q : M A).
Proof. intros st. by eexists _, _. Qed.

Lemma returns_bind {A B} (m : M A) (k : A -> M B) :
  returns m -> (forall a, returns (k a)) -> returns (bind m k).
Proof.
  intros Hm Hk st. destruct (Hm st) as (a & st1 & Em).
  destruct (Hk a st1) as (b & st2 & Ek).
  exists b, st2. unfold bind. by rewrite Em.
Qed.

Lemma returns_try_except {A} (body : M A) (handler : py_exn -> M A) :
  (forall e, returns (handler e)) -> returns (try_except body handler).
Proof.
  intros Hh st. unfold try_except.
  destruct (body st) as [[a|e] st1]; [by eexists _, _ | apply Hh].
Qed.

Lemma returns_for_each {A S} (xs : list A) (body : A -> S -> M S) (s : S) :
  (forall x s, returns (body x s)) -> returns (for_each xs body s).
Proof.
  intros Hbody. revert s. induction xs as [|x xs IH]; intros s; simpl.
  - apply returns_ret.
  - apply returns_bind; [apply Hbody | apply IH].
Qed.

End Rules.

(** A closed decidable fact is settled by evaluating its decision. *)
Ltac decide_it :=
  match goal with
  | |- ?P => apply (bool_decide_eq_true_1 P); vm_compute; reflexivity
  end.

End RtFacts.

(** ** Loops *)

Module LoopFacts.
Import Py Rt RtFacts.

Section Loops.
Context `{Host} {E : Type}.

(** A loop that ends normally has kept every invariant that each of its
    turns keeps. *)
Lemma for_each_Ok_inv {A S} (body : A -> S -> Rt.M E S) (I : list A -> S -> Prop)
    (xs pre : list A) (s : S) st s' st' :
  (forall x done s st s' st',
     I done s -> body x s st = (Ok s', st') -> I (done ++ [x]) s') ->
  I pre s ->
  for_each xs body s st = (Ok s', st') ->
  I (pre ++ xs) s'.
Proof.
  intros Hbody. revert pre s st.
  induction xs as [|x xs IH]; intros pre s st HI Hrun; simpl in Hrun.
  - injection Hrun as <- <-. by rewrite app_nil_r.
  - unfold bind in Hrun. destruct (body x s st) as [[s1|e] st1] eqn:Ex; [|discriminate].
    replace (pre ++ x :: xs) with ((pre ++ [x]) ++ xs) by by rewrite <- app_assoc.
    eapply IH; [|exact Hrun]. eapply Hbody; [exact HI | exact Ex].
Qed.

(** A loop whose turns leave the state alone leaves the state alone. *)
Lemma for_each_pure {A S} (body : A -> S -> Rt.M E S) (xs : list A) (s : S) st o st' :
  (forall x s st o st', body x s st = (o, st') -> st' = st) ->
  for_each xs body s st = (o, st') -> st' = st.
Proof.
  intros Hbody. revert s. induction xs as [|x xs IH]; intros s Hrun; simpl in Hrun.
  - by injection Hrun as <- <-.
  - unfold bind in Hrun. destruct (body x s st) as [[s1|e] st1] eqn:Ex.
    + apply Hbody in Ex as ->. eapply IH, Hrun.
    + injection Hrun as <- <-. eapply Hbody, Ex.
Qed.

(** A loop whose turns all return returns. *)
Lemma for_each_Ok {A S} (body : A -> S -> Rt.M E S) (xs : list A) (s : S) st :
  (forall x, x ∈ xs -> forall s, exists s', body x s st = (Ok s', st)) ->
  exists s', for_each xs body s st = (Ok s', st).
Proof.
  revert s. induction xs as [|x xs IH]; intros s Hbody; simpl.
  - by eexists.
  - destruct (Hbody x (list_elem_of_here _ _) s) as (s1 & Hx).
    destruct (IH s1) as (s' & Hrest).
    { intros y Hy. apply Hbody. by apply list_elem_of_further. }
    exists s'. unfold bind. by rewrite Hx.
Qed.

End Loops.
End LoopFacts.

(** ** The remediation engine *)

Module BettyFacts.
Import Py Rt RtFacts Betty.
Local Open Scope py_scope.

Section Engine.
Context `{Host}.

(** *** The stage runner *)

Lemma run_command_run (command : string) (st : state event) :
  run_command command st =
  let '(o, w) := subprocess_run command (Some 60%nat) (world st) in
  (Ok match o with
      | Ok p => {| success := returncode p =? 0;
                   output := proc_stdout p +:+ proc_stderr p;
                   cmd_returncode := returncode p |}
      | Raise (TimeoutExpired _) =>
          {| success := false;
             output := "Command timed out after 60 seconds";
             cmd_returncode := -1 |}
      | Raise (OtherError msg) =>
          {| success := false; output := msg; cmd_returncode := -1 |}
      end,
   State w (trace st)).
Proof.
  unfold run_command, try_except, bind, host, ret.
  destruct (subprocess_run command (Some 60%nat) (world st)) as [[p|[msg|msg]] w];
    reflexivity.
Qed.

Lemma run_command_silent (command : string) : silent (run_command command).
Proof.
  intros st o st' Hrun. rewrite run_command_run in Hrun.
  destruct (subprocess_run _ _ _) as [o1 w]. inversion Hrun; subst; simpl.
  exists []. by rewrite app_nil_r.
Qed.

Lemma run_command_returns (command : string) : returns (run_command command).
Proof.
  intros st. rewrite run_command_run.
  destruct (subprocess_run _ _ _) as [o1 w]. eauto.
Qed.

(** C4.  The stage runner never raises to its caller.  Whatever the
    command does, [run_command] returns a result: on a timeout the
    result has [success = False], return code [-1] and the output
    "Command timed out after 60 seconds"; when the launch fails
    otherwise, it has [success = False], return code [-1] and the
    message of the error as output. *)
Theorem stage_runner_never_raises (command : string) (st : state event) :
  exists r st',
    run_command command st = (Ok r, st') /\
    trace st' = trace st /\
    match fst (subprocess_run command (Some 60%nat) (world st)) with
    | Ok p =>
        r = {| success := returncode p =? 0;
               output := proc_stdout p +:+ proc_stderr p;
               cmd_returncode := returncode p |}
    | Raise (TimeoutExpired _) =>
        r = {| success := false;
               output := "Command timed out after 60 seconds";
               cmd_returncode := -1 |}
    | Raise (OtherError msg) =>
        r = {| success := false; output := msg; cmd_returncode := -1 |}
    end.
Proof.
  rewrite run_command_run.
  destruct (subprocess_run command (Some 60%nat) (world st)) as [o w]; simpl.
  eexists _, _. split; [reflexivity|]. split; [reflexivity|].
  destruct o as [p|[msg|msg]]; reflexivity.
Qed.

(** *** The failure classifier *)

Lemma length_take_le {A} (n : nat) (l : list A) : (List.length (take n l) <= n)%nat.
Proof. rewrite length_take. lia. Qed.

(** The issues that a parser makes of the matches of its patterns: each
    comes from a match of one of the patterns, and no match is dropped
    as long as there are at most ten in all. *)
Lemma parsed_matches {A} (make : list string -> A) (patterns : list string)
    (output : string) :
  let parsed :=
    take 10 (flat_map (fun pattern => map make (re_findall pattern output)) patterns) in
  (forall x, x ∈ parsed ->
     exists pattern m,
       pattern ∈ patterns /\ m ∈ re_findall pattern output /\ x = make m) /\
  ((List.length (flat_map (fun pattern => re_findall pattern output) patterns) <= 10)%nat ->
   forall pattern m,
     pattern ∈ patterns -> m ∈ re_findall pattern output -> make m ∈ parsed).
Proof.
  intros parsed. split.
  - intros x Hx.
    assert (Hin : x ∈ flat_map (fun pattern => map make (re_findall pattern output))
                        patterns).
    { eapply elem_of_sublist; [exact Hx | apply sublist_take]. }
    apply list_elem_of_In, in_flat_map in Hin as (pattern & Hp & Hin).
    apply in_map_iff in Hin as (m & <- & Hm).
    exists pattern, m. split; [by apply list_elem_of_In|].
    split; [by apply list_elem_of_In | done].
  - intros Hlen pattern m Hp Hm. unfold parsed. rewrite take_ge.
    + apply list_elem_of_In, in_flat_map. exists pattern.
      split; [by apply list_elem_of_In|]. apply in_map. by apply list_elem_of_In.
    + etransitivity; [|exact Hlen]. clear. induction patterns as [|p ps IH]; simpl; [done|].
      rewrite !length_app, length_map. lia.
Qed.

(** C5.  For a failed stage the classifier applies every pattern of the
    stage's kind, in the order of the list, to the whole output; the
    matches of all the patterns are concatenated, each turned into an
    issue, and the first ten are kept.  So every issue comes from a match
    of one of the patterns and carries the type of the stage, the command
    and [fixable]; no match of any pattern is dropped as long as the
    patterns have at most ten matches together; and no stage yields more
    than ten issues.  The classifier of a build knows one rule: it yields
    one YAML error when the command names Docker and the output names
    YAML, and nothing otherwise.  The issues of a stage that failed are
    appended to the failures of the pass. *)
Theorem classifier_applies_all_patterns (output command : string) :
  (parse_test_failures output command =
     take 10 (map (test_failure command)
                (re_findall "FAIL\s+(.+?)\.(.+?)\s" output ++
                 re_findall "FAILED\s+(.+?)::(.+?)\s" output ++
                 re_findall "AssertionError:\s+(.+)" output ++
                 re_findall "Error:\s+(.+)" output)) /\
   parse_lint_failures output command =
     take 10 (map (lint_error command)
                (re_findall "(.+?):(\d+):(\d+):\s+error:\s+(.+)" output ++
                 re_findall "(.+?):(\d+):(\d+):\s+(.+)" output)) /\
   parse_type_failures output command =
     take 10 (map (type_error command)
                (re_findall "(.+?):(\d+):\s+error:\s+(.+)" output ++
                 re_findall "(.+?):(\d+):\s+error:\s+(.+)" output)) /\
   parse_build_failures output command =
     (if contains "docker" (lower command)
         && (contains "yaml" (lower output) || contains "yml" (lower output))
      then [yaml_error command] else [])) /\
  ((List.length (parse_test_failures output command) <= 10)%nat /\
   (List.length (parse_lint_failures output command) <= 10)%nat /\
   (List.length (parse_type_failures output command) <= 10)%nat /\
   (List.length (parse_build_failures output command) <= 10)%nat) /\
  ((forall f, f ∈ parse_test_failures output command ->
      exists pattern m,
        pattern ∈ test_patterns /\ m ∈ re_findall pattern output /\
        f = test_failure command m /\
        get f "type" = VStr "test_failure" /\ get f "command" = VStr command /\
        get f "details" = match_value m /\ fixable f = true) /\
   (forall f, f ∈ parse_lint_failures output command ->
      exists pattern m,
        pattern ∈ lint_patterns /\ m ∈ re_findall pattern output /\
        f = lint_error command m /\
        get f "type" = VStr "lint_error" /\ get f "command" = VStr command /\
        get f "file" = group 0 m /\ get f "line" = group 1 m /\
        get f "message" = last_group m /\ fixable f = true) /\
   (forall f, f ∈ parse_type_failures output command ->
      exists pattern m,
        pattern ∈ type_patterns /\ m ∈ re_findall pattern output /\
        f = type_error command m /\
        get f "type" = VStr "type_error" /\ get f "command" = VStr command /\
        get f "file" = group 0 m /\ get f "line" = group 1 m /\
        get f "message" = group 2 m /\ fixable f = true) /\
   (forall f, f ∈ parse_build_failures output command ->
      f = yaml_error command /\
      get f "type" = VStr "yaml_error" /\ get f "command" = VStr command /\
      fixable f = true)) /\
  (((List.length (flat_map (fun pattern => re_findall pattern output) test_patterns)
       <= 10)%nat ->
    forall pattern m,
      pattern ∈ test_patterns -> m ∈ re_findall pattern output ->
      test_failure command m ∈ parse_test_failures output command) /\
   ((List.length (flat_map (fun pattern => re_findall pattern output) lint_patterns)
       <= 10)%nat ->
    forall pattern m,
      pattern ∈ lint_patterns -> m ∈ re_findall pattern output ->
      lint_error command m ∈ parse_lint_failures output command) /\
   ((List.length (flat_map (fun pattern => re_findall pattern output) type_patterns)
       <= 10)%nat ->
    forall pattern m,
      pattern ∈ type_patterns -> m ∈ re_findall pattern output ->
      type_error command m ∈ parse_type_failures output command)) /\
  (forall kind (parse : string -> string -> list failure) results st r st',
     run_command command st = (Ok r, st') ->
     success r = false ->
     exists results',
       run_stage kind parse command results st = (Ok results', st') /\
       failures results' = failures results ++ parse (Betty.output r) command).
Proof.
  split; [|split; [|split; [|split]]].
  - unfold parse_test_failures, parse_lint_failures, parse_type_failures,
      parse_build_failures.
    repeat split.
    + simpl. by rewrite app_nil_r, !map_app.
    + simpl. by rewrite app_nil_r, !map_app.
    + simpl. by rewrite app_nil_r, !map_app.
    + by destruct (contains "docker" (lower command)).
  - repeat split; try apply length_take_le.
    unfold parse_build_failures. repeat case_match; simpl; lia.
  - split; [|split; [|split]].
    + intros f Hf.
      apply (proj1 (parsed_matches (test_failure command) test_patterns output))
        in Hf as (pattern & m & Hp & Hm & ->).
      exists pattern, m. by repeat split.
    + intros f Hf.
      apply (proj1 (parsed_matches (lint_error command) lint_patterns output))
        in Hf as (pattern & m & Hp & Hm & ->).
      exists pattern, m. by repeat split.
    + intros f Hf.
      apply (proj1 (parsed_matches (type_error command) type_patterns output))
        in Hf as (pattern & m & Hp & Hm & ->).
      exists pattern, m. by repeat split.
    + intros f Hf. unfold parse_build_failures in Hf.
      repeat case_match; try (by apply elem_of_nil in Hf).
      apply list_elem_of_singleton in Hf. subst f. by repeat split.
  - split; [|split].
    + apply (proj2 (parsed_matches (test_failure command) test_patterns output)).
    + apply (proj2 (parsed_matches (lint_error command) lint_patterns output)).
    + apply (proj2 (parsed_matches (type_error command) type_patterns output)).
  - intros kind parse results st r st' Hrun Hfail.
    unfold run_stage, bind. rewrite Hrun, Hfail. simpl.
    eexists. split; reflexivity.
Qed.

(** *** One verification pass *)

(** C3.  A stage that succeeded yields no issue, whatever its output:
    [run_stage] records the command among the tests run and leaves the
    list of failures as it was, without consulting the parser. *)
Theorem passing_stage_yields_no_issue (kind : string)
    (parse : string -> string -> list failure) (cmd : string)
    (results : test_results) (st st' : state event) (r : cmd_result) :
  run_command cmd st = (Ok r, st') ->
  success r = true ->
  exists results',
    run_stage kind parse cmd results st = (Ok results', st') /\
    failures results' = failures results /\
    tests_run results' =
      tests_run results ++
      [ {| tr_command := cmd; tr_type := kind; tr_success := true;
           tr_output := take_str 1000 (output r) |} ].
Proof.
  intros Hrun Hsucc. unfold run_stage, bind. rewrite Hrun, Hsucc. simpl.
  eexists. split; [reflexivity|]. split; reflexivity.
Qed.

Lemma run_stage_silent kind parse cmd results : silent (run_stage kind parse cmd results).
Proof.
  unfold run_stage. apply silent_bind; [apply run_command_silent|].
  intros r. destruct (negb (success r)); apply silent_ret.
Qed.

Lemma run_stage_returns kind parse cmd results : returns (run_stage kind parse cmd results).
Proof.
  unfold run_stage. apply returns_bind; [apply run_command_returns|].
  intros r. destruct (negb (success r)); apply returns_ret.
Qed.

Lemma run_stages_silent cfg ptype changed : silent (run_stages cfg ptype changed).
Proof.
  unfold run_stages.
  repeat (apply silent_bind;
          [first [apply silent_ask | apply silent_for_each; intros; apply run_stage_silent]
          | intros ?]).
  apply silent_ret.
Qed.

Lemma run_stages_returns cfg ptype changed : returns (run_stages cfg ptype changed).
Proof.
  unfold run_stages.
  repeat (apply returns_bind;
          [first [apply returns_ask | apply returns_for_each; intros; apply run_stage_returns]
          | intros ?]).
  apply returns_ret.
Qed.

(** [has_failures] says whether the list of failures is non-empty. *)
Lemma run_stages_has_failures cfg ptype changed st r st' :
  run_stages cfg ptype changed st = (Ok r, st') ->
  has_failures r = (0 <? len (failures r)).
Proof.
  unfold run_stages, bind. intros Hrun.
  repeat (match type of Hrun with
          | context [match ?m ?s with _ => _ end] =>
              destruct (m s) as [[?|?] ?]; [|discriminate]
          end).
  inversion Hrun; subst. reflexivity.
Qed.

(** A verification pass leaves no event, never raises, and sets
    [has_failures] when it found a failure. *)
Lemma run_all_tests_spec ptype changed (R : outcome test_results -> list event -> Prop) :
  (forall r, has_failures r = (0 <? len (failures r)) -> R (Ok r) []) ->
  spec (run_all_tests ptype changed) R.
Proof.
  intros HR st o st' Hrun. unfold run_all_tests in *.
  destruct (run_stages_returns (config_of ptype) ptype changed st) as (r & st1 & Er).
  destruct (run_stages_silent (config_of ptype) ptype changed _ _ _ Hrun) as (evs & Ht & ->).
  rewrite Er in Hrun. inversion Hrun; subst.
  exists []. split; [done|]. apply HR. eapply run_stages_has_failures, Er.
Qed.

Lemma detect_project_type_silent : silent detect_project_type.
Proof.
  unfold detect_project_type, exists_in_project.
  repeat first
    [ apply silent_ret | apply silent_query
    | apply silent_bind; [|intros ?]
    | match goal with |- silent (if ?b then _ else _) => destruct b end ].
Qed.

(** *** The fixers *)

Lemma guarded_silent body : silent body -> silent (guarded body).
Proof. intros Hb. apply silent_try_except; [done|]. intros e. apply silent_ret. Qed.

Lemma guarded_returns body : returns (guarded body).
Proof. apply returns_try_except. intros e. apply returns_ret. Qed.

(** A fixer whose body raises answers [False]. *)
Lemma guarded_raise body st e st' :
  body st = (Raise e, st') -> guarded body st = (Ok false, st').
Proof. intros Hb. unfold guarded, try_except. by rewrite Hb. Qed.

Ltac silence :=
  repeat first
    [ apply silent_ret | apply silent_raise | apply silent_ask | apply silent_host
    | apply silent_of_option | apply silent_py_int | apply silent_py_in
    | apply silent_py_slice_to | apply silent_open_read | apply silent_open_write
    | apply run_command_silent
    | apply silent_bind; [|intros ?]
    | match goal with
      | |- silent (if ?b then _ else _) => destruct b
      | |- silent (match ?o with _ => _ end) => destruct o
      end ].

Lemma fix_missing_import_js_body_silent f : silent (fix_missing_import_js_body f).
Proof. unfold fix_missing_import_js_body. silence. Qed.

Lemma fix_syntax_error_js_body_silent f : silent (fix_syntax_error_js_body f).
Proof. unfold fix_syntax_error_js_body. silence. Qed.

Lemma fix_type_error_ts_body_silent f : silent (fix_type_error_ts_body f).
Proof. unfold fix_type_error_ts_body. silence. Qed.

Lemma fix_lint_error_js_body_silent f : silent (fix_lint_error_js_body f).
Proof. unfold fix_lint_error_js_body. silence. Qed.

Lemma fix_import_error_py_body_silent f : silent (fix_import_error_py_body f).
Proof. unfold fix_import_error_py_body, py_re_search. silence. Qed.

Lemma fix_syntax_error_py_body_silent f : silent (fix_syntax_error_py_body f).
Proof. unfold fix_syntax_error_py_body. silence. Qed.

Lemma fix_indentation_error_py_body_silent f : silent (fix_indentation_error_py_body f).
Proof. unfold fix_indentation_error_py_body. silence. Qed.

Lemma fix_yaml_error_body_silent f : silent (fix_yaml_error_body f).
Proof. unfold fix_yaml_error_body. silence. Qed.

Lemma first_success_silent commands : silent (first_success commands).
Proof. induction commands as [|cmd rest IH]; simpl; silence. exact IH. Qed.

Lemma first_success_returns commands : returns (first_success commands).
Proof.
  induction commands as [|cmd rest IH]; simpl; [apply returns_ret|].
  apply returns_bind; [apply run_command_returns|].
  intros r. destruct (success r); [apply returns_ret | exact IH].
Qed.

Lemma attempt_generic_fix_silent f : silent (attempt_generic_fix f).
Proof.
  unfold attempt_generic_fix. case_bool_decide; [apply first_success_silent | apply silent_ret].
Qed.

Lemma attempt_generic_fix_returns f : returns (attempt_generic_fix f).
Proof.
  unfold attempt_generic_fix. case_bool_decide; [apply first_success_returns | apply returns_ret].
Qed.

(** The fixers registered for a project type, by name. *)
Lemma registered_fixers ptype name fixer :
  common_fixes (config_of ptype) !! name = Some fixer ->
  fixer = fix_missing_import_js \/ fixer = fix_syntax_error_js \/
  fixer = fix_type_error_ts \/ fixer = fix_lint_error_js \/
  fixer = fix_import_error_py \/ fixer = fix_syntax_error_py \/
  fixer = fix_indentation_error_py \/ fixer = fix_type_error_py \/
  fixer = fix_yaml_error \/ fixer = fix_dockerfile_error.
Proof.
  unfold config_of, test_configs. intros Hlook.
  destruct (decide (ptype = "javascript")) as [->|Hjs].
  { rewrite lookup_insert_eq in Hlook. simpl in Hlook.
    repeat (apply lookup_insert_Some in Hlook as [[_ <-]|[_ Hlook]]; [tauto|]).
    by rewrite lookup_empty in Hlook. }
  rewrite lookup_insert_ne in Hlook by done.
  destruct (decide (ptype = "python")) as [->|Hpy].
  { rewrite lookup_insert_eq in Hlook. simpl in Hlook.
    repeat (apply lookup_insert_Some in Hlook as [[_ <-]|[_ Hlook]]; [tauto|]).
    by rewrite lookup_empty in Hlook. }
  rewrite lookup_insert_ne in Hlook by done.
  destruct (decide (ptype = "docker")) as [->|Hdk].
  { rewrite lookup_insert_eq in Hlook. simpl in Hlook.
    repeat (apply lookup_insert_Some in Hlook as [[_ <-]|[_ Hlook]]; [tauto|]).
    by rewrite lookup_empty in Hlook. }
  rewrite lookup_insert_ne in Hlook by done.
  rewrite lookup_empty in Hlook. simpl in Hlook. by rewrite lookup_empty in Hlook.
Qed.

Lemma registered_fixer_silent ptype name fixer f :
  common_fixes (config_of ptype) !! name = Some fixer -> silent (fixer f).
Proof.
  intros Hlook. apply registered_fixers in Hlook.
  destruct Hlook as [->|[->|[->|[->|[->|[->|[->|[->|[->| ->]]]]]]]]].
  - apply guarded_silent, fix_missing_import_js_body_silent.
  - apply guarded_silent, fix_syntax_error_js_body_silent.
  - apply guarded_silent, fix_type_error_ts_body_silent.
  - apply guarded_silent, fix_lint_error_js_body_silent.
  - apply guarded_silent, fix_import_error_py_body_silent.
  - apply guarded_silent, fix_syntax_error_py_body_silent.
  - apply guarded_silent, fix_indentation_error_py_body_silent.
  - apply silent_ret.
  - apply guarded_silent, fix_yaml_error_body_silent.
  - apply silent_ret.
Qed.

Lemma registered_fixer_returns ptype name fixer f :
  common_fixes (config_of ptype) !! name = Some fixer -> returns (fixer f).
Proof.
  intros Hlook. apply registered_fixers in Hlook.
  destruct Hlook as [->|[->|[->|[->|[->|[->|[->|[->|[->| ->]]]]]]]]];
    first [apply guarded_returns | apply returns_ret].
Qed.

(** C9.  A fixer that raises is taken to have answered [False], and the
    exception goes no further.  Every registered fixer whose body can
    raise runs it under [try ... except: return False]: when the body
    raises, the fixer returns [False] in the state the body left; so no
    registered fixer, and no generic fix, ever raises into the loop of
    [attempt_fixes], which then records the failure as failed. *)
Theorem strategy_errors_are_recovered :
  (forall (body : Betty.M bool) st e st',
     body st = (Raise e, st') -> guarded body st = (Ok false, st')) /\
  (forall f st e st',
     fix_missing_import_js_body f st = (Raise e, st') ->
     fix_missing_import_js f st = (Ok false, st')) /\
  (forall f st e st',
     fix_import_error_py_body f st = (Raise e, st') ->
     fix_import_error_py f st = (Ok false, st')) /\
  (forall ptype name fixer f st,
     common_fixes (config_of ptype) !! name = Some fixer ->
     exists b st', fixer f st = (Ok b, st')) /\
  (forall f st, exists b st', attempt_generic_fix f st = (Ok b, st')) /\
  (forall fixers name (body : failure -> Betty.M bool) f r st e st',
     fixable f = true ->
     get f "type" = VStr name ->
     fixers !! name = Some (fun f => guarded (body f)) ->
     body f st = (Raise e, st') ->
     attempt_fix fixers f r st =
     (log_fix f "failed" ;; ret (record_failed f (count_attempt r))) st').
Proof.
  repeat split.
  - intros body st e st'. apply guarded_raise.
  - intros f st e st'. apply guarded_raise.
  - intros f st e st'. apply guarded_raise.
  - intros ptype name fixer f st Hlook.
    apply (registered_fixer_returns _ _ _ f Hlook st).
  - intros f st. apply attempt_generic_fix_returns.
  - intros fixers name body f r st e st' Hfix Htype Hlook Hraise.
    unfold attempt_fix. rewrite Hfix, Htype. simpl. rewrite Hlook.
    unfold bind at 1. by rewrite (guarded_raise _ _ _ _ Hraise).
Qed.

(** *** One round of fixes *)

Lemma quiet_nil : quiet [].
Proof. constructor. Qed.

Lemma quiet_app evs1 evs2 : quiet evs1 -> quiet evs2 -> quiet (evs1 ++ evs2).
Proof. apply Forall_app_2. Qed.

Lemma fix_rounds_app evs1 evs2 :
  fix_rounds (evs1 ++ evs2) = (fix_rounds evs1 + fix_rounds evs2)%nat.
Proof. unfold fix_rounds. by rewrite List.filter_app, length_app. Qed.

Lemma reverifications_app evs1 evs2 :
  reverifications (evs1 ++ evs2) = (reverifications evs1 + reverifications evs2)%nat.
Proof. unfold reverifications. by rewrite List.filter_app, length_app. Qed.

Lemma quiet_fix_rounds evs : quiet evs -> fix_rounds evs = 0%nat.
Proof.
  induction 1 as [|e evs He _ IH]; [done|].
  change (e :: evs) with ([e] ++ evs). rewrite fix_rounds_app, IH.
  by destruct e as [[]| | |].
Qed.

Lemma quiet_reverifications evs : quiet evs -> reverifications evs = 0%nat.
Proof.
  induction 1 as [|e evs He _ IH]; [done|].
  change (e :: evs) with ([e] ++ evs). rewrite reverifications_app, IH.
  by destruct e as [[]| | |].
Qed.

Lemma log_fix_spec f status :
  spec (log_fix f status) (fun _ evs => quiet evs).
Proof.
  unfold log_fix.
  eapply spec_bind; [apply silent_ask | intros e evs ->; apply quiet_nil |].
  intros now evs0 ->. eapply spec_bind; [apply silent_host | |].
  - intros e evs ->. apply quiet_nil.
  - intros [] evs1 ->. apply spec_emit. simpl. by repeat constructor.
Qed.

Lemma ledger_init : ledger [] fix_results_init.
Proof.
  split; [done|]. split; [done|]. split; [done|].
  split; intros g Hg; by apply elem_of_nil in Hg.
Qed.

Lemma len_app {A} (l1 l2 : list A) : len (l1 ++ l2) = len l1 + len l2.
Proof. unfold len. rewrite length_app. lia. Qed.

Lemma ledger_skip done f r :
  fixable f = false -> ledger done r -> ledger (done ++ [f]) r.
Proof.
  intros Hf (Hc & Ha & Hd & Hfi & Hfa).
  split; [done|]. split; [done|]. split.
  { rewrite List.filter_app. simpl. by rewrite Hf, app_nil_r. }
  split; intros g Hg.
  - destruct (Hfi g Hg). split; [apply elem_of_app; by left | done].
  - destruct (Hfa g Hg). split; [apply elem_of_app; by left | done].
Qed.

Lemma ledger_fixed done f r :
  fixable f = true -> ledger done r ->
  ledger (done ++ [f]) (record_fixed f (count_attempt r)).
Proof.
  intros Hf (Hc & Ha & Hd & Hfi & Hfa). unfold ledger. simpl.
  rewrite List.filter_app, !len_app. simpl. rewrite Hf.
  split; [unfold len in *; simpl; lia|].
  split; [unfold len in *; simpl; lia|].
  split; [unfold len in *; simpl; lia|].
  split; intros g Hg.
  - apply elem_of_app in Hg as [Hin|Hin].
    + destruct (Hfi g Hin). split; [apply elem_of_app; by left | done].
    + apply list_elem_of_singleton in Hin. subst.
      split; [apply elem_of_app; right; by apply list_elem_of_singleton | done].
  - destruct (Hfa g Hg). split; [apply elem_of_app; by left | done].
Qed.

Lemma ledger_failed done f r :
  fixable f = true -> ledger done r ->
  ledger (done ++ [f]) (record_failed f (count_attempt r)).
Proof.
  intros Hf (Hc & Ha & Hd & Hfi & Hfa). unfold ledger. simpl.
  rewrite List.filter_app, !len_app. simpl. rewrite Hf.
  split; [unfold len in *; simpl; lia|].
  split; [unfold len in *; simpl; lia|].
  split; [unfold len in *; simpl; lia|].
  split; intros g Hg.
  - destruct (Hfi g Hg). split; [apply elem_of_app; by left | done].
  - apply elem_of_app in Hg as [Hin|Hin].
    + destruct (Hfa g Hin). split; [apply elem_of_app; by left | done].
    + apply list_elem_of_singleton in Hin. subst.
      split; [apply elem_of_app; right; by apply list_elem_of_singleton | done].
Qed.

(** One turn keeps the ledger, and prints nothing. *)
Lemma attempt_fix_spec fixers done f r evs :
  (forall name fixer f, fixers !! name = Some fixer -> silent (fixer f)) ->
  ledger done r -> quiet evs ->
  spec (attempt_fix fixers f r) (fun o evs' =>
    match o with
    | Ok r' => ledger (done ++ [f]) r' /\ quiet (evs ++ evs')
    | Raise _ => quiet (evs ++ evs')
    end).
Proof.
  intros Hfixers Hledger Hquiet. unfold attempt_fix.
  destruct (fixable f) eqn:Hf; simpl.
  2:{ apply spec_ret. rewrite app_nil_r. split; [by apply ledger_skip | done]. }
  assert (Hlog : forall status r',
            ledger (done ++ [f]) r' ->
            spec (log_fix f status ;; ret r') (fun o evs' =>
              match o with
              | Ok r' => ledger (done ++ [f]) r' /\ quiet (evs ++ evs')
              | Raise _ => quiet (evs ++ evs')
              end)).
  { intros status r' Hr'. eapply spec_bind; [apply log_fix_spec | |].
    - intros e evs1 Hq. by apply quiet_app.
    - intros [] evs1 Hq. apply spec_ret. rewrite app_nil_r.
      split; [done | by apply quiet_app]. }
  destruct (lookup_fixer fixers (get f "type")) as [fixer|] eqn:Hlook.
  - assert (Hsil : silent (fixer f)).
    { unfold lookup_fixer in Hlook. destruct (get f "type"); try discriminate.
      eapply Hfixers, Hlook. }
    eapply spec_bind; [exact Hsil | |].
    + intros e evs1 ->. by rewrite app_nil_r.
    + intros b evs1 ->. simpl.
      destruct b; apply Hlog; [by apply ledger_fixed | by apply ledger_failed].
  - eapply spec_bind; [apply attempt_generic_fix_silent | |].
    + intros e evs1 ->. by rewrite app_nil_r.
    + intros b evs1 ->. simpl.
      destruct b; apply spec_ret; rewrite app_nil_r;
        (split; [by first [apply ledger_fixed | apply ledger_failed] | done]).
Qed.

(** A round of fixes prints nothing, and its result is the tally of the
    answers of the fixers. *)
Lemma attempt_fixes_spec results ptype changed :
  spec (attempt_fixes results ptype changed) (fun o evs =>
    quiet evs /\ forall fr, o = Ok fr -> tally results fr).
Proof.
  unfold attempt_fixes.
  eapply spec_bind.
  - apply (spec_for_each (failures results) _
             (fun done r evs => ledger done r /\ quiet evs)
             (fun _ evs => quiet evs) [] fix_results_init []).
    + split; [apply ledger_init | apply quiet_nil].
    + intros f done r evs [Hl Hq].
      apply attempt_fix_spec; [|done|done].
      intros name fixer f' Hlook. eapply registered_fixer_silent, Hlook.
  - intros e evs Hq. simpl in Hq. split; [done | intros fr Hfr; discriminate].
  - intros r evs [Hl Hq]. simpl in Hl, Hq. apply spec_ret. rewrite app_nil_r.
    split; [done|]. intros fr [= <-]. split; [|done].
    exact Hl.
Qed.

(** *** Report and notifications *)

Lemma print_spec m : spec (print m) (fun o evs => o = Ok tt /\ evs = [Stderr m]).
Proof. by apply spec_emit. Qed.

(** What a sender does for a message that is built without fail: the
    module is imported first, and only then is the notification handed
    over; whatever [requests.post] does is ignored. *)
Lemma post_quietly_ret_run n st :
  post_quietly (ret n) st =
  (Ok tt,
   match import_requests (world st) with
   | (Ok _, w) => State (snd (requests_post ntfy_url w)) (trace st ++ [Posted n])
   | (Raise _, w) => State w (trace st)
   end).
Proof.
  unfold post_quietly, try_except, bind, ret, emit, host. simpl.
  destruct (import_requests (world st)) as [[[]|e] w]; simpl; [|done].
  by destruct (requests_post ntfy_url w) as [[[]|e] w'].
Qed.

(** A notification is attempted once; a failure to import the module or
    to deliver the notification is ignored. *)
Lemma post_quietly_ret n :
  spec (post_quietly (ret n)) (fun o evs => o = Ok tt /\ (evs = [] \/ evs = [Posted n])).
Proof.
  intros st o st' Hrun. rewrite post_quietly_ret_run in Hrun. injection Hrun as <- <-.
  destruct (import_requests (world st)) as [[[]|e] w]; simpl.
  - exists [Posted n]. auto.
  - exists []. rewrite app_nil_r. auto.
Qed.

Lemma post_quietly_returns build st : exists st', post_quietly build st = (Ok tt, st').
Proof.
  unfold post_quietly, try_except.
  match goal with |- context [match ?m st with _ => _ end] => destruct (m st) as [[[]|e] st1] end;
    by eexists.
Qed.

Lemma failure_lines_silent fs : silent (failure_lines fs).
Proof.
  induction fs as [|f fs IH]; simpl; [apply silent_ret|].
  destruct (has_key f "file"); [|exact IH].
  apply silent_bind; [apply silent_py_slice_to|]. intros short.
  apply silent_bind; [exact IH|]. intros lines. apply silent_ret.
Qed.

Lemma post_quietly_spec build :
  silent build -> spec (post_quietly build) (fun o evs => o = Ok tt /\ quiet evs).
Proof.
  intros Hbuild. unfold post_quietly.
  eapply spec_try_except with (R1 := fun _ evs => quiet evs).
  - eapply spec_bind; [apply silent_host | |].
    + intros e evs ->. apply quiet_nil.
    + intros [] evs0 ->. simpl.
      eapply spec_bind; [exact Hbuild | |].
      * intros e evs ->. apply quiet_nil.
      * intros n evs ->. simpl.
        eapply spec_bind; [apply spec_emit with (R := fun _ evs => quiet evs) | |].
        -- by repeat constructor.
        -- intros e evs Hq. exact Hq.
        -- intros [] evs Hq. apply silent_spec; [apply silent_host|].
           intros o. by rewrite app_nil_r.
  - intros [] evs Hq. done.
  - intros e evs Hq. apply spec_ret. by rewrite app_nil_r.
Qed.

Lemma send_failure_notification_spec results :
  spec (send_failure_notification results) (fun o evs => o = Ok tt /\ quiet evs).
Proof.
  unfold send_failure_notification. apply post_quietly_spec.
  apply silent_bind; [apply failure_lines_silent|]. intros lines. apply silent_ret.
Qed.

Lemma save_test_report_spec results data :
  spec (save_test_report results data) (fun _ evs => quiet evs).
Proof.
  unfold save_test_report.
  eapply spec_bind; [apply silent_ask | intros e evs ->; apply quiet_nil |].
  intros now evs0 ->.
  eapply spec_bind; [apply silent_ask | |].
  - intros e evs ->. apply quiet_nil.
  - intros stamp evs ->. simpl.
    eapply spec_bind; [apply silent_host | |].
    + intros e evs ->. apply quiet_nil.
    + intros [] evs ->. simpl. apply spec_emit. by repeat constructor.
Qed.

(** *** The remediation step *)

Lemma fix_rounds_verdict fr final : fix_rounds [Stderr (verdict fr final)] = 0%nat.
Proof. unfold verdict. by destruct (has_failures final). Qed.

Lemma reverifications_verdict fr final :
  reverifications [Stderr (verdict fr final)] = 0%nat.
Proof. unfold verdict. by destruct (has_failures final). Qed.

Ltac count :=
  repeat rewrite fix_rounds_app; repeat rewrite reverifications_app;
  rewrite ?fix_rounds_verdict, ?reverifications_verdict;
  repeat match goal with
         | Hq : quiet ?e |- context [fix_rounds ?e] =>
             rewrite (quiet_fix_rounds e Hq)
         | Hq : quiet ?e |- context [reverifications ?e] =>
             rewrite (quiet_reverifications e Hq)
         end;
  unfold fix_rounds, reverifications in *; simpl; try lia.

Ltac splits := repeat match goal with |- _ /\ _ => split end.

Ltac inlist :=
  repeat first [rewrite elem_of_app | rewrite elem_of_cons]; auto 15.

Lemma run_all_tests_pass ptype changed :
  spec (run_all_tests ptype changed) (fun o evs =>
    evs = [] /\ exists r, o = Ok r /\ has_failures r = (0 <? len (failures r))).
Proof. apply run_all_tests_spec. eauto. Qed.

(** After the final pass: the notification that goes with the verdict, if
    it could be handed over, and the line of the verdict. *)
Lemma verdict_spec fr final :
  spec (if negb (has_failures final) then
          send_success_notification fr ;;
          print MsgAllPassingReady
        else
          send_partial_fix_notification fr final ;;
          print (MsgFixedRemain (fixed_count fr) (len (failures final))))
    (fun o evs =>
       o = Ok tt /\
       exists posts,
         (posts = [] \/ posts = [Posted (verdict_notification fr final)]) /\
         evs = posts ++ [Stderr (verdict fr final)]).
Proof.
  unfold verdict, verdict_notification.
  destruct (has_failures final); simpl;
    (eapply spec_bind; [apply post_quietly_ret | by intros e evs [? _] |];
     intros [] posts [_ Hposts]; apply spec_emit; split; [done|]; by exists posts).
Qed.

(** The remediation step announces at most one round of fixes and at most
    one verification pass after it, and follows one of three courses. *)
Lemma remediate_spec results ptype changed :
  spec (remediate results ptype changed) (fun o evs =>
    (fix_rounds evs <= 1)%nat /\
    (reverifications evs <= fix_rounds evs)%nat /\
    forall fr final, o = Ok (fr, final) -> remediation_course results fr final evs).
Proof.
  unfold remediate. destruct (has_failures results) eqn:Hhas.
  2:{ eapply spec_bind; [apply print_spec | by intros e evs [? _] |].
      intros [] evs [_ ->]. apply spec_ret. simpl.
      split; [count|]. split; [count|].
      intros fr final [= <- <-]. cbn [remediation_course]. splits; try done. inlist. }
  eapply spec_bind; [apply print_spec | by intros e evs [? _] |].
  intros [] evs0 [_ ->].
  eapply spec_bind; [apply attempt_fixes_spec | |].
  { intros e evs [Hq _]. split; [count|]. split; [count|]. intros ? ? [=]. }
  intros fr evs1 [Hq1 Htally]. specialize (Htally fr eq_refl).
  destruct (all_fixed fr) eqn:Hall.
  - eapply spec_bind; [apply print_spec | by intros e evs [? _] |].
    intros [] evs2 [_ ->].
    eapply spec_bind; [apply run_all_tests_pass | by intros e evs [_ (r & ? & _)] |].
    intros final evs3 [-> (final' & [= <-] & Hfinal)].
    eapply spec_bind; [apply verdict_spec | by intros e evs [? _] |].
    intros [] evs4 [_ (posts & Hposts & ->)]. apply spec_ret.
    assert (Hq : quiet posts).
    { destruct Hposts as [-> | ->]; [apply quiet_nil | by repeat constructor]. }
    split; [count|]. split; [count|].
    intros fr' final' [= <- <-]. cbn [remediation_course].
    splits; try done; try count. inlist.
  - eapply spec_bind; [apply send_failure_notification_spec | by intros e evs [? _] |].
    intros [] evs2 [_ Hq2].
    eapply spec_bind; [apply print_spec | by intros e evs [? _] |].
    intros [] evs3 [_ ->]. apply spec_ret.
    split; [count|]. split; [count|].
    intros fr' final' [= <- <-]. cbn [remediation_course].
    splits; try done; try count. inlist.
Qed.

(** Events before and after the remediation step that are neither the
    start of a round nor of a verification pass leave its course as it is. *)
Lemma remediation_course_frame results fr final pre evs post :
  fix_rounds pre = 0%nat -> reverifications pre = 0%nat ->
  fix_rounds post = 0%nat -> reverifications post = 0%nat ->
  remediation_course results fr final evs ->
  remediation_course results fr final (pre ++ evs ++ post).
Proof.
  intros Hp1 Hp2 Hq1 Hq2.
  unfold remediation_course.
  rewrite !fix_rounds_app, !reverifications_app, Hp1, Hp2, Hq1, Hq2.
  destruct fr as [fr|], final as [final|]; [| | done |].
  - intros (? & ? & ? & -> & -> & ? & ?). splits; try done; inlist.
  - intros (? & ? & ? & -> & -> & ?). splits; try done; inlist.
  - intros (? & -> & -> & ?). splits; try done; inlist.
Qed.

(** The whole run, when its [try] block ends: at most one round of fixes
    and one verification pass after it are announced; and, when the block
    ends normally, the course of the remediation step on the failures of
    the first pass. *)
Lemma comprehensive_test_body_spec stdin :
  spec (comprehensive_test_body stdin) (fun o evs =>
    (fix_rounds evs <= 1)%nat /\
    (reverifications evs <= fix_rounds evs)%nat /\
    forall locals, o = Ok locals ->
      has_failures (loc_test_results locals)
        = (0 <? len (failures (loc_test_results locals))) /\
      remediation_course (loc_test_results locals)
        (loc_fix_results locals) (loc_final_results locals) evs).
Proof.
  unfold comprehensive_test_body.
  eapply spec_bind; [apply silent_lift | |].
  { intros e evs ->. split; [count|]. split; [count|]. intros ? [=]. }
  intros data evs0 ->.
  eapply spec_bind; [apply silent_spec with (R := fun o evs => evs = []);
                     [apply detect_project_type_silent | done] | |].
  { intros e evs ->. split; [count|]. split; [count|]. intros ? [=]. }
  intros ptype evs1 ->.
  eapply spec_bind; [apply print_spec | by intros e evs [? _] |].
  intros [] evs2 [_ ->].
  eapply spec_bind; [apply run_all_tests_pass | by intros e evs [_ (r & ? & _)] |].
  intros results evs3 [-> (results' & [= <-] & Hhas)].
  eapply spec_bind; [apply remediate_spec | |].
  { intros e evs (Hr & Hv & _). split; [count|]. split; [count|]. intros ? [=]. }
  intros [fr final] evs4 (Hr & Hv & Hcourse). specialize (Hcourse fr final eq_refl).
  eapply spec_bind; [apply save_test_report_spec | |].
  { intros e evs Hq. simpl in Hq. split; [count|]. split; [count|]. intros ? [=]. }
  intros [] evs5 Hq. simpl in Hq. apply spec_ret.
  split; [count|]. split; [count|].
  intros locals [= <-]. simpl. split; [done|].
  rewrite app_nil_r.
  change (Stderr (MsgStarting ptype) :: evs4 ++ evs5)
    with ([Stderr (MsgStarting ptype)] ++ evs4 ++ evs5).
  apply remediation_course_frame; try done; by count.
Qed.

(** The run never raises and returns 0. *)
Lemma run_comprehensive_test_returns stdin st :
  exists st', run_comprehensive_test stdin st = (Ok 0, st').
Proof.
  unfold run_comprehensive_test, try_except, bind, ret, print, emit.
  destruct (comprehensive_test_body stdin st) as [[locals|e] st1]; eauto.
Qed.

(** When the [try] block ends normally the run leaves what the block
    left; when it raises, the run adds the error line. *)
Lemma run_comprehensive_test_body stdin st o st1 :
  comprehensive_test_body stdin st = (o, st1) ->
  run_comprehensive_test stdin st =
  (Ok 0, match o with
         | Ok _ => st1
         | Raise e => printed st1 (MsgError (exn_str e))
         end).
Proof.
  intros Hbody. unfold run_comprehensive_test, try_except, bind, ret.
  rewrite Hbody. by destruct o.
Qed.

Lemma run_comprehensive_test_spec stdin :
  spec (run_comprehensive_test stdin) (fun o evs =>
    (fix_rounds evs <= 1)%nat /\ (reverifications evs <= fix_rounds evs)%nat).
Proof.
  unfold run_comprehensive_test.
  eapply spec_try_except with
    (R1 := fun _ evs => (fix_rounds evs <= 1)%nat /\
                        (reverifications evs <= fix_rounds evs)%nat).
  - eapply spec_bind; [apply comprehensive_test_body_spec | |].
    + intros e evs (? & ? & _). done.
    + intros locals evs (? & ? & _). apply spec_ret. by rewrite app_nil_r.
  - done.
  - intros e evs1 [Hr Hv].
    eapply spec_bind; [apply print_spec | by intros e' evs [? _] |].
    intros [] evs2 [_ ->]. apply spec_ret. split; count.
Qed.

(** *** The executions of a run *)

Lemma run_all_tests_returns ptype changed st :
  exists r st', run_all_tests ptype changed st = (Ok r, st').
Proof. apply run_stages_returns. Qed.

(** The detection of the project type changes nothing. *)
Lemma detect_project_type_pure st o st' :
  detect_project_type st = (o, st') -> st' = st.
Proof.
  intros Hrun. unfold detect_project_type, exists_in_project, bind, query, ret in Hrun.
  repeat match type of Hrun with
         | context [match ?q (world st) with _ => _ end] =>
             destruct (q (world st)) as [[|]|?]
         | context [match ?q (world st) with _ => _ end] =>
             destruct (q (world st)) as [?|?]
         | context [if ?b then _ else _] => destruct b
         end;
    by injection Hrun as _ <-.
Qed.

(** The remediation step executes [attempt_fixes] at most once and
    [run_all_tests] at most once after it; it raises only when the round
    of fixes raises. *)
Lemma remediate_steps results ptype changed s o s' :
  remediate results ptype changed s = (o, s') ->
  match o with
  | Ok (fr, final) => one_round results ptype changed s fr final s'
  | Raise e =>
      has_failures results = true /\
      attempt_fixes results ptype changed
        (printed s (MsgFoundIssues (len (failures results)))) = (Raise e, s')
  end.
Proof.
  unfold remediate. destruct (has_failures results) eqn:Hhas.
  2:{ unfold bind, print, emit, ret. intros [= <- <-]. by split. }
  unfold bind at 1, print at 1, emit at 1.
  change (State (world s) (trace s ++ [Stderr ?m])) with (printed s m).
  unfold bind at 1.
  destruct (attempt_fixes _ _ _ _) as [[fr|e] s1] eqn:Hfix.
  2:{ intros [= <- <-]. by split. }
  destruct (all_fixed fr) eqn:Hall.
  - unfold bind at 1, print at 1, emit at 1.
    change (State (world s1) (trace s1 ++ [Stderr ?m])) with (printed s1 m).
    unfold bind at 1.
    destruct (run_all_tests_returns ptype changed (printed s1 MsgAllFixedVerifying))
      as (final & s2 & Hpass).
    rewrite Hpass. unfold bind at 1.
    destruct (has_failures final) eqn:Hf; cbn [negb]; unfold bind at 1.
    + destruct (post_quietly_returns
                  (ret (AutoFixPartial (fixed_count fr) (len (failures final)))) s2)
        as (s3 & Hsend).
      change (post_quietly _) with (send_partial_fix_notification fr final) in Hsend.
      rewrite Hsend. unfold print, emit, ret. intros [= <- <-].
      cbn [one_round]. split; [done|]. split; [done|].
      exists s1, s2, s3. rewrite Hf. repeat split; try done.
      unfold verdict. by rewrite Hf.
    + destruct (post_quietly_returns (ret (AutoFixSuccess (fixed_count fr))) s2)
        as (s3 & Hsend).
      change (post_quietly _) with (send_success_notification fr) in Hsend.
      rewrite Hsend. unfold print, emit, ret. intros [= <- <-].
      cbn [one_round]. split; [done|]. split; [done|].
      exists s1, s2, s3. rewrite Hf. repeat split; try done.
      unfold verdict. by rewrite Hf.
  - unfold bind at 1.
    destruct (post_quietly_returns
                (let* lines := failure_lines (take 3 (failures results)) in
                 ret (AutoFixManualRequired (len (failures results)) lines)) s1)
      as (s2 & Hsend).
    change (post_quietly _) with (send_failure_notification results) in Hsend.
    rewrite Hsend. unfold bind, print, emit, ret. intros [= <- <-].
    cbn [one_round]. split; [done|]. split; [done|]. by exists s1, s2.
Qed.

(** The [try] block executes the first pass once, then the remediation
    step, then saves the report. *)
Lemma comprehensive_test_body_steps data st o st' :
  comprehensive_test_body (Ok data) st = (o, st') -> run_steps data st o st'.
Proof.
  unfold comprehensive_test_body. cbn [lift]. unfold bind at 1, ret at 1.
  unfold bind at 1.
  destruct (detect_project_type st) as [[ptype|e] s0] eqn:Hdet.
  2:{ intros [= <- <-]. by left. }
  pose proof (detect_project_type_pure _ _ _ Hdet) as ->.
  unfold bind at 1, print at 1, emit at 1.
  change (State (world st) (trace st ++ [Stderr ?m])) with (printed st m).
  unfold bind at 1.
  destruct (run_all_tests_returns ptype (extract_changed_files (tools_used data))
              (printed st (MsgStarting ptype))) as (results & s1 & Hpass).
  rewrite Hpass. unfold bind at 1.
  destruct (remediate _ _ _ s1) as [[[fr final]|e] s2] eqn:Hrem;
    apply remediate_steps in Hrem.
  2:{ intros [= <- <-]. right. exists ptype, results, s1.
      split; [done|]. split; [done|]. by left. }
  unfold bind at 1.
  destruct (save_test_report results data s2) as [[[]|e] s3] eqn:Hsave.
  - unfold ret. intros [= <- <-]. simpl. by exists ptype, s1, s2.
  - intros [= <- <-]. right. exists ptype, results, s1.
    split; [done|]. split; [done|]. right. by exists fr, final, s2.
Qed.

(** C1 (as amended).  Every run terminates and returns 0.  It executes at
    most one round of fixes and at most one verification pass after it,
    which is within [max_fix_attempts = 3]; the bound is never used to
    repeat a round.  The [try] block of a run is this chain of
    executions, each in the state the one before it left: the detection
    of the project type, one verification pass and, when that pass found
    failures, one execution of [attempt_fixes], followed by one more
    verification pass exactly when every failure was reported fixed; then
    the notification, the last line and the report.  A block that raises
    has stopped in the detection, in that one round, or in saving the
    report.  The run announces a round and a verification accordingly:
    one round when the first pass finds failures, whether or not they go
    away, and the verification when every failure was reported fixed. *)
Theorem remediation_runs_one_round (stdin : outcome hook_data) (st : state event) :
  exists st' evs,
    run_comprehensive_test stdin st = (Ok 0, st') /\
    trace st' = trace st ++ evs /\
    (fix_rounds evs <= 1)%nat /\
    (reverifications evs <= fix_rounds evs)%nat /\
    Z.of_nat (fix_rounds evs) <= max_fix_attempts /\
    match stdin with
    | Raise e => st' = printed st (MsgError (exn_str e))
    | Ok data =>
        exists o st1,
          comprehensive_test_body stdin st = (o, st1) /\
          run_steps data st o st1 /\
          st' = match o with
                | Ok _ => st1
                | Raise e => printed st1 (MsgError (exn_str e))
                end
    end /\
    forall locals st1,
      comprehensive_test_body stdin st = (Ok locals, st1) ->
      fix_rounds evs = (if has_failures (loc_test_results locals) then 1 else 0)%nat /\
      reverifications evs =
        match loc_fix_results locals with
        | Some fr => if all_fixed fr then 1%nat else 0%nat
        | None => 0%nat
        end.
Proof.
  destruct (comprehensive_test_body stdin st) as [o st1] eqn:Hbody.
  pose proof (run_comprehensive_test_body _ _ _ _ Hbody) as Hrun.
  destruct (run_comprehensive_test_spec stdin _ _ _ Hrun) as (evs & Ht & Hr & Hv).
  eexists _, evs. split; [exact Hrun|]. split; [exact Ht|].
  split; [exact Hr|]. split; [exact Hv|].
  split; [unfold max_fix_attempts; lia|]. split.
  - destruct stdin as [data|e].
    + exists o, st1. split; [done|]. split; [|done].
      by apply comprehensive_test_body_steps.
    + unfold comprehensive_test_body, bind in Hbody. simpl in Hbody.
      by injection Hbody as <- <-.
  - intros locals st2 [= -> ->].
    destruct (comprehensive_test_body_spec stdin _ _ _ Hbody) as (evs' & Ht' & _ & _ & Hloc).
    simpl in Ht. rewrite Ht in Ht'. apply app_inv_head in Ht'. subst evs'.
    destruct (Hloc locals eq_refl) as [_ Hcourse].
    unfold remediation_course in Hcourse.
    destruct (loc_fix_results locals) as [fr|], (loc_final_results locals) as [final|];
      [| | done |].
    + destruct Hcourse as (-> & _ & -> & -> & -> & _). done.
    + destruct Hcourse as (-> & _ & -> & -> & -> & _). done.
    + destruct Hcourse as (-> & -> & -> & _). done.
Qed.

(** *** The answers of the fixers *)

Lemma log_then_ret f status (r : fix_results) st r' st' :
  (log_fix f status ;; ret r) st = (Ok r', st') -> r' = r.
Proof.
  unfold bind. destruct (log_fix f status st) as [[[]|e] st1]; [|discriminate].
  by intros [= <- <-].
Qed.

(** One turn: a failure that is not fixable is passed over; a fixable one
    is counted and recorded as fixed or as failed, by the answer of its
    fixer. *)
Lemma attempt_fix_inv (fixers : gmap string (failure -> Betty.M bool)) f r st r' st' :
  attempt_fix fixers f r st = (Ok r', st') ->
  (fixable f = false /\ r' = r) \/
  (fixable f = true /\
   exists b st1,
     match lookup_fixer fixers (get f "type") with
     | Some fixer => fixer f st = (Ok b, st1)
     | None => attempt_generic_fix f st = (Ok b, st1)
     end /\
     r' = if b then record_fixed f (count_attempt r)
          else record_failed f (count_attempt r)).
Proof.
  unfold attempt_fix. destruct (fixable f); simpl.
  2:{ intros [= <- <-]. by left. }
  intros Hrun. right. split; [done|].
  destruct (lookup_fixer fixers (get f "type")) as [fixer|].
  - unfold bind at 1 in Hrun. destruct (fixer f st) as [[b|e] st1]; [|discriminate].
    exists b, st1. split; [done|]. destruct b; eapply log_then_ret, Hrun.
  - unfold bind in Hrun. destruct (attempt_generic_fix f st) as [[b|e] st1]; [|discriminate].
    exists b, st1. split; [done|]. by destruct b; injection Hrun as <- <-.
Qed.

Lemma attempt_fixes_inv results ptype changed st fr st' :
  attempt_fixes results ptype changed st = (Ok fr, st') ->
  exists r,
    for_each (failures results) (attempt_fix (common_fixes (config_of ptype)))
      fix_results_init st = (Ok r, st') /\
    fr = set_all_fixed (fixed_count r =? len (failures results)) r.
Proof.
  unfold attempt_fixes, bind.
  destruct (for_each _ _ _ _) as [[r|e] st1]; [|discriminate].
  intros [= <- <-]. by exists r.
Qed.

(** A turn on a fixable failure is decided by the answer of its fixer:
    [True] records the failure as fixed, [False] as failed, and the
    answer of a registered fixer is logged. *)
Lemma attempt_fix_answer (fixers : gmap string (failure -> Betty.M bool)) f r st b st1 :
  fixable f = true ->
  fixer_of fixers f st = (Ok b, st1) ->
  attempt_fix fixers f r st =
  ((if has_fixer fixers f
    then log_fix f (if b then "success" else "failed")
    else ret tt) ;;
   ret (if b then record_fixed f (count_attempt r)
        else record_failed f (count_attempt r))) st1.
Proof.
  intros Hfix Hans. unfold attempt_fix, fixer_of, has_fixer in *. rewrite Hfix. simpl.
  destruct (lookup_fixer fixers (get f "type")) as [fixer|].
  - rewrite bool_decide_eq_true_2 by by eexists.
    unfold bind at 1. rewrite Hans. by destruct b.
  - rewrite bool_decide_eq_false_2 by by intros [? ?].
    unfold bind at 1. rewrite Hans. by destruct b.
Qed.

Lemma sublist_same_length {A} (l k : list A) :
  l `sublist_of` k -> List.length l = List.length k -> l = k.
Proof.
  induction 1 as [|x l k Hsub IH|x l k Hsub IH]; simpl; intros Hlen.
  - done.
  - f_equal. apply IH. lia.
  - apply sublist_length in Hsub. lia.
Qed.

(** The lists of a round, by the answers: a failure stands in [fixed]
    because its fixer answered [True] in its turn, and in [failed]
    because it answered [False]. *)
Lemma attempt_fixes_answers results ptype changed st fr st' :
  attempt_fixes results ptype changed st = (Ok fr, st') ->
  (forall f, f ∈ fixed fr ->
     f ∈ failures results /\ fixable f = true /\
     exists s s', fixer_of (common_fixes (config_of ptype)) f s = (Ok true, s')) /\
  (forall f, f ∈ failed fr ->
     f ∈ failures results /\ fixable f = true /\
     exists s s', fixer_of (common_fixes (config_of ptype)) f s = (Ok false, s')) /\
  fixed fr `sublist_of` failures results /\
  fixed_count fr = len (fixed fr).
Proof.
  intros (r & Hloop & ->)%attempt_fixes_inv. simpl.
  set (fixers := common_fixes (config_of ptype)) in *.
  apply (LoopFacts.for_each_Ok_inv _
           (fun done r =>
              (forall f, f ∈ fixed r ->
                 f ∈ done /\ fixable f = true /\
                 exists s s', fixer_of fixers f s = (Ok true, s')) /\
              (forall f, f ∈ failed r ->
                 f ∈ done /\ fixable f = true /\
                 exists s s', fixer_of fixers f s = (Ok false, s')) /\
              fixed r `sublist_of` done /\
              fixed_count r = len (fixed r)) _ []) in Hloop.
  - exact Hloop.
  - clear. intros f done r st r' st' (Hfi & Hfa & Hsub & Hc) Hturn.
    assert (Hgrow : forall (P : Prop) g, g ∈ done /\ P -> g ∈ done ++ [f] /\ P).
    { intros P g [Hg HP]. split; [apply elem_of_app; by left | done]. }
    assert (Hlast : f ∈ done ++ [f]).
    { apply elem_of_app; right. by apply list_elem_of_singleton. }
    apply attempt_fix_inv in Hturn as [[Hf ->]|(Hf & b & st1 & Hans & ->)].
    + split; [intros g Hg; apply Hgrow; by apply Hfi|].
      split; [intros g Hg; apply Hgrow; by apply Hfa|].
      split; [by apply sublist_inserts_r | done].
    + assert (Hans' : fixer_of fixers f st = (Ok b, st1)).
      { unfold fixer_of. by destruct (lookup_fixer fixers (get f "type")). }
      clear Hans. destruct b; simpl.
      * split.
        { intros g [Hg|Hg]%elem_of_app; [apply Hgrow; by apply Hfi|].
          apply list_elem_of_singleton in Hg. subst g.
          split; [done|]. split; [done|]. by eexists _, _. }
        split; [intros g Hg; apply Hgrow; by apply Hfa|].
        split; [by apply sublist_app|].
        rewrite len_app, Hc. reflexivity.
      * split; [intros g Hg; apply Hgrow; by apply Hfi|].
        split.
        { intros g [Hg|Hg]%elem_of_app; [apply Hgrow; by apply Hfa|].
          apply list_elem_of_singleton in Hg. subst g.
          split; [done|]. split; [done|]. by eexists _, _. }
        split; [by apply sublist_inserts_r | done].
  - split; [intros g Hg; by apply elem_of_nil in Hg|].
    split; [intros g Hg; by apply elem_of_nil in Hg|]. done.
Qed.

(** *** What the remediation step leaves behind *)

Lemma spec_both {A} (m : Betty.M A) (R1 R2 : outcome A -> list event -> Prop) :
  spec m R1 -> spec m R2 -> spec m (fun o evs => R1 o evs /\ R2 o evs).
Proof.
  intros H1 H2 st o st' Hrun.
  destruct (H1 _ _ _ Hrun) as (evs1 & Ht1 & HR1).
  destruct (H2 _ _ _ Hrun) as (evs2 & Ht2 & HR2).
  rewrite Ht1 in Ht2. apply app_inv_head in Ht2. subst evs2. eauto.
Qed.

Lemma fix_logs_nil : fix_logs [].
Proof. constructor. Qed.

Lemma fix_logs_app evs1 evs2 : fix_logs evs1 -> fix_logs evs2 -> fix_logs (evs1 ++ evs2).
Proof. apply Forall_app_2. Qed.

Lemma log_fix_logs f status : spec (log_fix f status) (fun _ evs => fix_logs evs).
Proof.
  unfold log_fix.
  eapply spec_bind; [apply silent_ask | intros e evs ->; apply fix_logs_nil |].
  intros now evs0 ->. eapply spec_bind; [apply silent_host | |].
  - intros e evs ->. apply fix_logs_nil.
  - intros [] evs1 ->. apply spec_emit. simpl. by repeat constructor.
Qed.

Lemma attempt_fix_logs fixers f r :
  (forall name fixer f, fixers !! name = Some fixer -> silent (fixer f)) ->
  spec (attempt_fix fixers f r) (fun _ evs => fix_logs evs).
Proof.
  intros Hfixers. unfold attempt_fix.
  destruct (fixable f); simpl; [|apply spec_ret, fix_logs_nil].
  destruct (lookup_fixer fixers (get f "type")) as [fixer|] eqn:Hlook.
  - assert (Hsil : silent (fixer f)).
    { unfold lookup_fixer in Hlook. destruct (get f "type"); try discriminate.
      eapply Hfixers, Hlook. }
    eapply spec_bind; [exact Hsil | intros e evs ->; apply fix_logs_nil |].
    intros b evs ->. simpl.
    destruct b;
      (eapply spec_bind; [apply log_fix_logs | by intros e evs Hl |];
       intros [] evs Hl; apply spec_ret; by rewrite app_nil_r).
  - eapply spec_bind;
      [apply attempt_generic_fix_silent | intros e evs ->; apply fix_logs_nil |].
    intros b evs ->. simpl. destruct b; apply spec_ret, fix_logs_nil.
Qed.

(** A round of fixes leaves entries of the history of fixes, and nothing
    else. *)
Lemma attempt_fixes_logs results ptype changed :
  spec (attempt_fixes results ptype changed) (fun o evs =>
    fix_logs evs /\ forall fr, o = Ok fr -> tally results fr).
Proof.
  apply spec_both.
  - unfold attempt_fixes. eapply spec_bind.
    + apply (spec_for_each (failures results) _
               (fun _ _ evs => fix_logs evs) (fun _ evs => fix_logs evs)
               [] fix_results_init []); [apply fix_logs_nil|].
      intros f done r evs Hl. eapply spec_weaken.
      * apply attempt_fix_logs. intros name fixer f' Hlook.
        eapply registered_fixer_silent, Hlook.
      * intros [r'|e] evs' Hl'; by apply fix_logs_app.
    + intros e evs Hl. exact Hl.
    + intros r evs Hl. apply spec_ret. by rewrite app_nil_r.
  - eapply spec_weaken; [apply attempt_fixes_spec|].
    intros o evs [_ Ht]. exact Ht.
Qed.

(** Building the lines of the failure notification touches nothing. *)
Lemma failure_lines_pure fs st o st' :
  failure_lines fs st = (o, st') ->
  st' = st /\
  forall lines, o = Ok lines ->
    List.length lines = List.length (List.filter (fun f => has_key f "file") fs).
Proof.
  revert o st'. induction fs as [|f fs IH]; intros o st'; simpl.
  - intros [= <- <-]. split; [done|]. by intros lines [= <-].
  - destruct (has_key f "file"); [|apply IH].
    unfold bind.
    destruct (py_slice_to 50 (get_default f "message" (VStr "error")) st)
      as [[short|e] st1] eqn:Hs.
    2:{ intros [= <- <-]. split; [|by intros lines [=]].
        destruct (get_default f "message" (VStr "error")); simpl in Hs;
          by injection Hs as _ <-. }
    assert (st1 = st) as ->.
    { destruct (get_default f "message" (VStr "error")); simpl in Hs;
        by injection Hs as _ <-. }
    destruct (failure_lines fs st) as [[lines|e] st2] eqn:Hl.
    + destruct (IH _ _ eq_refl) as [-> Hlen].
      intros [= <- <-]. split; [done|]. intros lines' [= <-]. simpl.
      by rewrite (Hlen lines eq_refl).
    + destruct (IH _ _ eq_refl) as [-> _].
      intros [= <- <-]. split; [done|]. by intros lines' [=].
Qed.

(** The failure notification, step by step: the import, the lines, the
    hand-over. *)
Lemma send_failure_notification_run results st :
  send_failure_notification results st =
  (Ok tt,
   match import_requests (world st) with
   | (Ok _, w) =>
       match fst (failure_lines (take 3 (failures results)) (State w (trace st))) with
       | Ok lines =>
           State (snd (requests_post ntfy_url w))
             (trace st ++ [Posted (AutoFixManualRequired (len (failures results)) lines)])
       | Raise _ => State w (trace st)
       end
   | (Raise _, w) => State w (trace st)
   end).
Proof.
  unfold send_failure_notification, post_quietly, try_except, bind at 1, host.
  destruct (import_requests (world st)) as [[[]|e] w]; [|done].
  unfold bind at 1. unfold bind at 1.
  destruct (failure_lines _ _) as [[lines|e] st1] eqn:Hl;
    destruct (failure_lines_pure _ _ _ _ Hl) as [-> _]; simpl; [|done].
  unfold bind, ret, emit, host. simpl.
  by destruct (requests_post ntfy_url w) as [[[]|e] w'].
Qed.

Lemma send_failure_notification_shape results :
  spec (send_failure_notification results) (fun o evs =>
    o = Ok tt /\
    (evs = [] \/
     exists lines,
       evs = [Posted (AutoFixManualRequired (len (failures results)) lines)] /\
       List.length lines =
         List.length (List.filter (fun f => has_key f "file") (take 3 (failures results))))).
Proof.
  intros st o st' Hrun. rewrite send_failure_notification_run in Hrun.
  injection Hrun as <- <-.
  destruct (import_requests (world st)) as [[[]|e] w].
  2:{ exists []. simpl. rewrite app_nil_r. auto. }
  destruct (failure_lines _ _) as [[lines|e] st1] eqn:Hl;
    destruct (failure_lines_pure _ _ _ _ Hl) as [_ Hlen]; simpl.
  - eexists. split; [reflexivity|]. split; [done|]. right.
    exists lines. split; [done|]. by apply Hlen.
  - exists []. rewrite app_nil_r. auto.
Qed.

(** The events of the remediation step, one by one. *)
Lemma remediate_shape results ptype changed :
  spec (remediate results ptype changed) (remediation_trace results).
Proof.
  unfold remediate, remediation_trace. destruct (has_failures results) eqn:Hhas.
  2:{ eapply spec_bind; [apply print_spec | by intros e evs [? _] |].
      intros [] evs [_ ->]. by apply spec_ret. }
  eapply spec_bind; [apply print_spec | by intros e evs [? _] |].
  intros [] evs0 [_ ->].
  eapply spec_bind; [apply attempt_fixes_logs | |].
  { intros e logs [Hl _]. exists logs, []. by rewrite app_nil_r. }
  intros fr logs [Hl Htally]. specialize (Htally fr eq_refl).
  destruct (all_fixed fr) eqn:Hall.
  - eapply spec_bind; [apply print_spec | by intros e evs [? _] |].
    intros [] evs2 [_ ->].
    eapply spec_bind; [apply run_all_tests_pass | by intros e evs [_ (r & ? & _)] |].
    intros final evs3 [-> (final' & [= <-] & Hfinal)].
    eapply spec_bind; [apply verdict_spec | by intros e evs [? _] |].
    intros [] evs4 [_ (posts & Hposts & ->)]. apply spec_ret.
    exists logs, (Stderr MsgAllFixedVerifying :: posts ++ [Stderr (verdict fr final)]).
    split; [by rewrite app_nil_r|]. split; [done|]. rewrite Hall.
    split; [done|]. split; [done|]. split; [done|]. by exists posts.
  - eapply spec_bind; [apply send_failure_notification_shape | by intros e evs [? _] |].
    intros [] posts [_ Hposts].
    eapply spec_bind; [apply print_spec | by intros e evs [? _] |].
    intros [] evs3 [_ ->]. apply spec_ret.
    exists logs, (posts ++ [Stderr MsgCouldNotFix]).
    split; [by rewrite app_nil_r|]. split; [done|]. rewrite Hall.
    split; [done|]. split; [done|]. exists posts. split; [done|].
    destruct Hposts as [->|(lines & -> & _)]; [by left | right; by exists lines].
Qed.

(** C2 (as amended).  [all_fixed] is decided by the answers of the fixers
    alone.  In its turn a fixable failure is recorded by the answer of
    its fixer, at once: as fixed when the answer is [True], as failed
    when it is [False].  So a failure stands in the list of the fixed
    only because its fixer answered [True], and [all_fixed] holds exactly
    when that list is the list of the failures of the first pass.  The
    verification pass that follows is executed only when [all_fixed] is
    true, after [attempt_fixes] has returned; its result chooses the last
    line and the notification (all passing, or fixed with some remaining)
    and changes neither [all_fixed] nor the list of fixed failures.  When
    [all_fixed] is false no pass is executed: the round is followed by
    the failure notification and the last line. *)
Theorem all_fixed_counts_claimed_fixes :
  (forall (fixers : gmap string (failure -> Betty.M bool)) f r st b st1,
     fixable f = true ->
     fixer_of fixers f st = (Ok b, st1) ->
     attempt_fix fixers f r st =
     ((if has_fixer fixers f
       then log_fix f (if b then "success" else "failed")
       else ret tt) ;;
      ret (if b then record_fixed f (count_attempt r)
           else record_failed f (count_attempt r))) st1) /\
  (forall results ptype changed st fr st',
     attempt_fixes results ptype changed st = (Ok fr, st') ->
     all_fixed fr = (fixed_count fr =? len (failures results)) /\
     fixed_count fr = len (fixed fr) /\
     (forall f, f ∈ fixed fr ->
        f ∈ failures results /\ fixable f = true /\
        exists s s', fixer_of (common_fixes (config_of ptype)) f s = (Ok true, s')) /\
     (forall f, f ∈ failed fr ->
        f ∈ failures results /\ fixable f = true /\
        exists s s', fixer_of (common_fixes (config_of ptype)) f s = (Ok false, s')) /\
     (all_fixed fr = true <-> fixed fr = failures results)) /\
  (forall results ptype changed s fr final s',
     remediate results ptype changed s = (Ok (fr, final), s') ->
     one_round results ptype changed s fr final s' /\
     exists evs,
       trace s' = trace s ++ evs /\ remediation_trace results (Ok (fr, final)) evs).
Proof.
  split; [apply attempt_fix_answer|]. split.
  - intros results ptype changed st fr st' Hrun.
    destruct (attempt_fixes_spec results ptype changed _ _ _ Hrun) as (evs & _ & _ & Htally).
    destruct (Htally fr eq_refl) as [_ Hall].
    destruct (attempt_fixes_answers _ _ _ _ _ _ Hrun) as (Hfi & Hfa & Hsub & Hc).
    repeat (split; [done|]). rewrite Hall, Hc, Z.eqb_eq. split.
    + intros Hlen. apply sublist_same_length; [done|]. unfold len in Hlen. lia.
    + by intros ->.
  - intros results ptype changed s fr final s' Hrun. split.
    + apply (remediate_steps _ _ _ _ _ _ Hrun).
    + apply (remediate_shape _ _ _ _ _ _ Hrun).
Qed.

(** *** Failures that are not fixable *)

Lemma filter_length_lt {A} (p : A -> bool) (l : list A) (x : A) :
  x ∈ l -> p x = false -> (List.length (List.filter p l) < List.length l)%nat.
Proof.
  intros Hin Hp. induction l as [|y l IH]; [by apply elem_of_nil in Hin|].
  simpl. pose proof (List.filter_length_le p l).
  apply elem_of_cons in Hin as [<-|Hin].
  - rewrite Hp. lia.
  - specialize (IH Hin). destruct (p y); simpl; lia.
Qed.

Lemma tally_unfixable results fr f :
  tally results fr -> f ∈ failures results -> fixable f = false ->
  all_fixed fr = false.
Proof.
  intros [(Hc & Ha & Hd & _ & _) ->] Hin Hf.
  pose proof (filter_length_lt fixable _ _ Hin Hf).
  unfold len in *. apply Z.eqb_neq. lia.
Qed.

Lemma parse_build_failures_fixable output command f :
  f ∈ parse_build_failures output command -> fixable f = true.
Proof.
  unfold parse_build_failures. intros Hin.
  repeat case_match; try by apply elem_of_nil in Hin.
  apply list_elem_of_singleton in Hin. by subst.
Qed.

(** C6 (as amended).  For a build stage whose command or output holds no
    pattern that the classifier knows, classification returns no issue at
    all; and every issue it does return is fixable.  A failure with
    [fixable] false is never handed to a fixer: its turn in the loop of
    [attempt_fixes] changes neither the results nor the state of the
    machine.  A round on a list that holds such a failure ends with
    [all_fixed] false, and what it attempted are fixable failures only. *)
Theorem unfixable_issues_are_skipped :
  (forall output command,
     contains "docker" (lower command) = false \/
     (contains "yaml" (lower output) = false /\ contains "yml" (lower output) = false) ->
     parse_build_failures output command = []) /\
  (forall output command f,
     f ∈ parse_build_failures output command -> fixable f = true) /\
  (forall fixers f r st,
     fixable f = false -> attempt_fix fixers f r st = (Ok r, st)) /\
  (forall results ptype changed st fr st' f,
     attempt_fixes results ptype changed st = (Ok fr, st') ->
     f ∈ failures results -> fixable f = false ->
     all_fixed fr = false /\
     attempted fr = len (List.filter fixable (failures results)) /\
     (f ∉ fixed fr) /\ (f ∉ failed fr)).
Proof.
  splits.
  - intros output command [Hd|[Hy1 Hy2]]; unfold parse_build_failures.
    + by rewrite Hd.
    + rewrite Hy1, Hy2. by destruct (contains "docker" (lower command)).
  - apply parse_build_failures_fixable.
  - intros fixers f r st Hf. unfold attempt_fix. by rewrite Hf.
  - intros results ptype changed st fr st' f Hrun Hin Hf.
    destruct (attempt_fixes_spec results ptype changed _ _ _ Hrun)
      as (evs & _ & _ & Htally).
    specialize (Htally fr eq_refl).
    split; [by eapply tally_unfixable|].
    destruct Htally as [(_ & _ & Hd & Hfi & Hfa) _].
    split; [done|].
    split; intros Hmem; [apply Hfi in Hmem | apply Hfa in Hmem];
      destruct Hmem as [_ Hmem]; congruence.
Qed.

End Engine.

Import Script.

(** *** Runs on the scripted hosts *)

(** A computation that did not raise returned its value in its final
    state. *)
Lemma returned_eq {A S} (r : outcome A * S) (d : A) :
  raised r = false -> r = (Ok (default d (returned r)), snd r).
Proof. destruct r as [[a|e] s]; simpl; [done | discriminate]. Qed.

Lemma pair_eq_inv {A B} (a a' : A) (b b' : B) : (a, b) = (a', b') -> a = a' /\ b = b'.
Proof. by intros [= -> ->]. Qed.

Lemma stubborn_run_eq : stubborn_run = (Ok stubborn_locals, stubborn_end).
Proof.
  unfold stubborn_locals, stubborn_end.
  apply (returned_eq stubborn_run no_locals). decide_it.
Qed.

Lemma default_is_Some {A} (o : option A) (d : A) :
  is_Some o -> o = Some (default d o).
Proof. intros [a ->]. reflexivity. Qed.

Lemma stubborn_fix_results_eq : loc_fix_results stubborn_locals = Some stubborn_fix_results.
Proof.
  unfold stubborn_fix_results.
  apply (default_is_Some (loc_fix_results stubborn_locals) no_fix_results). decide_it.
Qed.

Lemma stubborn_final_results_eq :
  loc_final_results stubborn_locals = Some stubborn_final_results.
Proof.
  unfold stubborn_final_results.
  apply (default_is_Some (loc_final_results stubborn_locals) no_results). decide_it.
Qed.

Lemma broken_run_eq : broken_run = (Ok broken_locals, broken_end).
Proof.
  unfold broken_locals, broken_end.
  apply (returned_eq broken_run no_locals). decide_it.
Qed.

Lemma mixed_round_eq : mixed_round = (Ok mixed_fix_results, snd mixed_round).
Proof.
  unfold mixed_fix_results.
  apply (returned_eq mixed_round no_fix_results). decide_it.
Qed.

Lemma stubborn_pass_eq : stubborn_pass = (Ok stubborn_pass_results, snd stubborn_pass).
Proof.
  unfold stubborn_pass_results.
  apply (returned_eq stubborn_pass no_results). decide_it.
Qed.

Lemma stubborn_round_eq : stubborn_round = (Ok stubborn_round_results, snd stubborn_round).
Proof.
  unfold stubborn_round_results.
  apply (returned_eq stubborn_round no_fix_results). decide_it.
Qed.

(** On the stubborn project [npm test] passes and prints a line that the
    last test pattern matches; the stage yields no issue all the same. *)
Lemma passing_stage_yields_no_issue_witness :
  List.length (parse_test_failures (H := scripted stubborn) test_output "npm test") = 1%nat /\
  exists results',
    stubborn_test_stage = (Ok results', @State (scripted stubborn) event ["npm test"] []) /\
    failures results' = [] /\
    tests_run results' =
      [ {| tr_command := "npm test"; tr_type := "test"; tr_success := true;
           tr_output := take_str 1000 test_output |} ].
Proof.
  split; [decide_it|].
  apply (passing_stage_yields_no_issue (H := scripted stubborn)
           "test" (parse_test_failures (H := scripted stubborn))
           "npm test" no_results (start stubborn)
           (@State (scripted stubborn) event ["npm test"] [])
           (CmdResult true test_output 0)); reflexivity.
Defined.

(** C1, counterexample.  On the stubborn project the lint error never goes
    away: every verification pass, from any state of the machine, finds
    the same two issues.  With [max_fix_attempts = 3] the specification
    expects three rounds and [all_fixed] false.  The run performs one
    round of fixes and one verification pass after it ([npm run lint] is
    run twice in all), and ends with [all_fixed] true. *)
Lemma remediation_rounds_counterexample :
  max_fix_attempts = 3 /\
  (forall st,
     failures <$> returned (run_all_tests (H := scripted stubborn) "javascript" [] st)
     = Some [semicolon_error; semicolon_message]) /\
  stubborn_run = (Ok stubborn_locals, stubborn_end) /\
  loc_fix_results stubborn_locals = Some stubborn_fix_results /\
  loc_final_results stubborn_locals = Some stubborn_final_results /\
  failures (loc_test_results stubborn_locals) = [semicolon_error; semicolon_message] /\
  failures stubborn_final_results = [semicolon_error; semicolon_message] /\
  fix_rounds (trace stubborn_end) = 1%nat /\
  Z.of_nat (fix_rounds (trace stubborn_end)) <> max_fix_attempts /\
  reverifications (trace stubborn_end) = 1%nat /\
  List.length (List.filter (String.eqb "npm run lint") (world stubborn_end)) = 2%nat /\
  all_fixed stubborn_fix_results = true.
Proof.
  split; [reflexivity|].
  split; [intros [w tr]; decide_it|].
  split; [apply stubborn_run_eq|].
  split; [apply stubborn_fix_results_eq|].
  split; [apply stubborn_final_results_eq|].
  repeat split; decide_it.
Qed.

(** On the stubborn project the run ends normally, having found failures:
    one round of fixes, one verification pass, in this chain of
    executions. *)
Lemma remediation_runs_one_round_witness :
  exists st' evs,
    run_comprehensive_test (H := scripted stubborn) (Ok idle_session) (start stubborn)
      = (Ok 0, st') /\
    trace st' = evs /\
    fix_rounds evs = 1%nat /\
    reverifications evs = 1%nat /\
    run_steps (H := scripted stubborn) idle_session (start stubborn)
      (Ok stubborn_locals) st'.
Proof.
  destruct (remediation_runs_one_round (H := scripted stubborn)
              (Ok idle_session) (start stubborn))
    as (st' & evs & Hrun & Ht & _ & _ & _ & (o & st1 & Hbody & Hsteps & Hst) & Hloc).
  pose proof stubborn_run_eq as Heq. unfold stubborn_run in Heq.
  destruct (pair_eq_inv _ _ _ _ (eq_trans (eq_sym Hbody) Heq)) as [Ho Hs].
  rewrite Ho in Hsteps, Hst. rewrite Hs in Hsteps, Hst. rewrite Hst in Hrun, Ht.
  exists stubborn_end, evs. split; [exact Hrun|]. split; [exact Ht|].
  destruct (Hloc stubborn_locals stubborn_end Heq) as [Hr Hv].
  rewrite Hr, Hv, stubborn_fix_results_eq.
  assert (has_failures (loc_test_results stubborn_locals) = true) as -> by decide_it.
  assert (all_fixed stubborn_fix_results = true) as -> by decide_it.
  split; [reflexivity|]. split; [reflexivity | exact Hsteps].
Defined.

(** C2, counterexample.  On the stubborn project the fixer of lint errors
    answers [True] for the missing semicolon, and the verification pass
    that follows reports the same issue again.  The specification expects
    the issue to count as unresolved; it stands in the list of fixed
    failures, not in the list of failed ones, [all_fixed] is true, and
    the notification counts it among the two fixed as well as among the
    two that remain. *)
Lemma reverification_authority_counterexample :
  stubborn_run = (Ok stubborn_locals, stubborn_end) /\
  loc_fix_results stubborn_locals = Some stubborn_fix_results /\
  loc_final_results stubborn_locals = Some stubborn_final_results /\
  returned (fix_lint_error_js (H := scripted stubborn) semicolon_error (start stubborn))
    = Some true /\
  semicolon_error ∈ failures stubborn_final_results /\
  semicolon_error ∈ fixed stubborn_fix_results /\
  failed stubborn_fix_results = [] /\
  all_fixed stubborn_fix_results = true /\
  Posted (AutoFixPartial 2 2) ∈ trace stubborn_end /\
  Stderr (MsgFixedRemain 2 2) ∈ trace stubborn_end.
Proof.
  split; [apply stubborn_run_eq|].
  split; [apply stubborn_fix_results_eq|].
  split; [apply stubborn_final_results_eq|].
  repeat split; decide_it.
Qed.

(** On the stubborn project both fixers answer [True]: the round records
    both issues as fixed, and [all_fixed] is true. *)
Lemma all_fixed_counts_claimed_fixes_witness :
  all_fixed stubborn_round_results
    = (fixed_count stubborn_round_results =? len (failures stubborn_pass_results)) /\
  fixed_count stubborn_round_results = len (fixed stubborn_round_results) /\
  (all_fixed stubborn_round_results = true <->
   fixed stubborn_round_results = failures stubborn_pass_results) /\
  all_fixed stubborn_round_results = true.
Proof.
  destruct (proj1 (proj2 (all_fixed_counts_claimed_fixes (H := scripted stubborn)))
              stubborn_pass_results "javascript" [] (snd stubborn_pass)
              stubborn_round_results (snd stubborn_round) stubborn_round_eq)
    as (Hall & Hcount & _ & _ & Hiff).
  split; [exact Hall|]. split; [exact Hcount|]. split; [exact Hiff|].
  apply Hiff. decide_it.
Defined.

(** C6, counterexample.  The build of the project exits with 1 and prints
    a line that the classifier does not know.  The specification expects
    an issue with [fixable] false and a run that ends with [all_fixed]
    false; the classifier returns no issue, the pass reports no failure
    although the build is recorded as failed, and the run ends with
    "No fixes needed" without attempting any fix. *)
Lemma unrecognized_build_failure_counterexample :
  parse_build_failures crash_output "npm run build" = [] /\
  broken_run = (Ok broken_locals, broken_end) /\
  {| tr_command := "npm run build"; tr_type := "build"; tr_success := false;
     tr_output := crash_output |} ∈ tests_run (loc_test_results broken_locals) /\
  failures (loc_test_results broken_locals) = [] /\
  has_failures (loc_test_results broken_locals) = false /\
  loc_fix_results broken_locals = None /\
  Stderr MsgNoFixesNeeded ∈ trace broken_end /\
  fix_rounds (trace broken_end) = 0%nat.
Proof.
  split; [decide_it|].
  split; [apply broken_run_eq|].
  repeat split; decide_it.
Qed.

(** An unfixable failure next to a lint error: the crash of the build
    yields no issue, the round skips the unfixable failure, attempts the
    other one, and ends with [all_fixed] false. *)
Lemma unfixable_issues_are_skipped_witness :
  parse_build_failures crash_output "npm run build" = [] /\
  attempt_fix (H := scripted stubborn) ∅ unfixable_build_error fix_results_init
    (start stubborn) = (Ok fix_results_init, start stubborn) /\
  all_fixed mixed_fix_results = false /\
  attempted mixed_fix_results = len (List.filter fixable (failures mixed_results)) /\
  (unfixable_build_error ∉ fixed mixed_fix_results) /\
  (unfixable_build_error ∉ failed mixed_fix_results).
Proof.
  destruct (unfixable_issues_are_skipped (H := scripted stubborn))
    as (Hparse & _ & Hskip & Hround).
  split; [apply Hparse; left; reflexivity|].
  split; [apply Hskip; reflexivity|].
  apply (Hround mixed_results "javascript" [] (start stubborn) mixed_fix_results
           (snd mixed_round) unfixable_build_error mixed_round_eq).
  - apply list_elem_of_In. left. reflexivity.
  - reflexivity.
Defined.

(** A failure whose file cannot be read: the body of the fixer raises, the
    fixer answers [False]. *)
Lemma strategy_errors_are_recovered_witness :
  fix_missing_import_js_body (H := scripted stubborn) missing_react (start stubborn)
    = (Raise (OtherError "FileNotFoundError"), start stubborn) /\
  fix_missing_import_js (H := scripted stubborn) missing_react (start stubborn)
    = (Ok false, start stubborn).
Proof.
  split; [reflexivity|].
  apply (proj1 (proj2 (strategy_errors_are_recovered (H := scripted stubborn)))
           missing_react (start stubborn) (OtherError "FileNotFoundError")).
  reflexivity.
Defined.

End BettyFacts.

(** ** Strings *)

Module PyFacts.
Import Py.

Lemma append_cons (x : ascii) (a b : string) :
  String x a +:+ b = String x (a +:+ b).
Proof. reflexivity. Qed.

Lemma append_empty_l (b : string) : EmptyString +:+ b = b.
Proof. reflexivity. Qed.

Lemma append_assoc (a b c : string) : (a +:+ b) +:+ c = a +:+ (b +:+ c).
Proof.
  induction a as [|x a IH]; [done|]. by rewrite !append_cons, IH.
Qed.

Lemma append_empty_r (a : string) : a +:+ EmptyString = a.
Proof. induction a as [|x a IH]; [done|]. by rewrite append_cons, IH. Qed.

Lemma newlines_append (a b : string) :
  newlines (a +:+ b) = (newlines a + newlines b)%nat.
Proof.
  induction a as [|x a IH]; [done|]. rewrite append_cons. simpl. rewrite IH. lia.
Qed.

Lemma newlines_nl : newlines nl = 1%nat.
Proof. reflexivity. Qed.

(** [split('\n')] yields one piece more than there are newlines. *)
Lemma split_lines_length (s : string) :
  List.length (split_lines s) = S (newlines s).
Proof.
  induction s as [|c s IH]; simpl; [done|].
  destruct (Ascii.eqb c newline); simpl; [by rewrite IH|].
  destruct (split_lines s); simpl in *; lia.
Qed.

(** [lstrip] stops at the first character that is not white space. *)
Lemma lstrip_append (l r : string) :
  has_ink l = true -> lstrip (l +:+ r) = lstrip l +:+ r.
Proof.
  induction l as [|c l IH]; simpl; [discriminate|].
  rewrite ?append_cons. simpl. destruct (isspace c); simpl; [exact IH | done].
Qed.

Lemma newlines_lstrip (s : string) : (newlines (lstrip s) <= newlines s)%nat.
Proof.
  induction s as [|c s IH]; simpl; [done|].
  destruct (isspace c); simpl; lia.
Qed.

(** [rstrip] leaves a string that holds some ink non-empty. *)
Lemma rstrip_ink (s : string) : has_ink s = true -> rstrip s <> EmptyString.
Proof.
  induction s as [|c s IH]; simpl; [discriminate|].
  intros Hink. destruct (rstrip s) eqn:Hr; [|discriminate].
  destruct (isspace c); [|discriminate].
  simpl in Hink. by apply IH in Hink.
Qed.

(** [rstrip] only touches the end of the string. *)
Lemma rstrip_append (l r : string) :
  has_ink r = true -> rstrip (l +:+ r) = l +:+ rstrip r.
Proof.
  intros Hink. induction l as [|c l IH]; [done|].
  rewrite !append_cons. simpl.
  rewrite IH. destruct (l +:+ rstrip r) eqn:Hlr; [|done].
  destruct l; [|discriminate].
  rewrite append_empty_l in Hlr. by apply rstrip_ink in Hink.
Qed.

(** [rstrip] removes a final newline. *)
Lemma rstrip_nl (l : string) : rstrip (l +:+ nl) = rstrip l.
Proof.
  induction l as [|c l IH]; [done|]. rewrite append_cons. simpl. by rewrite IH.
Qed.

Lemma newlines_rstrip (s : string) : (newlines (rstrip s) <= newlines s)%nat.
Proof.
  induction s as [|c s IH]; simpl; [done|].
  destruct (rstrip s) eqn:Hr; simpl in *.
  - destruct (isspace c); simpl; lia.
  - lia.
Qed.





(** [writelines] after [readlines] gives the text back. *)
Lemma concat_empty_cons (x : string) (xs : list string) :
  String.concat EmptyString (x :: xs) = x +:+ String.concat EmptyString xs.
Proof. destruct xs; simpl; [by rewrite append_empty_r | done]. Qed.

Lemma concat_readlines (s : string) : String.concat EmptyString (readlines_of s) = s.
Proof.
  induction s as [|c s IH]; [done|]. simpl readlines_of.
  destruct (Ascii.eqb c newline).
  - by rewrite concat_empty_cons, IH.
  - destruct (readlines_of s) as [|l ls].
    + simpl in *. by subst.
    + rewrite concat_empty_cons in *. by rewrite append_cons, IH.
Qed.

(** A string ends with one character at most. *)
Lemma endswith_char (a b : ascii) (s : string) :
  endswith (String a EmptyString) s = true ->
  endswith (String b EmptyString) s = true -> a = b.
Proof.
  unfold endswith. change (rev_str (String a EmptyString)) with (String a EmptyString).
  change (rev_str (String b EmptyString)) with (String b EmptyString).
  destruct (rev_str s) as [|c r]; simpl; [done|].
  destruct (ascii_dec a c), (ascii_dec b c); congruence.
Qed.

(** A text is found in every text that begins with it. *)
Lemma contains_prefix (needle hay : string) :
  String.prefix needle hay = true -> contains needle hay = true.
Proof.
  intros Hp. destruct hay as [|c hay].
  - change (contains needle EmptyString) with (String.prefix needle EmptyString || false).
    by rewrite Hp.
  - change (contains needle (String c hay))
      with (String.prefix needle (String c hay) || contains needle hay).
    by rewrite Hp.
Qed.

(** Lowering a text twice is lowering it once. *)
Lemma lower_char_idem (c : ascii) : lower_char (lower_char c) = lower_char c.
Proof. destruct c as [[] [] [] [] [] [] [] []]; reflexivity. Qed.

Lemma lower_idem (s : string) : lower (lower s) = lower s.
Proof. induction s as [|c s IH]; simpl; [done|]. by rewrite lower_char_idem, IH. Qed.

End PyFacts.

(** ** The completion gate *)

Module GuardianFacts.
Import Py Rt RtFacts Guardian.
Local Open Scope py_scope.

Section Gate.
Context `{Host}.

(** *** The checks leave no event *)

Lemma unpack4_silent m : silent (unpack4 m : Guardian.M _).
Proof.
  unfold unpack4. destruct m as [|a [|b [|c [|d [|]]]]];
    first [apply silent_ret | apply silent_raise].
Qed.

Lemma typescript_issue_silent m errors : silent (typescript_issue m errors).
Proof.
  unfold typescript_issue. apply silent_bind; [apply unpack4_silent|].
  intros [[[a b] c] d]. apply silent_ret.
Qed.

Lemma lint_issue_silent m errors : silent (lint_issue m errors).
Proof.
  unfold lint_issue. apply silent_bind; [apply unpack4_silent|].
  intros [[[a b] c] d]. apply silent_ret.
Qed.

Ltac silence :=
  repeat first
    [ apply silent_ret | apply silent_raise | apply silent_ask | apply silent_query
    | apply silent_host | apply silent_py_slice_to
    | apply silent_for_each; intros
    | apply typescript_issue_silent | apply lint_issue_silent
    | apply silent_try_except; [|intros ?]
    | apply silent_bind; [|intros ?]
    | match goal with
      | |- silent (if ?b then _ else _) => destruct b
      | |- silent (match ?o with _ => _ end) => destruct o
      end ].

Lemma check_javascript_silent : silent check_javascript.
Proof. unfold check_javascript, exists_in_project. silence. Qed.

Lemma python_issue_silent py_file errors : silent (python_issue py_file errors).
Proof. unfold python_issue. silence. Qed.

Lemma check_python_silent : silent check_python.
Proof.
  unfold check_python. apply silent_bind.
  - silence.
  - intros py_files. apply silent_for_each. intros. apply python_issue_silent.
Qed.

Lemma check_docker_silent : silent check_docker.
Proof. unfold check_docker, exists_in_project. silence. Qed.

Lemma check_linting_silent : silent check_linting.
Proof. unfold check_linting, exists_in_project. silence. Qed.

Lemma check_git_status_silent : silent check_git_status.
Proof. unfold check_git_status. silence. Qed.

Lemma run_checks_silent : silent run_checks.
Proof.
  unfold run_checks.
  apply silent_bind; [apply check_javascript_silent | intros ?].
  apply silent_bind; [apply check_python_silent | intros ?].
  apply silent_bind; [apply check_docker_silent | intros ?].
  apply silent_bind; [apply check_linting_silent | intros ?].
  apply silent_bind; [apply check_git_status_silent | intros ?].
  apply silent_ret.
Qed.

(** The verification pass changes the world only: it prints nothing. *)
Lemma run_checks_trace st o st' : run_checks st = (o, st') -> trace st' = trace st.
Proof.
  intros Hrun. destruct (run_checks_silent _ _ _ Hrun) as (evs & Ht & ->).
  by rewrite app_nil_r in Ht.
Qed.

(** *** The gate *)

Lemma bind_Ok_inv {A B} (m : Guardian.M A) (k : A -> Guardian.M B) st b st' :
  bind m k st = (Ok b, st') ->
  exists a st1, m st = (Ok a, st1) /\ k a st1 = (Ok b, st').
Proof.
  unfold bind. destruct (m st) as [[a|e] st1]; [eauto | discriminate].
Qed.

Lemma allowed_app evs1 evs2 : allowed (evs1 ++ evs2) = allowed evs1 && allowed evs2.
Proof. unfold allowed. by rewrite existsb_app, negb_orb. Qed.

Lemma append_block_log_spec issues blocked :
  spec (append_block_log issues blocked) (fun _ evs => allowed evs = true).
Proof.
  unfold append_block_log.
  eapply spec_bind; [apply silent_host | by intros e evs -> |].
  intros [] evs ->.
  eapply spec_bind; [apply silent_ask | by intros e evs -> |].
  intros now evs ->. by apply spec_emit.
Qed.

Lemma bullet_of_silent i bullets : silent (bullet_of i bullets).
Proof.
  unfold bullet_of. apply silent_bind; [|intros text; apply silent_ret].
  destruct (has_key i "file" && has_key i "line");
    (apply silent_bind; [apply silent_py_slice_to | intros short; apply silent_ret]).
Qed.

Lemma format_block_message_silent issues : silent (format_block_message issues).
Proof.
  unfold format_block_message. destruct issues as [|i issues]; [apply silent_ret|].
  apply silent_bind; [|intros message; apply silent_ret].
  apply silent_for_each. intros [issue_type type_issues] message. unfold group_of.
  apply silent_bind; [|intros bullets; apply silent_ret].
  apply silent_for_each. intros. apply bullet_of_silent.
Qed.

(** With no issue the gate prints that completion is allowed, and no block
    action. *)
Lemma allow_branch_spec :
  spec (print MsgAllowed ;; append_block_log [] false)
       (fun _ evs => allowed evs = true).
Proof.
  eapply spec_bind; [by apply spec_emit with (R := fun _ evs => evs = [Stderr MsgAllowed]) | |].
  - by intros e evs ->.
  - intros [] evs ->. eapply spec_weaken; [apply append_block_log_spec|].
    intros o evs Hevs. by rewrite allowed_app, Hevs.
Qed.

(** With an issue the gate prints the block action before anything that
    can still fail. *)
Lemma block_branch_spec issues :
  spec (let* block_message := format_block_message issues in
        emit (StdoutBlock block_message) ;;
        append_block_log issues true ;;
        print (MsgBlocked (len issues)))
       (fun o evs => o = Ok tt -> allowed evs = false).
Proof.
  eapply spec_bind; [apply format_block_message_silent | by intros e evs -> |].
  intros block_message evs ->. simpl.
  eapply spec_bind;
    [by apply spec_emit with (R := fun _ evs => evs = [StdoutBlock block_message]) | |].
  - by intros e evs ->.
  - intros [] evs ->.
    eapply spec_bind with (R1 := fun _ _ => True).
    + eapply spec_weaken; [apply append_block_log_spec | done].
    + intros e evs _ Hok. discriminate.
    + intros [] evs1 _. apply spec_emit. intros _. reflexivity.
Qed.

(** The gate never raises and always returns 0: it decides by what it
    prints. *)
Lemma check_completion_returns stdin st :
  exists st', check_completion stdin st = (Ok 0, st').
Proof.
  unfold check_completion, try_except, bind, ret, print, emit.
  destruct (check_completion_body stdin st) as [[[]|e] st1]; eauto.
Qed.

(** A tool call that is not an announcement of completion is allowed
    without any check. *)
Lemma gate_ignores_other_calls t st :
  should_check t = Ok false -> check_completion (Ok t) st = (Ok 0, st).
Proof.
  intros Hcheck.
  unfold check_completion, check_completion_body, try_except, bind, lift, ret.
  by rewrite Hcheck.
Qed.

(** C7.  When the evaluation of the gate ends without an internal error,
    the gate blocks exactly when its single verification pass returned a
    non-empty list of issues, and allows exactly when the list is empty.
    The pass is [run_checks], run once in the state the gate is in after
    announcing the check; the decision is read off the standard output:
    blocked when a block action was printed, allowed otherwise. *)
Theorem gate_blocks_iff_issues (t : tool_input) (st st' : state event) :
  should_check t = Ok true ->
  check_completion_body (Ok t) st = (Ok tt, st') ->
  exists issues st1 evs,
    run_checks (State (world st) (trace st ++ [Stderr MsgChecking])) = (Ok issues, st1) /\
    check_completion (Ok t) st = (Ok 0, st') /\
    trace st' = trace st ++ evs /\
    (allowed evs = false <-> issues <> []) /\
    (allowed evs = true <-> issues = []).
Proof.
  intros Hcheck Hbody.
  assert (Hgate : check_completion (Ok t) st = (Ok 0, st')).
  { unfold check_completion, try_except, bind at 1. by rewrite Hbody. }
  unfold check_completion_body in Hbody.
  apply bind_Ok_inv in Hbody as (t' & st0 & Hlift & Hbody).
  injection Hlift as <- <-. rewrite Hcheck in Hbody.
  apply bind_Ok_inv in Hbody as (checked & st0 & Hlift & Hbody).
  injection Hlift as <- <-. cbn [negb] in Hbody.
  apply bind_Ok_inv in Hbody as ([] & st0 & Hprint & Hbody).
  injection Hprint as <-.
  apply bind_Ok_inv in Hbody as (issues & st1 & Hchecks & Hbody).
  pose proof (run_checks_trace _ _ _ Hchecks) as Htrace. simpl in Htrace.
  exists issues, st1. destruct issues as [|i issues].
  - destruct (allow_branch_spec _ _ _ Hbody) as (evs & Ht & Hallowed).
    exists ([Stderr MsgChecking] ++ evs).
    split; [done|]. split; [done|].
    split; [by rewrite Ht, Htrace, app_assoc|].
    rewrite allowed_app, Hallowed. simpl. split; split; done.
  - destruct (block_branch_spec _ _ _ _ Hbody) as (evs & Ht & Hblocked).
    exists ([Stderr MsgChecking] ++ evs).
    split; [done|]. split; [done|].
    split; [by rewrite Ht, Htrace, app_assoc|].
    rewrite allowed_app, (Hblocked eq_refl). simpl. split; split; done.
Qed.

(** C8.  When the verification pass itself raises, the gate fails open:
    [check_completion] catches the exception, prints it on standard
    error, prints no block action, and returns 0, so the tool call is
    allowed. *)
Theorem gate_fails_open (t : tool_input) (st st1 : state event) (e : py_exn) :
  should_check t = Ok true ->
  run_checks (State (world st) (trace st ++ [Stderr MsgChecking])) = (Raise e, st1) ->
  exists st',
    check_completion (Ok t) st = (Ok 0, st') /\
    trace st' = trace st ++ [Stderr MsgChecking; Stderr (MsgError (exn_str e))] /\
    allowed [Stderr MsgChecking; Stderr (MsgError (exn_str e))] = true.
Proof.
  intros Hcheck Hchecks.
  pose proof (run_checks_trace _ _ _ Hchecks) as Htrace. simpl in Htrace.
  eexists. split; [|split; [|reflexivity]].
  - unfold check_completion, check_completion_body, try_except, bind, lift, ret,
      print, emit.
    rewrite Hcheck. simpl. rewrite Hchecks. reflexivity.
  - simpl. rewrite Htrace. by rewrite <- app_assoc.
Qed.

(** *** The check of uncommitted changes *)

Lemma porcelain_app (a b : list string) :
  porcelain (a ++ b) = porcelain a +:+ porcelain b.
Proof.
  induction a as [|l a IH]; simpl; [done|].
  by rewrite IH, !PyFacts.append_assoc.
Qed.

Lemma is_entry_inv (l : string) :
  is_entry l = true -> newlines l = 0%nat /\ has_ink l = true.
Proof.
  unfold is_entry. intros [Hn Hi]%andb_true_iff. by apply Nat.eqb_eq in Hn.
Qed.

Lemma newlines_porcelain (entries : list string) :
  Forall (fun l => is_entry l = true) entries ->
  newlines (porcelain entries) = List.length entries.
Proof.
  induction 1 as [|l entries Hl _ IH]; simpl; [done|].
  apply is_entry_inv in Hl as [Hn _].
  rewrite !PyFacts.newlines_append, Hn, IH. simpl. lia.
Qed.

(** Stripped, the output of [git status] for [n + 1] entries holds [n]
    newlines: those between the entries. *)
Lemma newlines_strip_porcelain (entries : list string) :
  Forall (fun l => is_entry l = true) entries ->
  entries <> [] ->
  newlines (strip (porcelain entries)) = Nat.pred (List.length entries).
Proof.
  intros Hall Hne. destruct entries as [|first rest]; [done|]. clear Hne.
  apply Forall_cons in Hall as [Hfirst Hrest].
  apply is_entry_inv in Hfirst as [Hn1 Hi1].
  pose proof (PyFacts.newlines_lstrip first) as Hl1.
  unfold strip. simpl porcelain. rewrite PyFacts.lstrip_append by done.
  destruct (decide (rest = [])) as [->|Hrest_ne].
  - simpl. rewrite PyFacts.append_empty_r, PyFacts.rstrip_nl.
    pose proof (PyFacts.newlines_rstrip (lstrip first)). lia.
  - destruct (exists_last Hrest_ne) as (mid & last & ->).
    apply Forall_app in Hrest as [Hmid Hlast].
    apply Forall_cons in Hlast as [Hlast _].
    apply is_entry_inv in Hlast as [Hn2 Hi2].
    rewrite porcelain_app. simpl porcelain.
    rewrite PyFacts.append_empty_r.
    rewrite <- !PyFacts.append_assoc.
    rewrite PyFacts.rstrip_nl.
    rewrite PyFacts.rstrip_append by done.
    rewrite !PyFacts.newlines_append, PyFacts.newlines_nl.
    rewrite (newlines_porcelain mid Hmid).
    pose proof (PyFacts.newlines_rstrip last).
    simpl. rewrite length_app. simpl. lia.
Qed.

Lemma porcelain_nonempty (entries : list string) :
  entries <> [] -> porcelain entries <> EmptyString.
Proof.
  destruct entries as [|l rest]; [done|]. intros _. simpl.
  intros Hempty. apply (f_equal newlines) in Hempty.
  rewrite !PyFacts.newlines_append, PyFacts.newlines_nl in Hempty.
  simpl in Hempty. lia.
Qed.

(** The check warns exactly when [git status] lists more than ten
    entries. *)
Lemma git_warnings_porcelain (entries : list string) :
  Forall (fun l => is_entry l = true) entries ->
  git_warnings (porcelain entries) =
    if 10 <? len entries then [git_warning (len entries)] else [].
Proof.
  intros Hall. unfold git_warnings.
  destruct (decide (entries = [])) as [->|Hne]; [done|].
  pose proof (porcelain_nonempty entries Hne) as Hout.
  apply String.eqb_neq in Hout. rewrite Hout. simpl.
  assert (len (split_lines (strip (porcelain entries))) = len entries) as ->; [|done].
  unfold len. rewrite PyFacts.split_lines_length.
  rewrite (newlines_strip_porcelain entries Hall Hne).
  destruct entries; [done|]. simpl. lia.
Qed.

(** The issues of a verification pass end with those of the check of
    uncommitted changes. *)
Lemma run_checks_git st issues st' :
  run_checks st = (Ok issues, st') ->
  exists others stg git,
    check_git_status stg = (Ok git, st') /\ issues = others ++ git.
Proof.
  unfold run_checks. intros Hrun.
  apply bind_Ok_inv in Hrun as (js & st1 & _ & Hrun).
  apply bind_Ok_inv in Hrun as (py & st2 & _ & Hrun).
  apply bind_Ok_inv in Hrun as (dk & st3 & _ & Hrun).
  apply bind_Ok_inv in Hrun as (lint & st4 & _ & Hrun).
  apply bind_Ok_inv in Hrun as (git & st5 & Hgit & Hrun).
  injection Hrun as <- <-. by exists (((js ++ py) ++ dk) ++ lint), st4, git.
Qed.

(** C10.  The verification pass of the gate ends with a check of
    [git status]: the issues of the pass are those of the other checks
    followed by those of this check.  When [git status --porcelain] lists
    the entries [entries], one line each, the check yields one warning
    when there are more than ten entries and nothing when there are ten or
    fewer; so uncommitted changes in up to ten files add no issue, and
    alone do not block completion. *)
Theorem git_check_blocks_above_ten :
  (forall st issues st',
     run_checks st = (Ok issues, st') ->
     exists others stg git,
       check_git_status stg = (Ok git, st') /\ issues = others ++ git) /\
  (forall (entries : list string) (st : state event) (p : completed_process) (w : World),
     Forall (fun l => is_entry l = true) entries ->
     subprocess_run "git status --porcelain" None (world st) = (Ok p, w) ->
     proc_stdout p = porcelain entries ->
     check_git_status st =
       (Ok (if 10 <? len entries then [git_warning (len entries)] else []),
        State w (trace st)) /\
     (len entries <= 10 -> check_git_status st = (Ok [], State w (trace st))) /\
     (10 < len entries ->
      check_git_status st = (Ok [git_warning (len entries)], State w (trace st)))).
Proof.
  split; [apply run_checks_git|].
  intros entries st p w Hall Hrun Hout.
  assert (Hcheck : check_git_status st =
            (Ok (if 10 <? len entries then [git_warning (len entries)] else []),
             State w (trace st))).
  { unfold check_git_status, bind, host, ret. rewrite Hrun, Hout.
    by rewrite git_warnings_porcelain. }
  split; [exact Hcheck|]. split; intros Hlen; rewrite Hcheck.
  - by rewrite (proj2 (Z.ltb_ge 10 (len entries))).
  - by rewrite (proj2 (Z.ltb_lt 10 (len entries))).
Qed.

End Gate.

Import Script.

(** *** Evaluations on the scripted hosts *)

Lemma unit_run_eq {S} (r : outcome unit * S) :
  raised r = false -> r = (Ok tt, snd r).
Proof. destruct r as [[[]|e] s]; simpl; [done | discriminate]. Qed.

(** With eleven uncommitted changes and nothing else wrong, the gate ends
    without error, its pass returns one issue, and it blocks; with ten it
    allows. *)
Lemma gate_blocks_iff_issues_witness :
  (exists issues st1 evs,
     run_checks (H := scripted (dirty 11))
       (@State (scripted (dirty 11)) event [] [Stderr MsgChecking]) = (Ok issues, st1) /\
     check_completion (H := scripted (dirty 11)) (Ok all_done) (start (dirty 11))
       = (Ok 0, snd (dirty_gate 11)) /\
     trace (snd (dirty_gate 11)) = evs /\
     (allowed evs = false <-> issues <> []) /\
     (allowed evs = true <-> issues = [])) /\
  allowed (trace (snd (dirty_gate 11))) = false /\
  allowed (trace (snd (dirty_gate 10))) = true.
Proof.
  split; [|split; decide_it].
  apply (gate_blocks_iff_issues (H := scripted (dirty 11)) all_done
           (start (dirty 11)) (snd (dirty_gate 11))).
  - vm_compute. reflexivity.
  - apply (unit_run_eq (dirty_gate 11)). vm_compute. reflexivity.
Defined.

(** When the type check hangs, the verification pass raises and the gate
    allows the tool call. *)
Lemma gate_fails_open_witness :
  exists st',
    check_completion (H := scripted hung) (Ok all_done) (start hung) = (Ok 0, st') /\
    trace st' =
      [Stderr MsgChecking; Stderr (MsgError (exn_str type_check_timeout))] /\
    allowed [Stderr MsgChecking; Stderr (MsgError (exn_str type_check_timeout))]
      = true.
Proof.
  apply (gate_fails_open (H := scripted hung) all_done (start hung)
           (@State (scripted hung) event [type_check_command] [Stderr MsgChecking])
           type_check_timeout).
  - vm_compute. reflexivity.
  - vm_compute. reflexivity.
Defined.

(** Eleven uncommitted changes yield the warning, ten yield nothing. *)
Lemma git_check_blocks_above_ten_witness :
  check_git_status (H := scripted (dirty 11)) (start (dirty 11)) =
    (Ok [git_warning (len (changed_entries 11))],
     @State (scripted (dirty 11)) event ["git status --porcelain"] []) /\
  check_git_status (H := scripted (dirty 10)) (start (dirty 10)) =
    (Ok [], @State (scripted (dirty 10)) event ["git status --porcelain"] []).
Proof.
  split.
  - apply (proj2 (git_check_blocks_above_ten (H := scripted (dirty 11)))
             (changed_entries 11) (start (dirty 11)) (git_output 11)
             ["git status --porcelain"]).
    + decide_it.
    + reflexivity.
    + reflexivity.
    + vm_compute. reflexivity.
  - apply (proj2 (git_check_blocks_above_ten (H := scripted (dirty 10)))
             (changed_entries 10) (start (dirty 10)) (git_output 10)
             ["git status --porcelain"]).
    + decide_it.
    + reflexivity.
    + reflexivity.
    + vm_compute. discriminate.
Defined.

End GuardianFacts.

(** ** The verification pass *)

Module PassFacts.
Import Py Rt RtFacts Betty.
Local Open Scope py_scope.

Section Engine.
Context `{Host}.

(** *** Changed files *)

(** X1.  The changed files of a session are the non-empty paths given to
    the tools [Edit], [MultiEdit] and [Write], each listed once. *)
Theorem changed_files_are_distinct_edit_targets (tools : list tool_use) :
  NoDup (extract_changed_files tools) /\
  forall p, p ∈ extract_changed_files tools <->
    p <> EmptyString /\
    exists tool, tool ∈ tools /\
      is_edit_tool (tu_name tool) = true /\ tu_file_path tool = Some p.
Proof.
  unfold extract_changed_files.
  set (step := fun (changed : list string) (tool : tool_use) => _).
  assert (Hgen : forall ts acc, NoDup acc ->
            NoDup (fold_left step ts acc) /\
            forall p, p ∈ fold_left step ts acc <->
              p ∈ acc \/
              (p <> EmptyString /\
               exists tool, tool ∈ ts /\
                 is_edit_tool (tu_name tool) = true /\ tu_file_path tool = Some p)).
  { induction ts as [|t ts IH]; intros acc Hacc; simpl.
    - split; [done|]. intros p. split; [by left|].
      intros [Hp|(_ & tool & Hin & _)]; [done | by apply elem_of_nil in Hin].
    - assert (Hstep : NoDup (step acc t) /\
                forall p, p ∈ step acc t <->
                  p ∈ acc \/
                  (p <> EmptyString /\ is_edit_tool (tu_name t) = true /\
                   tu_file_path t = Some p)).
      { unfold step. destruct (is_edit_tool (tu_name t)) eqn:Hedit.
        2:{ split; [done|]. intros p. split; [by left|]. by intros [Hp|(_ & [=] & _)]. }
        destruct (tu_file_path t) as [q|] eqn:Hpath.
        2:{ split; [done|]. intros p. split; [by left|]. by intros [Hp|(_ & _ & [=])]. }
        destruct (String.eqb q EmptyString) eqn:Hq; simpl.
        { apply String.eqb_eq in Hq. subst q. split; [done|].
          intros p. split; [by left|]. intros [Hp|(Hne & _ & [= <-])]; done. }
        apply String.eqb_neq in Hq.
        case_bool_decide as Hin; simpl.
        { split; [done|]. intros p. split; [by left|].
          intros [Hp|(_ & _ & [= <-])]; done. }
        split.
        { apply NoDup_app. split; [done|]. split; [|apply NoDup_singleton].
          intros x Hx Hx'. apply list_elem_of_singleton in Hx'. by subst. }
        intros p. rewrite elem_of_app, list_elem_of_singleton.
        split.
        - intros [Hp| ->]; [by left | right; done].
        - intros [Hp|(_ & _ & [= <-])]; [by left | by right]. }
      destruct Hstep as [Hnd Hmem].
      destruct (IH (step acc t) Hnd) as [Hnd' Hmem'].
      split; [done|]. intros p. rewrite Hmem', Hmem. split.
      + intros [[Hp|(Hne & He & Hf)]|(Hne & tool & Hin & He & Hf)].
        * by left.
        * right. split; [done|]. exists t. split; [apply elem_of_cons; by left | done].
        * right. split; [done|]. exists tool. split; [apply elem_of_cons; by right | done].
      + intros [Hp|(Hne & tool & Hin & He & Hf)]; [by left; left|].
        apply elem_of_cons in Hin as [->|Hin].
        * left; right. done.
        * right. split; [done|]. by exists tool. }
  destruct (Hgen tools [] (NoDup_nil_2 (A:=string))) as [Hnd Hmem].
  split; [done|]. intros p. rewrite Hmem. split.
  - intros [Hp|Hp]; [by apply elem_of_nil in Hp | done].
  - intros Hp. by right.
Qed.

(** *** Project type *)

Lemma detect_project_type_run (st : state event) :
  exists o, detect_project_type st = (o, st).
Proof.
  destruct (detect_project_type st) as [o st'] eqn:Hrun.
  apply BettyFacts.detect_project_type_pure in Hrun as ->. by exists o.
Qed.



(** *** One pass *)

Lemma take_str_length (n : nat) (s : string) : (String.length (take_str n s) <= n)%nat.
Proof.
  unfold take_str. revert s. induction n as [|n IH]; intros [|c s]; simpl; try lia.
  specialize (IH s). lia.
Qed.

Lemma count_runs_app (p : test_run -> bool) (a b : list test_run) :
  count_runs p (a ++ b) = count_runs p a + count_runs p b.
Proof. unfold count_runs, len. rewrite filter_app, length_app. lia. Qed.

Lemma count_runs_nonneg (p : test_run -> bool) (a : list test_run) : 0 <= count_runs p a.
Proof. unfold count_runs, len. lia. Qed.

(** One stage records its command and, when the command failed, the
    issues that the parser reads in its output. *)
Lemma run_stage_inv kind parse cmd r st r' st' :
  run_stage kind parse cmd r st = (Ok r', st') ->
  exists res,
    run_command cmd st = (Ok res, st') /\
    timestamp r' = timestamp r /\ project_type r' = project_type r /\
    changed_files r' = changed_files r /\
    tests_run r' = tests_run r ++
      [ {| tr_command := cmd; tr_type := kind; tr_success := success res;
           tr_output := take_str 1000 (output res) |} ] /\
    failures r' = failures r ++ (if success res then [] else parse (output res) cmd).
Proof.
  unfold run_stage, bind. destruct (run_command cmd st) as [[res|e] st1]; [|discriminate].
  destruct (success res) eqn:Hs; simpl; intros [= <- <-]; exists res; simpl;
    rewrite Hs, ?app_nil_r; repeat split; reflexivity.
Qed.

(** The stages of one kind: the commands are recorded in their order, and
    every issue comes from the output of a command that failed. *)
Lemma stage_loop kind parse (P : string -> failure -> Prop) cmds r st r' st' :
  (forall out cmd f, f ∈ parse out cmd -> P cmd f) ->
  (forall out cmd, (List.length (parse out cmd) <= 10)%nat) ->
  for_each cmds (run_stage kind parse) r st = (Ok r', st') ->
  timestamp r' = timestamp r /\ project_type r' = project_type r /\
  changed_files r' = changed_files r /\
  exists ts fs,
    tests_run r' = tests_run r ++ ts /\ failures r' = failures r ++ fs /\
    map (fun t => (tr_command t, tr_type t)) ts = map (fun c => (c, kind)) cmds /\
    Forall (fun t => (String.length (tr_output t) <= 1000)%nat) ts /\
    (forall f, f ∈ fs ->
       exists t, t ∈ ts /\ tr_success t = false /\ tr_type t = kind /\
         P (tr_command t) f) /\
    len fs <= 10 * count_runs (fun t => negb (tr_success t)) ts.
Proof.
  intros HP Hten. revert r st.
  induction cmds as [|cmd cmds IH]; intros r st Hrun; simpl in Hrun.
  - injection Hrun as <- <-. repeat split. exists [], [].
    rewrite !app_nil_r. repeat split; try done.
    intros f Hf. by apply elem_of_nil in Hf.
  - unfold bind in Hrun.
    destruct (run_stage kind parse cmd r st) as [[r1|e] st1] eqn:Hstage; [|discriminate].
    apply run_stage_inv in Hstage as (res & _ & Ht & Hp & Hc & Hruns & Hfails).
    destruct (IH _ _ Hrun) as (Ht' & Hp' & Hc' & ts & fs & Hruns' & Hfails' & Hcmds & Hout & Hsrc & Hlen).
    split; [congruence|]. split; [congruence|]. split; [congruence|].
    eexists (_ :: ts), (_ ++ fs).
    split; [rewrite Hruns', Hruns, <- app_assoc; reflexivity|].
    split; [rewrite Hfails', Hfails, <- app_assoc; reflexivity|].
    split; [simpl; by rewrite Hcmds|].
    split; [constructor; [apply take_str_length | done]|].
    split.
    + intros f [Hf|Hf]%elem_of_app.
      * destruct (success res) eqn:Hs; [by apply elem_of_nil in Hf|].
        eexists. split; [apply elem_of_cons; by left|]. simpl.
        split; [done|]. split; [done|]. eapply HP, Hf.
      * destruct (Hsrc f Hf) as (t & Hin & Hfail & Hkind & HPf).
        exists t. split; [apply elem_of_cons; by right | done].
    + rewrite BettyFacts.len_app.
      change (?x :: ts) with ([x] ++ ts). rewrite count_runs_app.
      pose proof (count_runs_nonneg (fun t => negb (tr_success t)) ts) as Hpos.
      destruct (success res) eqn:Hs; unfold count_runs at 1.
      * rewrite filter_cons_False by (simpl; rewrite ?Hs; done).
        rewrite filter_nil. change (len (@nil failure)) with 0.
        change (len (@nil test_run)) with 0. lia.
      * rewrite filter_cons_True by (simpl; rewrite ?Hs; done).
        rewrite filter_nil.
        specialize (Hten (output res) cmd).
        match goal with |- context [len [?x]] => change (len [x]) with 1 end.
        unfold len at 1. lia.
Qed.

(** What the classifier says of an issue it read in the output of
    [cmd]: the command, that it is fixable, and its type. *)
Lemma elem_of_take_le {A} (x : A) (n : nat) (l : list A) : x ∈ take n l -> x ∈ l.
Proof. intros Hin. eapply elem_of_sublist; [exact Hin | apply sublist_take]. Qed.

Lemma elem_of_parsed {A} (make : list string -> A) (patterns : list string)
    (out : string) (x : A) :
  x ∈ take 10 (flat_map (fun pattern => map make (re_findall pattern out)) patterns) ->
  exists m, x = make m.
Proof.
  intros Hin%elem_of_take_le.
  apply list_elem_of_In, in_flat_map in Hin as (pattern & _ & Hin).
  apply in_map_iff in Hin as (m & <- & _). by exists m.
Qed.

Lemma parse_test_failures_sound out cmd f :
  f ∈ parse_test_failures out cmd ->
  get f "command" = VStr cmd /\ fixable f = true /\ get f "type" = VStr "test_failure".
Proof. intros (m & ->)%elem_of_parsed. repeat split; reflexivity. Qed.

Lemma parse_lint_failures_sound out cmd f :
  f ∈ parse_lint_failures out cmd ->
  get f "command" = VStr cmd /\ fixable f = true /\ get f "type" = VStr "lint_error".
Proof. intros (m & ->)%elem_of_parsed. repeat split; reflexivity. Qed.

Lemma parse_type_failures_sound out cmd f :
  f ∈ parse_type_failures out cmd ->
  get f "command" = VStr cmd /\ fixable f = true /\ get f "type" = VStr "type_error".
Proof. intros (m & ->)%elem_of_parsed. repeat split; reflexivity. Qed.

Lemma parse_build_failures_sound out cmd f :
  f ∈ parse_build_failures out cmd ->
  get f "command" = VStr cmd /\ fixable f = true /\ get f "type" = VStr "yaml_error".
Proof.
  unfold parse_build_failures. intros Hin.
  repeat case_match; try by apply elem_of_nil in Hin.
  apply list_elem_of_singleton in Hin. subst. repeat split; reflexivity.
Qed.

Lemma parse_build_failures_length out cmd :
  (List.length (parse_build_failures out cmd) <= 10)%nat.
Proof. unfold parse_build_failures. repeat case_match; simpl; lia. Qed.

(** The whole pass. *)
Lemma run_all_tests_inv ptype changed st r st' :
  run_all_tests ptype changed st = (Ok r, st') ->
  timestamp r = now_isoformat (world st) /\ project_type r = ptype /\
  changed_files r = changed /\
  has_failures r = (0 <? len (failures r)) /\
  map (fun t => (tr_command t, tr_type t)) (tests_run r) =
    map (fun c => (c, "test")) (test_commands (config_of ptype)) ++
    map (fun c => (c, "lint")) (lint_commands (config_of ptype)) ++
    map (fun c => (c, "type-check")) (type_commands (config_of ptype)) ++
    map (fun c => (c, "build")) (build_commands (config_of ptype)) /\
  Forall (fun t => (String.length (tr_output t) <= 1000)%nat) (tests_run r) /\
  (forall f, f ∈ failures r ->
     exists t, t ∈ tests_run r /\ tr_success t = false /\
       get f "command" = VStr (tr_command t) /\ fixable f = true /\
       (get f "type" = VStr "test_failure" /\ tr_type t = "test" \/
        get f "type" = VStr "lint_error" /\ tr_type t = "lint" \/
        get f "type" = VStr "type_error" /\ tr_type t = "type-check" \/
        get f "type" = VStr "yaml_error" /\ tr_type t = "build")) /\
  len (failures r) <= 10 * count_runs (fun t => negb (tr_success t)) (tests_run r).
Proof.
  unfold run_all_tests, run_stages, bind, ask, ret. intros Hrun.
  set (P := fun (kind ty : string) (cmd : string) (f : failure) =>
              get f "command" = VStr cmd /\ fixable f = true /\ get f "type" = VStr ty).
  destruct (for_each (test_commands _) _ _ _) as [[r1|e] st1] eqn:E1; [|discriminate].
  destruct (for_each (lint_commands _) _ _ _) as [[r2|e] st2] eqn:E2; [|discriminate].
  destruct (for_each (type_commands _) _ _ _) as [[r3|e] st3] eqn:E3; [|discriminate].
  destruct (for_each (build_commands _) _ _ _) as [[r4|e] st4] eqn:E4; [|discriminate].
  injection Hrun as <- <-. simpl.
  apply (stage_loop _ _ (P "test" "test_failure")) in E1
    as (T1 & P1 & C1 & ts1 & fs1 & R1 & F1 & M1 & O1 & S1 & L1);
    [|apply parse_test_failures_sound | intros; apply BettyFacts.length_take_le].
  apply (stage_loop _ _ (P "lint" "lint_error")) in E2
    as (T2 & P2 & C2 & ts2 & fs2 & R2 & F2 & M2 & O2 & S2 & L2);
    [|apply parse_lint_failures_sound | intros; apply BettyFacts.length_take_le].
  apply (stage_loop _ _ (P "type-check" "type_error")) in E3
    as (T3 & P3 & C3 & ts3 & fs3 & R3 & F3 & M3 & O3 & S3 & L3);
    [|apply parse_type_failures_sound | intros; apply BettyFacts.length_take_le].
  apply (stage_loop _ _ (P "build" "yaml_error")) in E4
    as (T4 & P4 & C4 & ts4 & fs4 & R4 & F4 & M4 & O4 & S4 & L4);
    [|apply parse_build_failures_sound | apply parse_build_failures_length].
  simpl in *.
  assert (Hruns : tests_run r4 = ts1 ++ ts2 ++ ts3 ++ ts4).
  { rewrite R4, R3, R2, R1. by rewrite <- !app_assoc. }
  assert (Hfails : failures r4 = fs1 ++ fs2 ++ fs3 ++ fs4).
  { rewrite F4, F3, F2, F1. by rewrite <- !app_assoc. }
  split; [congruence|]. split; [congruence|]. split; [congruence|].
  split; [reflexivity|].
  rewrite Hruns, Hfails.
  split; [by rewrite !map_app, M1, M2, M3, M4|].
  split; [by repeat apply Forall_app_2|].
  split.
  - intros f Hf. rewrite !elem_of_app in Hf.
    destruct Hf as [Hf|[Hf|[Hf|Hf]]];
      [destruct (S1 f Hf) as (t & Hin & Hfail & Hkind & Hc & Hx & Hty)
      |destruct (S2 f Hf) as (t & Hin & Hfail & Hkind & Hc & Hx & Hty)
      |destruct (S3 f Hf) as (t & Hin & Hfail & Hkind & Hc & Hx & Hty)
      |destruct (S4 f Hf) as (t & Hin & Hfail & Hkind & Hc & Hx & Hty)];
      exists t; rewrite !elem_of_app; (split; [tauto|]);
      (split; [done|]); (split; [done|]); (split; [done|]); tauto.
  - rewrite !BettyFacts.len_app, !count_runs_app. lia.
Qed.

(** The stages of one kind, command by command: each command is run once,
    in the world the command before it left, and recorded with what
    [subprocess.run] did for it. *)
Lemma stage_loop_run kind parse cmds r st :
  exists r',
    for_each cmds (run_stage kind parse) r st =
      (Ok r', State (snd (run_each cmds (world st))) (trace st)) /\
    timestamp r' = timestamp r /\ project_type r' = project_type r /\
    changed_files r' = changed_files r /\
    tests_run r' =
      tests_run r ++ zip_with (record_of kind) cmds (fst (run_each cmds (world st))) /\
    failures r' =
      failures r ++
      concat (zip_with (issues_of parse) cmds (fst (run_each cmds (world st)))) /\
    List.length (fst (run_each cmds (world st))) = List.length cmds.
Proof.
  revert r st. induction cmds as [|cmd cmds IH]; intros r st.
  - exists r. destruct st as [w tr]. simpl. rewrite !app_nil_r. by repeat split.
  - cbn [for_each run_each]. unfold bind at 1, run_stage at 1, bind at 1.
    rewrite BettyFacts.run_command_run.
    destruct (subprocess_run cmd (Some 60%nat) (world st)) as [o w1].
    change (match o with
            | Ok p =>
                {| success := returncode p =? 0;
                   output := proc_stdout p +:+ proc_stderr p;
                   cmd_returncode := returncode p |}
            | Raise (TimeoutExpired _) =>
                {| success := false;
                   output := "Command timed out after 60 seconds";
                   cmd_returncode := -1 |}
            | Raise (OtherError msg) =>
                {| success := false; output := msg; cmd_returncode := -1 |}
            end) with (result_of o).
    set (recorded := append_test_run _ r).
    set (r1 := if success (result_of o)
               then recorded
               else extend_failures (parse (output (result_of o)) cmd) recorded).
    assert (Hstage : (if negb (success (result_of o))
                      then ret (extend_failures (parse (output (result_of o)) cmd) recorded)
                      else ret recorded) (State w1 (trace st))
                     = (Ok r1, State w1 (trace st))).
    { unfold r1. by destruct (success (result_of o)). }
    rewrite Hstage.
    destruct (IH r1 (State w1 (trace st))) as (r' & Hloop & Ht & Hp & Hc & Hruns & Hfails & Hlen).
    cbn [world trace] in *.
    destruct (run_each cmds w1) as [os w2]. cbn [fst snd] in *.
    exists r'. split; [exact Hloop|].
    assert (Hr1 : timestamp r1 = timestamp r /\ project_type r1 = project_type r /\
                  changed_files r1 = changed_files r /\
                  tests_run r1 = tests_run r ++ [record_of kind cmd o] /\
                  failures r1 = failures r ++ issues_of parse cmd o).
    { unfold r1, recorded, issues_of, record_of.
      destruct (success (result_of o)); simpl; rewrite ?app_nil_r; by repeat split. }
    destruct Hr1 as (Ht1 & Hp1 & Hc1 & Hruns1 & Hfails1).
    split; [congruence|]. split; [congruence|]. split; [congruence|].
    split; [rewrite Hruns, Hruns1, <- app_assoc; reflexivity|].
    split; [rewrite Hfails, Hfails1, <- app_assoc; reflexivity|].
    simpl. by rewrite Hlen.
Qed.

Lemma record_of_output kind cmds os :
  Forall (fun t => (String.length (tr_output t) <= 1000)%nat)
         (zip_with (record_of kind) cmds os).
Proof.
  revert os. induction cmds as [|cmd cmds IH]; intros [|o os]; simpl; try constructor.
  - apply take_str_length.
  - apply IH.
Qed.

(** X3.  A verification pass never raises and prints nothing.  It runs
    every command of the project's configuration exactly once, each with
    the timeout of sixty seconds and in the world that the command before
    it left: the tests first, then the linters, the type checks and the
    builds, each list in its order.  The pass ends in the world that the
    last command left.  It records each command with the kind of its
    stage, with whether it succeeded and with at most the first thousand
    characters of its output; its issues are those that the parser of
    each stage reads in the output of the commands that failed, in the
    order of the commands; and the results carry the project type, the
    changed files and the time of the start. *)
Theorem pass_runs_every_command_once (ptype : string) (changed : list string)
    (st : state event) :
  let cfg := config_of ptype in
  let '(o1, w1) := run_each (test_commands cfg) (world st) in
  let '(o2, w2) := run_each (lint_commands cfg) w1 in
  let '(o3, w3) := run_each (type_commands cfg) w2 in
  let '(o4, w4) := run_each (build_commands cfg) w3 in
  exists r,
    run_all_tests ptype changed st = (Ok r, State w4 (trace st)) /\
    timestamp r = now_isoformat (world st) /\
    project_type r = ptype /\
    changed_files r = changed /\
    tests_run r =
      zip_with (record_of "test") (test_commands cfg) o1 ++
      zip_with (record_of "lint") (lint_commands cfg) o2 ++
      zip_with (record_of "type-check") (type_commands cfg) o3 ++
      zip_with (record_of "build") (build_commands cfg) o4 /\
    failures r =
      concat (zip_with (issues_of parse_test_failures) (test_commands cfg) o1) ++
      concat (zip_with (issues_of parse_lint_failures) (lint_commands cfg) o2) ++
      concat (zip_with (issues_of parse_type_failures) (type_commands cfg) o3) ++
      concat (zip_with (issues_of parse_build_failures) (build_commands cfg) o4) /\
    has_failures r = (0 <? len (failures r)) /\
    List.length o1 = List.length (test_commands cfg) /\
    List.length o2 = List.length (lint_commands cfg) /\
    List.length o3 = List.length (type_commands cfg) /\
    List.length o4 = List.length (build_commands cfg) /\
    Forall (fun t => (String.length (tr_output t) <= 1000)%nat) (tests_run r).
Proof.
  intros cfg. unfold run_all_tests, run_stages, bind at 1, ask. fold cfg.
  set (r0 := {| timestamp := now_isoformat (world st); project_type := ptype;
                changed_files := changed; tests_run := []; failures := [];
                has_failures := false |}).
  destruct (stage_loop_run "test" parse_test_failures (test_commands cfg) r0 st)
    as (r1 & E1 & T1 & P1 & C1 & R1 & F1 & L1).
  destruct (run_each (test_commands cfg) (world st)) as [o1 w1]. cbn [fst snd] in *.
  destruct (stage_loop_run "lint" parse_lint_failures (lint_commands cfg) r1
              (State w1 (trace st)))
    as (r2 & E2 & T2 & P2 & C2 & R2 & F2 & L2).
  cbn [world trace] in *.
  destruct (run_each (lint_commands cfg) w1) as [o2 w2]. cbn [fst snd] in *.
  destruct (stage_loop_run "type-check" parse_type_failures (type_commands cfg) r2
              (State w2 (trace st)))
    as (r3 & E3 & T3 & P3 & C3 & R3 & F3 & L3).
  cbn [world trace] in *.
  destruct (run_each (type_commands cfg) w2) as [o3 w3]. cbn [fst snd] in *.
  destruct (stage_loop_run "build" parse_build_failures (build_commands cfg) r3
              (State w3 (trace st)))
    as (r4 & E4 & T4 & P4 & C4 & R4 & F4 & L4).
  cbn [world trace] in *.
  destruct (run_each (build_commands cfg) w3) as [o4 w4]. cbn [fst snd] in *.
  eexists. split.
  { unfold bind at 1. rewrite E1. unfold bind at 1. rewrite E2.
    unfold bind at 1. rewrite E3. unfold bind at 1. rewrite E4. reflexivity. }
  assert (Hruns : tests_run r4 =
            zip_with (record_of "test") (test_commands cfg) o1 ++
            zip_with (record_of "lint") (lint_commands cfg) o2 ++
            zip_with (record_of "type-check") (type_commands cfg) o3 ++
            zip_with (record_of "build") (build_commands cfg) o4).
  { rewrite R4, R3, R2, R1. simpl. by rewrite <- !app_assoc. }
  assert (Hfails : failures r4 =
            concat (zip_with (issues_of parse_test_failures) (test_commands cfg) o1) ++
            concat (zip_with (issues_of parse_lint_failures) (lint_commands cfg) o2) ++
            concat (zip_with (issues_of parse_type_failures) (type_commands cfg) o3) ++
            concat (zip_with (issues_of parse_build_failures) (build_commands cfg) o4)).
  { rewrite F4, F3, F2, F1. simpl. by rewrite <- !app_assoc. }
  simpl. split; [by rewrite T4, T3, T2, T1|]. split; [by rewrite P4, P3, P2, P1|].
  split; [by rewrite C4, C3, C2, C1|].
  split; [exact Hruns|]. split; [exact Hfails|]. split; [reflexivity|].
  repeat (split; [done|]).
  rewrite Hruns. repeat apply Forall_app_2; apply record_of_output.
Qed.

(** X4.  Every issue of a pass was read in the output of a command that
    failed in this pass, and names that command; a pass yields at most ten
    issues for each failed command, and none when every command
    succeeded.  [has_failures] says whether there is an issue, not
    whether a command failed. *)
Theorem pass_failures_name_failed_commands (ptype : string) (changed : list string)
    (st : state event) (r : test_results) (st' : state event) :
  run_all_tests ptype changed st = (Ok r, st') ->
  (forall f, f ∈ failures r ->
     exists t, t ∈ tests_run r /\ tr_success t = false /\
       get f "command" = VStr (tr_command t)) /\
  len (failures r) <= 10 * count_runs (fun t => negb (tr_success t)) (tests_run r) /\
  (has_failures r = true <-> failures r <> []) /\
  (Forall (fun t => tr_success t = true) (tests_run r) ->
   failures r = [] /\ has_failures r = false).
Proof.
  intros Hrun.
  destruct (run_all_tests_inv ptype changed st r st' Hrun)
    as (_ & _ & _ & Hhas & _ & _ & Hsrc & Hlen).
  split.
  { intros f Hf. destruct (Hsrc f Hf) as (t & Hin & Hfail & Hcmd & _). by exists t. }
  split; [exact Hlen|].
  assert (Hiff : has_failures r = true <-> failures r <> []).
  { rewrite Hhas. unfold len. destruct (failures r); simpl; [split; done|].
    split; [done|]. intros _. apply Z.ltb_lt. lia. }
  split; [exact Hiff|].
  intros Hall.
  assert (Hnil : failures r = []).
  { destruct (failures r) as [|f fs] eqn:Hfs; [done|].
    destruct (Hsrc f) as (t & Hin & Hfail & _); [apply elem_of_cons; by left|].
    rewrite Forall_forall in Hall. specialize (Hall t Hin). congruence. }
  split; [exact Hnil|]. rewrite Hhas, Hnil. reflexivity.
Qed.

Lemma filter_all {A} (p : A -> bool) (l : list A) :
  Forall (fun x => p x = true) l -> List.filter p l = l.
Proof. induction 1 as [|x l Hx _ IH]; simpl; [done|]. by rewrite Hx, IH. Qed.

(** X5.  Every issue that a pass yields is marked fixable and has one of
    four types.  So the round of fixes that follows skips none of them:
    it attempts as many fixes as there are issues, and each issue ends in
    the list of the fixed or in the list of the failed. *)
Theorem pass_failures_are_all_attempted (ptype : string) (changed : list string)
    (st : state event) (r : test_results) (st1 : state event) :
  run_all_tests ptype changed st = (Ok r, st1) ->
  Forall (fun f => fixable f = true /\
                   get f "type" ∈ [VStr "test_failure"; VStr "lint_error";
                                   VStr "type_error"; VStr "yaml_error"])
         (failures r) /\
  forall st2 fr st3,
    attempt_fixes r ptype changed st2 = (Ok fr, st3) ->
    attempted fr = len (failures r) /\
    len (fixed fr) + len (failed fr) = len (failures r).
Proof.
  intros Hrun.
  destruct (run_all_tests_inv ptype changed st r st1 Hrun)
    as (_ & _ & _ & _ & _ & _ & Hsrc & _).
  assert (Hfix : Forall (fun f => fixable f = true) (failures r)).
  { apply Forall_forall. intros f Hf.
    by destruct (Hsrc f Hf) as (t & _ & _ & _ & Hx & _). }
  split.
  - apply Forall_forall. intros f Hf.
    destruct (Hsrc f Hf) as (t & _ & _ & _ & Hx & Hty). split; [done|].
    destruct Hty as [[-> _]|[[-> _]|[[-> _]|[-> _]]]];
      repeat first [apply elem_of_cons; left; reflexivity | apply elem_of_cons; right].
  - intros st2 fr st3 Hfixes.
    destruct (BettyFacts.attempt_fixes_spec r ptype changed _ _ _ Hfixes)
      as (evs & _ & _ & Htally).
    destruct (Htally fr eq_refl) as [(_ & Ha & Hd & _) _].
    rewrite (filter_all _ _ Hfix) in Hd. split; [exact Hd | lia].
Qed.

(** X6.  The classifier lists a type error twice.  Its two patterns for
    the output of a type check are the same pattern, so that the matches
    of the one are the matches of the other: the issues of a failed type
    check are the matches followed by the same matches again, cut after
    the tenth.  Up to five matches are each listed twice, and of any
    more only the first ten are listed. *)
Theorem type_errors_are_listed_twice (output command : string) :
  let found :=
    map (type_error command) (re_findall "(.+?):(\d+):\s+error:\s+(.+)" output) in
  parse_type_failures output command = take 10 (found ++ found) /\
  List.length (parse_type_failures output command)
    = Nat.min 10 (2 * List.length found) /\
  ((List.length found <= 5)%nat -> parse_type_failures output command = found ++ found) /\
  ((10 <= List.length found)%nat -> parse_type_failures output command = take 10 found).
Proof.
  intros found.
  assert (Heq : parse_type_failures output command = take 10 (found ++ found)).
  { unfold parse_type_failures, type_patterns. simpl. by rewrite app_nil_r. }
  rewrite Heq. split; [done|]. split; [|split].
  - rewrite length_take, length_app. lia.
  - intros Hlen. apply take_ge. rewrite length_app. lia.
  - intros Hlen. by rewrite take_app_le.
Qed.

End Engine.

Import Script.

(** *** On the stubborn project *)

(** The pass on the stubborn project: one command of eight fails, and the
    pass has two issues. *)
Lemma pass_failures_name_failed_commands_witness :
  len (failures stubborn_pass_results)
    <= 10 * count_runs (fun t => negb (tr_success t)) (tests_run stubborn_pass_results) /\
  (has_failures stubborn_pass_results = true <-> failures stubborn_pass_results <> []) /\
  count_runs (fun t => negb (tr_success t)) (tests_run stubborn_pass_results) = 1 /\
  len (failures stubborn_pass_results) = 2.
Proof.
  destruct (pass_failures_name_failed_commands (H := scripted stubborn)
              "javascript" [] (start stubborn) stubborn_pass_results (snd stubborn_pass)
              BettyFacts.stubborn_pass_eq) as (_ & Hlen & Hhas & _).
  split; [exact Hlen|]. split; [exact Hhas|]. split; decide_it.
Defined.

(** The round of fixes after it attempts both issues. *)
Lemma pass_failures_are_all_attempted_witness :
  attempted stubborn_round_results = len (failures stubborn_pass_results) /\
  len (fixed stubborn_round_results) + len (failed stubborn_round_results)
    = len (failures stubborn_pass_results).
Proof.
  exact (proj2 (pass_failures_are_all_attempted (H := scripted stubborn)
                  "javascript" [] (start stubborn) stubborn_pass_results
                  (snd stubborn_pass) BettyFacts.stubborn_pass_eq)
           (snd stubborn_pass) stubborn_round_results (snd stubborn_round)
           BettyFacts.stubborn_round_eq).
Defined.

End PassFacts.
(** ** The round of fixes *)

Module FixFacts.
Import Py Rt RtFacts Betty.
Local Open Scope py_scope.

Section Engine.
Context `{Host}.

(** *** The registry *)

(** The fixers of each project type, by the type of failure they are
    registered for. *)
Lemma lookup_fixer_table ptype name fixer :
  common_fixes (config_of ptype) !! name = Some fixer ->
  ptype = "javascript" /\
    (name = "missing_import" /\ fixer = fix_missing_import_js \/
     name = "syntax_error" /\ fixer = fix_syntax_error_js \/
     name = "type_error" /\ fixer = fix_type_error_ts \/
     name = "lint_error" /\ fixer = fix_lint_error_js) \/
  ptype = "python" /\
    (name = "import_error" /\ fixer = fix_import_error_py \/
     name = "syntax_error" /\ fixer = fix_syntax_error_py \/
     name = "indentation_error" /\ fixer = fix_indentation_error_py \/
     name = "type_error" /\ fixer = fix_type_error_py) \/
  ptype = "docker" /\
    (name = "yaml_error" /\ fixer = fix_yaml_error \/
     name = "dockerfile_error" /\ fixer = fix_dockerfile_error).
Proof.
  unfold config_of, test_configs. intros Hlook.
  destruct (decide (ptype = "javascript")) as [->|Hjs].
  { left. split; [done|]. rewrite lookup_insert_eq in Hlook. simpl in Hlook.
    repeat (apply lookup_insert_Some in Hlook as [[<- <-]|[_ Hlook]]; [tauto|]).
    by rewrite lookup_empty in Hlook. }
  rewrite lookup_insert_ne in Hlook by done.
  destruct (decide (ptype = "python")) as [->|Hpy].
  { right; left. split; [done|]. rewrite lookup_insert_eq in Hlook. simpl in Hlook.
    repeat (apply lookup_insert_Some in Hlook as [[<- <-]|[_ Hlook]]; [tauto|]).
    by rewrite lookup_empty in Hlook. }
  rewrite lookup_insert_ne in Hlook by done.
  destruct (decide (ptype = "docker")) as [->|Hdk].
  { right; right. split; [done|]. rewrite lookup_insert_eq in Hlook. simpl in Hlook.
    repeat (apply lookup_insert_Some in Hlook as [[<- <-]|[_ Hlook]]; [tauto|]).
    by rewrite lookup_empty in Hlook. }
  rewrite lookup_insert_ne in Hlook by done.
  rewrite lookup_empty in Hlook. simpl in Hlook. by rewrite lookup_empty in Hlook.
Qed.

(** The fixers that the issues of a pass can reach. *)
Lemma pass_failures_fixers (ptype : string) (changed : list string)
    (st : state event) (r : test_results) (st1 : state event) (f : failure)
    (fixer : failure -> Betty.M bool) :
  run_all_tests ptype changed st = (Ok r, st1) ->
  f ∈ failures r ->
  lookup_fixer (common_fixes (config_of ptype)) (get f "type") = Some fixer ->
  get f "type" <> VStr "test_failure" /\
  (ptype = "javascript" /\ get f "type" = VStr "type_error" /\ fixer = fix_type_error_ts \/
   ptype = "javascript" /\ get f "type" = VStr "lint_error" /\ fixer = fix_lint_error_js \/
   ptype = "python" /\ get f "type" = VStr "type_error" /\ fixer = fix_type_error_py \/
   ptype = "docker" /\ get f "type" = VStr "yaml_error" /\ fixer = fix_yaml_error).
Proof.
  intros Hrun Hf Hlook.
  destruct (PassFacts.run_all_tests_inv ptype changed st r st1 Hrun)
    as (_ & _ & _ & _ & _ & _ & Hsrc & _).
  destruct (Hsrc f Hf) as (t & _ & _ & _ & _ & Hty).
  destruct Hty as [[Hty _]|[[Hty _]|[[Hty _]|[Hty _]]]];
    rewrite Hty in *; simpl in Hlook;
    apply lookup_fixer_table in Hlook;
    (split; [try discriminate|]);
    destruct Hlook as [[-> Hl]|[[-> Hl]|[-> Hl]]];
    repeat match goal with
           | Hl : _ \/ _ |- _ => destruct Hl as [Hl|Hl]
           | Hl : _ /\ _ |- _ => destruct Hl as [[=] ->]
           end; tauto.
Qed.

(** *** The loop of [attempt_fixes] *)

(** The generic fix only knows lint errors: for a failure of any other
    type it answers [False] and runs nothing. *)
Lemma attempt_generic_fix_other f st :
  get f "type" <> VStr "lint_error" -> attempt_generic_fix f st = (Ok false, st).
Proof. intros Hty. unfold attempt_generic_fix. by rewrite bool_decide_eq_false_2. Qed.

Lemma filter_length_eq_all {A} (p : A -> bool) (l : list A) :
  List.length (List.filter p l) = List.length l -> Forall (fun x => p x = true) l.
Proof.
  induction l as [|x l IH]; simpl; [done|].
  pose proof (List.filter_length_le p l).
  destruct (p x) eqn:Hx; simpl; intros Hlen; [|lia].
  constructor; [done|]. apply IH. lia.
Qed.

(** X8.  A round of fixes sorts the fixable failures into two lists:
    together, [fixed] and [failed] hold the fixable failures of the pass,
    each as many times as the pass listed it, and each list in the order
    of the pass.  [attempted] is the number of fixable failures and
    [fixed_count] the length of [fixed]; [all_fixed] is true exactly when
    [failed] is empty and no failure was passed over as not fixable. *)
Theorem fix_round_partitions_failures (results : test_results) (ptype : string)
    (changed : list string) (st : state event) (fr : fix_results) (st' : state event) :
  attempt_fixes results ptype changed st = (Ok fr, st') ->
  fixed fr ++ failed fr ≡ₚ List.filter fixable (failures results) /\
  fixed fr `sublist_of` failures results /\
  failed fr `sublist_of` failures results /\
  attempted fr = len (List.filter fixable (failures results)) /\
  fixed_count fr = len (fixed fr) /\
  (all_fixed fr = true <->
   failed fr = [] /\ Forall (fun f => fixable f = true) (failures results)).
Proof.
  intros (r & Hloop & ->)%BettyFacts.attempt_fixes_inv. simpl.
  apply (LoopFacts.for_each_Ok_inv _
           (fun done r =>
              fixed r ++ failed r ≡ₚ List.filter fixable done /\
              fixed r `sublist_of` done /\ failed r `sublist_of` done /\
              attempted r = len (List.filter fixable done) /\
              fixed_count r = len (fixed r)) _ []) in Hloop.
  - simpl in Hloop. destruct Hloop as (Hperm & Hs1 & Hs2 & Ha & Hc).
    repeat (split; [done|]).
    pose proof (Permutation_length Hperm) as Hlen. rewrite length_app in Hlen.
    pose proof (List.filter_length_le fixable (failures results)) as Hle.
    rewrite Hc. unfold len. rewrite Z.eqb_eq. split.
    + intros Heq. assert (List.length (failed r) = 0%nat) as Hnil by lia.
      split; [by destruct (failed r)|].
      apply filter_length_eq_all. lia.
    + intros [Hnil Hall]. rewrite (PassFacts.filter_all _ _ Hall), Hnil in Hlen.
      simpl in Hlen. lia.
  - clear. intros f done r st r' st' (Hperm & Hs1 & Hs2 & Ha & Hc) Hturn.
    apply BettyFacts.attempt_fix_inv in Hturn as [[Hf ->]|(Hf & b & st1 & _ & ->)];
      rewrite List.filter_app; simpl; rewrite Hf.
    + rewrite app_nil_r. repeat split; try done; by apply sublist_inserts_r.
    + unfold len in *. destruct b; simpl; rewrite ?length_app; simpl.
      * split; [by rewrite <- Hperm, <- !app_assoc, (Permutation_app_comm [f])|].
        split; [by apply sublist_app|]. split; [by apply sublist_inserts_r|].
        split; lia.
      * split; [by rewrite <- Hperm, <- !app_assoc|].
        split; [by apply sublist_inserts_r|]. split; [by apply sublist_app|].
        split; lia.
  - simpl. repeat split; done.
Qed.

(** A fixable failure whose fixer cannot answer [True] is recorded as
    failed, and the round ends with [all_fixed] false. *)
Lemma hopeless_failure_fails results ptype changed st fr st' f :
  attempt_fixes results ptype changed st = (Ok fr, st') ->
  f ∈ failures results ->
  fixable f = true ->
  (lookup_fixer (common_fixes (config_of ptype)) (get f "type") = None /\
   get f "type" <> VStr "lint_error") \/
  lookup_fixer (common_fixes (config_of ptype)) (get f "type")
    = Some fix_type_error_py \/
  lookup_fixer (common_fixes (config_of ptype)) (get f "type")
    = Some fix_dockerfile_error ->
  f ∈ failed fr /\ (f ∉ fixed fr) /\ all_fixed fr = false.
Proof.
  intros Hrun Hin Hfix Hhopeless.
  set (fixers := common_fixes (config_of ptype)) in *.
  set (hopeless := fun g : failure =>
         fixable g = true /\
         ((lookup_fixer fixers (get g "type") = None /\ get g "type" <> VStr "lint_error") \/
          lookup_fixer fixers (get g "type") = Some fix_type_error_py \/
          lookup_fixer fixers (get g "type") = Some fix_dockerfile_error)).
  assert (Hf : hopeless f) by (by split).
  destruct (BettyFacts.attempt_fixes_spec results ptype changed _ _ _ Hrun)
    as (evs & _ & _ & Htally).
  destruct (Htally fr eq_refl) as [(Hc & Ha & Hd & _) Hall].
  apply BettyFacts.attempt_fixes_inv in Hrun as (r & Hloop & ->). simpl in *.
  apply (LoopFacts.for_each_Ok_inv _
           (fun done r =>
              (forall g, g ∈ done -> hopeless g -> g ∈ failed r) /\
              (forall g, g ∈ fixed r -> ~ hopeless g)) _ []) in Hloop.
  - simpl in Hloop. destruct Hloop as [Hfailed Hfixed].
    specialize (Hfailed f Hin Hf).
    split; [done|]. split; [intros Hmem; by apply (Hfixed f)|].
    pose proof (List.filter_length_le fixable (failures results)) as Hle.
    assert (0 < len (failed r)).
    { unfold len. destruct (failed r); [by apply elem_of_nil in Hfailed | simpl; lia]. }
    unfold len in *. apply Z.eqb_neq. lia.
  - clear -fixers. intros g done r st r' st' [Hfailed Hfixed] Hturn.
    apply BettyFacts.attempt_fix_inv in Hturn as [[Hg ->]|(Hg & b & st1 & Hans & ->)].
    + split; [|done]. intros k [Hk|Hk]%elem_of_app Hhk; [by apply Hfailed|].
      apply list_elem_of_singleton in Hk. subst k. destruct Hhk as [Hhk _]. congruence.
    + assert (Hb : hopeless g -> b = false).
      { intros (_ & [[Hnone Hty]|[Hpy|Hdk]]); fold fixers in Hans.
        - rewrite Hnone, attempt_generic_fix_other in Hans by done. congruence.
        - rewrite Hpy in Hans. unfold fix_type_error_py, ret in Hans. congruence.
        - rewrite Hdk in Hans. unfold fix_dockerfile_error, ret in Hans. congruence. }
      destruct b; simpl.
      * split.
        -- intros k [Hk|Hk]%elem_of_app Hhk; [by apply Hfailed|].
           apply list_elem_of_singleton in Hk. subst k. by specialize (Hb Hhk).
        -- intros k [Hk|Hk]%elem_of_app; [by apply Hfixed|].
           apply list_elem_of_singleton in Hk. subst k. intros Hhk. by specialize (Hb Hhk).
      * split; [|done].
        intros k [Hk|Hk]%elem_of_app Hhk.
        -- apply elem_of_app. left. by apply Hfailed.
        -- apply elem_of_app. right. done.
  - split; intros g Hg; by apply elem_of_nil in Hg.
Qed.

Lemma no_fixer_for_test_failures ptype :
  lookup_fixer (common_fixes (config_of ptype)) (VStr "test_failure") = None.
Proof.
  simpl.
  destruct (common_fixes (config_of ptype) !! "test_failure") as [fixer|] eqn:Hlook;
    [|done].
  apply lookup_fixer_table in Hlook.
  destruct Hlook as [[_ Hl]|[[_ Hl]|[_ Hl]]];
    repeat match goal with
           | Hl : _ \/ _ |- _ => destruct Hl as [Hl|Hl]
           | Hl : _ /\ _ |- _ => destruct Hl as [[=] _]
           end.
Qed.

(** X9.  Some failures are never fixed.  No project type has a fixer for
    test failures, and the generic fix answers [False] for every failure
    that is not a lint error without running anything; the fixers for the
    type errors of Python and for the errors of a Dockerfile always
    answer [False].  A round of fixes on a list that holds such a failure
    records it as failed, never as fixed, and ends with [all_fixed]
    false. *)
Theorem unregistered_failures_are_never_fixed :
  (forall ptype,
     lookup_fixer (common_fixes (config_of ptype)) (VStr "test_failure") = None) /\
  (forall f st,
     get f "type" <> VStr "lint_error" -> attempt_generic_fix f st = (Ok false, st)) /\
  (forall results ptype changed st fr st' f,
     attempt_fixes results ptype changed st = (Ok fr, st') ->
     f ∈ failures results ->
     fixable f = true ->
     (lookup_fixer (common_fixes (config_of ptype)) (get f "type") = None /\
      get f "type" <> VStr "lint_error") \/
     lookup_fixer (common_fixes (config_of ptype)) (get f "type")
       = Some fix_type_error_py \/
     lookup_fixer (common_fixes (config_of ptype)) (get f "type")
       = Some fix_dockerfile_error ->
     f ∈ failed fr /\ (f ∉ fixed fr) /\ all_fixed fr = false).
Proof.
  split; [apply no_fixer_for_test_failures|].
  split; [apply attempt_generic_fix_other|].
  apply hopeless_failure_fails.
Qed.

(** *** The fixers that edit a file *)

Lemma index_of_in_range {A} (l : list A) (i : Z) :
  0 <= i < len l -> index_of l i = Some (Z.to_nat i).
Proof.
  unfold index_of, len. intros [Hlo Hhi].
  by rewrite (proj2 (Z.leb_le 0 i) Hlo), (proj2 (Z.ltb_lt _ _) Hhi).
Qed.

Lemma lookup_in_range {A} (l : list A) (n : Z) (x : A) :
  0 < n -> l !! Z.to_nat (n - 1) = Some x -> 0 <= n - 1 < len l.
Proof.
  intros Hn Hx. apply lookup_lt_Some in Hx. unfold len. lia.
Qed.

Lemma truthy_path (p : string) : p <> EmptyString -> truthy (VStr p) = true.
Proof. intros Hp. simpl. by apply String.eqb_neq in Hp as ->. Qed.

(** The result of a fixer that ends by writing [text] to [p]: it answers
    [True] when the text was written and [False] when writing raised. *)
Lemma write_and_answer (p text : string) (st : state event) (w1 : World) :
  guarded (open_write (VStr p) text ;; ret true) (State w1 (trace st)) =
  (let '(o, w2) := file_write p text w1 in
   (Ok match o with Ok _ => true | Raise _ => false end, State w2 (trace st))).
Proof.
  unfold guarded, try_except, bind, open_write, host, ret. simpl.
  by destruct (file_write p text w1) as [[[]|e] w2].
Qed.


(** X11.  The fixer for the syntax errors of JavaScript rewrites one
    line.  For a failure that names a file and a line of it (counted
    from 1), it reads the file, changes that line only, writes all lines
    back, and answers [True] when the file could be written: a trailing
    comma on the last line of the file is removed, a line that ends
    neither with a semicolon nor with an opening brace gets a semicolon,
    and a line that ends with one of the two is left as it is, so that
    the text written is the text read. *)
Theorem syntax_fix_js_rewrites_one_line (f : failure) (st : state event)
    (p s c line : string) (n : Z) (w1 : World) :
  get f "file" = VStr p ->
  p <> EmptyString ->
  get_default f "line" (VInt 0) = VStr s ->
  int_of_str s = Some n ->
  0 < n ->
  file_read p (world st) = (Ok c, w1) ->
  readlines_of c !! Z.to_nat (n - 1) = Some line ->
  let lines := readlines_of c in
  let new_line :=
    if endswith "," (rstrip line) && (n =? len lines)
    then drop_last (rstrip line) +:+ nl
    else if negb (endswith ";" (rstrip line)) && negb (endswith "{" (rstrip line))
         then rstrip line +:+ ";" +:+ nl
         else line in
  let text := String.concat EmptyString (<[Z.to_nat (n - 1) := new_line]> lines) in
  fix_syntax_error_js f st =
    (let '(o, w2) := file_write p text w1 in
     (Ok match o with Ok _ => true | Raise _ => false end, State w2 (trace st))) /\
  (new_line = line -> text = c) /\
  (endswith ";" (rstrip line) = true \/ endswith "{" (rstrip line) = true ->
   new_line = line).
Proof.
  intros Hfile Hp Hline Hint Hn Hread Hnth lines new_line text.
  pose proof (lookup_in_range _ _ _ Hn Hnth) as Hrange. fold lines in Hrange.
  split; [|split].
  - unfold fix_syntax_error_js, fix_syntax_error_js_body.
    rewrite Hfile, Hline, (truthy_path p Hp). simpl py_int. rewrite Hint.
    unfold guarded, try_except, bind at 1, ret at 1.
    rewrite (proj2 (Z.eqb_neq n 0)) by lia. cbn [negb orb].
    unfold bind at 1, open_read, host. cbv beta. rewrite Hread. fold lines.
    rewrite (proj2 (Z.leb_le n (len lines))) by lia.
    unfold py_nth. rewrite (index_of_in_range lines (n - 1) Hrange). simpl mbind.
    fold lines in Hnth. rewrite Hnth. unfold of_option at 1, bind at 1, ret at 1.
    unfold py_set_nth. rewrite (index_of_in_range lines (n - 1) Hrange). simpl mbind.
    unfold text, new_line.
    destruct (endswith "," (rstrip line) && (n =? len lines)).
    { unfold of_option, bind at 1, ret at 1.
      apply (write_and_answer p _ st w1). }
    destruct (negb (endswith ";" (rstrip line)) && negb (endswith "{" (rstrip line))).
    { unfold of_option, bind at 1, ret at 1.
      apply (write_and_answer p _ st w1). }
    unfold bind at 1, ret at 1. rewrite (list_insert_id _ _ _ Hnth).
    apply (write_and_answer p _ st w1).
  - intros Hsame. unfold text. rewrite Hsame. fold lines in Hnth.
    rewrite (list_insert_id _ _ _ Hnth). apply PyFacts.concat_readlines.
  - intros Hends. unfold new_line.
    assert (endswith "," (rstrip line) = false) as ->.
    { destruct (endswith "," (rstrip line)) eqn:Hc; [|done].
      destruct Hends as [He|He]; pose proof (PyFacts.endswith_char _ _ _ Hc He); done. }
    simpl. destruct Hends as [-> | ->]; [done|]. by rewrite andb_false_r.
Qed.

(** X12.  The fixer for the syntax errors of Python indents one line at
    most.  For a failure that names a file and a line of it (counted
    from 1), it reads the file and writes it back, answering [True] when
    the file could be written.  When the line ends with a colon and the
    line after it begins neither with four spaces nor with a tab, that
    next line gets four spaces in front; in every other case the text
    written is the text read. *)
Theorem syntax_fix_py_indents_the_next_line (f : failure) (st : state event)
    (p s c line : string) (n : Z) (w1 : World) :
  get f "file" = VStr p ->
  p <> EmptyString ->
  get_default f "line" (VInt 0) = VStr s ->
  int_of_str s = Some n ->
  0 < n ->
  file_read p (world st) = (Ok c, w1) ->
  readlines_of c !! Z.to_nat (n - 1) = Some line ->
  let lines := readlines_of c in
  let text :=
    match lines !! Z.to_nat n with
    | Some next_line =>
        if endswith ":" (rstrip line)
           && negb (startswith "    " next_line) && negb (startswith tab next_line)
        then String.concat EmptyString (<[Z.to_nat n := "    " +:+ next_line]> lines)
        else c
    | None => c
    end in
  fix_syntax_error_py f st =
    (let '(o, w2) := file_write p text w1 in
     (Ok match o with Ok _ => true | Raise _ => false end, State w2 (trace st))).
Proof.
  intros Hfile Hp Hline Hint Hn Hread Hnth lines text.
  pose proof (lookup_in_range _ _ _ Hn Hnth) as Hrange. fold lines in Hrange.
  unfold fix_syntax_error_py, fix_syntax_error_py_body.
  rewrite Hfile, Hline, (truthy_path p Hp). simpl py_int. rewrite Hint.
  unfold guarded, try_except, bind at 1, ret at 1.
  rewrite (proj2 (Z.eqb_neq n 0)) by lia. cbn [negb orb].
  unfold bind at 1, open_read, host. cbv beta. rewrite Hread. fold lines.
  rewrite (proj2 (Z.leb_le n (len lines))) by lia.
  unfold py_nth. rewrite (index_of_in_range lines (n - 1) Hrange). simpl mbind.
  fold lines in Hnth. rewrite Hnth. unfold of_option at 1, bind at 1, ret at 1.
  unfold text.
  destruct (n <? len lines) eqn:Hlt.
  - apply Z.ltb_lt in Hlt.
    assert (Hnext : 0 <= n < len lines) by lia.
    rewrite (index_of_in_range lines n Hnext). simpl mbind.
    destruct (lines !! Z.to_nat n) as [next_line|] eqn:Hnl.
    2:{ apply lookup_ge_None in Hnl. unfold len in Hlt. lia. }
    destruct (endswith ":" (rstrip line)); cbn [andb].
    2:{ unfold bind at 1, ret at 1. unfold lines. rewrite PyFacts.concat_readlines.
        apply (write_and_answer p _ st w1). }
    unfold of_option at 1, bind at 1, ret at 1, bind at 1.
    unfold py_set_nth. rewrite (index_of_in_range lines n Hnext). simpl mbind.
    destruct (negb (startswith "    " next_line) && negb (startswith tab next_line)).
    + unfold of_option, ret at 1. apply (write_and_answer p _ st w1).
    + unfold ret at 1. unfold lines. rewrite PyFacts.concat_readlines.
      apply (write_and_answer p _ st w1).
  - apply Z.ltb_ge in Hlt. rewrite andb_false_r.
    unfold bind at 1, ret at 1.
    assert (lines !! Z.to_nat n = None) as ->.
    { apply lookup_ge_None. unfold len in Hlt. lia. }
    unfold lines. rewrite PyFacts.concat_readlines. apply (write_and_answer p _ st w1).
Qed.

(** X13.  The fixer for a missing import of React adds the import once.
    For a message that React is not defined, a file that does not yet
    hold [import React] gets the import as its new first line, and the
    fixer answers [True] when the file could be written; a file that
    holds it is not written, and the answer is [False].  The text that
    the fixer writes holds the import, so that the fixer changes nothing
    when it is applied again. *)
Theorem import_fix_adds_the_import_once (f : failure) (st : state event)
    (p m c : string) (w1 : World) :
  get f "file" = VStr p ->
  p <> EmptyString ->
  get_default f "message" empty_str = VStr m ->
  contains "'React' is not defined" m = true ->
  file_read p (world st) = (Ok c, w1) ->
  let text := "import React from 'react';" +:+ nl +:+ c in
  fix_missing_import_js f st =
    (if contains "import React" c then (Ok false, State w1 (trace st))
     else
       let '(o, w2) := file_write p text w1 in
       (Ok match o with Ok _ => true | Raise _ => false end, State w2 (trace st))) /\
  contains "import React" text = true.
Proof.
  intros Hfile Hp Hmsg Hreact Hread text. split.
  - unfold fix_missing_import_js, fix_missing_import_js_body.
    rewrite Hfile, Hmsg, (truthy_path p Hp). cbn [negb].
    unfold guarded, try_except, bind at 1, open_read, host. rewrite Hread.
    unfold bind at 1, py_in, ret at 1. rewrite Hreact.
    destruct (contains "import React" c); [reflexivity|]. cbn [negb].
    apply (write_and_answer p _ st w1).
  - apply PyFacts.contains_prefix. reflexivity.
Qed.

(** *** The history of fixes *)

Lemma log_fix_entry f status :
  spec (log_fix f status) (fun o evs =>
    match o with
    | Ok _ => exists now, evs = [FixLogged now f status]
    | Raise _ => True
    end).
Proof.
  unfold log_fix.
  eapply spec_bind; [apply silent_ask | done |].
  intros now evs0 ->. eapply spec_bind; [apply silent_host | done |].
  intros [] evs1 ->. apply spec_emit. by exists now.
Qed.

Lemma logged_app evs1 evs2 : logged (evs1 ++ evs2) = logged evs1 ++ logged evs2.
Proof. unfold logged. apply omap_app. Qed.

Lemma fix_logs_entry now f status : fix_logs [FixLogged now f status].
Proof. by repeat constructor. Qed.

(** X14.  The history of fixes records the work of the registered fixers
    only.  A round that ends normally has left nothing but entries of the
    history; there is one entry for each fixable failure whose type has
    a registered fixer, in the order of the pass, with the status
    [success] when the failure was recorded as fixed and [failed] when
    it was recorded as failed.  What the generic fix does is not
    logged. *)
Theorem fix_history_skips_generic_fixes (results : test_results) (ptype : string)
    (changed : list string) (st : state event) (fr : fix_results) (st' : state event) :
  attempt_fixes results ptype changed st = (Ok fr, st') ->
  exists evs,
    trace st' = trace st ++ evs /\
    Forall (fun e => is_fix_log e = true) evs /\
    map fst (logged evs) =
      List.filter (fun f => fixable f && has_fixer (common_fixes (config_of ptype)) f)
        (failures results) /\
    Forall (fun entry =>
              snd entry = "success" /\ fst entry ∈ fixed fr \/
              snd entry = "failed" /\ fst entry ∈ failed fr)
           (logged evs).
Proof.
  intros (r & Hloop & ->)%BettyFacts.attempt_fixes_inv. simpl.
  set (fixers := common_fixes (config_of ptype)) in *.
  set (I := fun (done : list failure) (r : fix_results) (evs : list event) =>
              fix_logs evs /\
              map fst (logged evs) =
                List.filter (fun f => fixable f && has_fixer fixers f) done /\
              Forall (fun entry =>
                        snd entry = "success" /\ fst entry ∈ fixed r \/
                        snd entry = "failed" /\ fst entry ∈ failed r)
                     (logged evs)).
  assert (Hspec : spec (for_each (failures results) (attempt_fix fixers) fix_results_init)
            (fun o evs =>
               match o with
               | Ok r => I ([] ++ failures results) r ([] ++ evs)
               | Raise _ => True
               end)).
  { apply (spec_for_each (failures results) (attempt_fix fixers) I (fun _ _ => True)
             [] fix_results_init []).
    { unfold I. split; [constructor|]. split; [reflexivity | constructor]. }
    intros f done r0 evs (Hlogs & Hmap & Hall).
    assert (Hgrow : forall r1,
              (forall g, g ∈ fixed r0 -> g ∈ fixed r1) ->
              (forall g, g ∈ failed r0 -> g ∈ failed r1) ->
              Forall (fun entry =>
                        snd entry = "success" /\ fst entry ∈ fixed r1 \/
                        snd entry = "failed" /\ fst entry ∈ failed r1)
                     (logged evs)).
    { intros r1 Hfi Hfa. eapply Forall_impl; [exact Hall|].
      intros entry [[? ?]|[? ?]]; [left | right]; split; auto. }
    unfold attempt_fix. destruct (fixable f) eqn:Hf; simpl.
    2:{ apply spec_ret. rewrite app_nil_r. split; [done|]. split; [|done].
        rewrite List.filter_app. simpl. by rewrite Hf, app_nil_r. }
    unfold I.
    destruct (lookup_fixer fixers (get f "type")) as [fixer|] eqn:Hlook.
    - assert (Hsil : silent (fixer f)).
      { unfold lookup_fixer in Hlook. destruct (get f "type"); try discriminate.
        eapply BettyFacts.registered_fixer_silent, Hlook. }
      assert (Hreg : has_fixer fixers f = true).
      { unfold has_fixer. rewrite Hlook. by apply bool_decide_eq_true_2. }
      eapply spec_bind; [exact Hsil | done |]. intros b evs1 ->. simpl.
      destruct b.
      + eapply spec_bind; [apply log_fix_entry | done |].
        intros [] evs2 [now ->]. apply spec_ret. rewrite app_nil_r.
        split; [apply Forall_app_2; [done | apply fix_logs_entry]|].
        rewrite logged_app, map_app, List.filter_app. simpl. rewrite Hf, Hreg, Hmap.
        split; [done|]. apply Forall_app_2.
        * apply (Hgrow (record_fixed f (count_attempt r0))); simpl;
            [intros g Hg; apply elem_of_app; by left | done].
        * constructor; [|done]. left. split; [done|]. simpl.
          apply elem_of_app; right. by apply list_elem_of_singleton.
      + eapply spec_bind; [apply log_fix_entry | done |].
        intros [] evs2 [now ->]. apply spec_ret. rewrite app_nil_r.
        split; [apply Forall_app_2; [done | apply fix_logs_entry]|].
        rewrite logged_app, map_app, List.filter_app. simpl. rewrite Hf, Hreg, Hmap.
        split; [done|]. apply Forall_app_2.
        * apply (Hgrow (record_failed f (count_attempt r0))); simpl;
            [done | intros g Hg; apply elem_of_app; by left].
        * constructor; [|done]. right. split; [done|]. simpl.
          apply elem_of_app; right. by apply list_elem_of_singleton.
    - assert (Hreg : has_fixer fixers f = false).
      { unfold has_fixer. rewrite Hlook. apply bool_decide_eq_false_2. by intros [? ?]. }
      eapply spec_bind; [apply BettyFacts.attempt_generic_fix_silent | done |].
      intros b evs1 ->. simpl.
      destruct b; apply spec_ret; rewrite !app_nil_r;
        (split; [done|]); rewrite List.filter_app; simpl; rewrite Hf, Hreg, app_nil_r;
        (split; [done|]);
        [apply (Hgrow (record_fixed f (count_attempt r0)))
        |apply (Hgrow (record_failed f (count_attempt r0)))]; simpl; try done;
        intros g Hg; apply elem_of_app; by left. }
  destruct (Hspec _ _ _ Hloop) as (evs & Ht & Hlogs & Hmap & Hall).
  exists evs. simpl in *. repeat split; done.
Qed.

End Engine.

Import Script.

(** *** The fixers that a run reaches *)

Lemma first_pass_eq (s : script) (ptype : string) :
  raised (first_pass s ptype) = false ->
  first_pass s ptype =
  (Ok (default no_results (returned (first_pass s ptype))), snd (first_pass s ptype)).
Proof. apply (BettyFacts.returned_eq (first_pass s ptype) no_results). Qed.

(** X7.  Of the ten fixers of the registry, a run reaches four, and each
    of the four.  The issues of a pass have the types [test_failure],
    [lint_error], [type_error] and [yaml_error]; no fixer is registered
    for the first, and the fixers for a missing import, a syntax error,
    an import error, an indentation error and an error of the Dockerfile
    are registered for types that no issue ever has.  The other four are
    reached: the fixer of lint errors and the fixer of type errors of a
    JavaScript project, the fixer of type errors of a Python project and
    the fixer of YAML errors of a Docker project each get an issue of the
    first pass of a project that is detected as of that type. *)
Theorem pass_failures_reach_four_fixers :
  (forall (H : Host) (ptype : string) (changed : list string) (st : state event)
          (r : test_results) (st1 : state event) (f : failure)
          (fixer : failure -> Betty.M bool),
     run_all_tests ptype changed st = (Ok r, st1) ->
     f ∈ failures r ->
     lookup_fixer (common_fixes (config_of ptype)) (get f "type") = Some fixer ->
     get f "type" <> VStr "test_failure" /\
     (ptype = "javascript" /\ get f "type" = VStr "type_error" /\
      fixer = fix_type_error_ts \/
      ptype = "javascript" /\ get f "type" = VStr "lint_error" /\
      fixer = fix_lint_error_js \/
      ptype = "python" /\ get f "type" = VStr "type_error" /\
      fixer = fix_type_error_py \/
      ptype = "docker" /\ get f "type" = VStr "yaml_error" /\
      fixer = fix_yaml_error)) /\
  (exists r st1,
     detected stubborn = (Ok "javascript", start stubborn) /\
     run_all_tests (H := scripted stubborn) "javascript" [] (start stubborn) = (Ok r, st1) /\
     semicolon_error ∈ failures r /\
     lookup_fixer (H := scripted stubborn) (common_fixes (config_of "javascript"))
       (get semicolon_error "type") = Some fix_lint_error_js) /\
  (exists r st1,
     detected untyped = (Ok "javascript", start untyped) /\
     run_all_tests (H := scripted untyped) "javascript" [] (start untyped) = (Ok r, st1) /\
     untyped_parameter ∈ failures r /\
     lookup_fixer (H := scripted untyped) (common_fixes (config_of "javascript"))
       (get untyped_parameter "type") = Some fix_type_error_ts) /\
  (exists r st1,
     detected mistyped = (Ok "python", start mistyped) /\
     run_all_tests (H := scripted mistyped) "python" [] (start mistyped) = (Ok r, st1) /\
     mistyped_assignment ∈ failures r /\
     lookup_fixer (H := scripted mistyped) (common_fixes (config_of "python"))
       (get mistyped_assignment "type") = Some fix_type_error_py) /\
  (exists r st1,
     detected miscomposed = (Ok "docker", start miscomposed) /\
     run_all_tests (H := scripted miscomposed) "docker" [] (start miscomposed) = (Ok r, st1) /\
     broken_yaml ∈ failures r /\
     lookup_fixer (H := scripted miscomposed) (common_fixes (config_of "docker"))
       (get broken_yaml "type") = Some fix_yaml_error).
Proof.
  split; [intros H; apply pass_failures_fixers|].
  split; [|split; [|split]].
  - eexists _, _. split; [reflexivity|].
    split; [apply (first_pass_eq stubborn "javascript"); vm_compute; reflexivity|].
    split; [|reflexivity].
    change (semicolon_error ∈ first_failures stubborn "javascript"). decide_it.
  - eexists _, _. split; [reflexivity|].
    split; [apply (first_pass_eq untyped "javascript"); vm_compute; reflexivity|].
    split; [|reflexivity].
    change (untyped_parameter ∈ first_failures untyped "javascript"). decide_it.
  - eexists _, _. split; [reflexivity|].
    split; [apply (first_pass_eq mistyped "python"); vm_compute; reflexivity|].
    split; [|reflexivity].
    change (mistyped_assignment ∈ first_failures mistyped "python"). decide_it.
  - eexists _, _. split; [reflexivity|].
    split; [apply (first_pass_eq miscomposed "docker"); vm_compute; reflexivity|].
    split; [|reflexivity].
    change (broken_yaml ∈ first_failures miscomposed "docker"). decide_it.
Qed.

(** *** The fixer of type errors on the machine with files *)



(** *** On the stubborn project and on the machine with files *)

(** The lint error of the stubborn project reaches the fixer of lint
    errors. *)
Lemma pass_failures_reach_four_fixers_witness :
  semicolon_error ∈ failures stubborn_pass_results /\
  lookup_fixer (H := scripted stubborn) (common_fixes (config_of "javascript"))
    (get semicolon_error "type") = Some fix_lint_error_js /\
  get semicolon_error "type" <> VStr "test_failure".
Proof.
  assert (Hin : semicolon_error ∈ failures stubborn_pass_results) by decide_it.
  split; [exact Hin|]. split; [reflexivity|].
  apply (proj1 pass_failures_reach_four_fixers (scripted stubborn)
           "javascript" [] (start stubborn) stubborn_pass_results (snd stubborn_pass)
           semicolon_error fix_lint_error_js BettyFacts.stubborn_pass_eq Hin eq_refl).
Defined.

(** The round on the stubborn project sorts the two issues. *)
Lemma fix_round_partitions_failures_witness :
  fixed stubborn_round_results ++ failed stubborn_round_results
    ≡ₚ List.filter fixable (failures stubborn_pass_results) /\
  attempted stubborn_round_results
    = len (List.filter fixable (failures stubborn_pass_results)) /\
  (all_fixed stubborn_round_results = true <->
   failed stubborn_round_results = [] /\
   Forall (fun f => fixable f = true) (failures stubborn_pass_results)).
Proof.
  destruct (fix_round_partitions_failures (H := scripted stubborn)
              stubborn_pass_results "javascript" [] (snd stubborn_pass)
              stubborn_round_results (snd stubborn_round) BettyFacts.stubborn_round_eq)
    as (Hperm & _ & _ & Ha & _ & Hall).
  split; [exact Hperm|]. split; [exact Ha | exact Hall].
Defined.


(** The first line of the file gets its semicolon. *)
Lemma syntax_fix_js_rewrites_one_line_witness :
  fix_syntax_error_js (H := disk) missing_semicolon (on_disk [("app.js", app_js)]) =
  (Ok true, on_disk [("app.js", app_js_fixed); ("app.js", app_js)]).
Proof.
  destruct (syntax_fix_js_rewrites_one_line (H := disk) missing_semicolon
              (on_disk [("app.js", app_js)]) "app.js" "1" app_js ("let x = 1" +:+ nl) 1
              [("app.js", app_js)]) as [Heq _];
    [reflexivity | discriminate | reflexivity | reflexivity | lia
    | reflexivity | reflexivity |].
  eapply eq_trans; [exact Heq | vm_compute; reflexivity].
Defined.

(** The line after the colon gets its four spaces. *)
Lemma syntax_fix_py_indents_the_next_line_witness :
  fix_syntax_error_py (H := disk) missing_indent (on_disk [("main.py", main_py)]) =
  (Ok true, on_disk [("main.py", main_py_fixed); ("main.py", main_py)]).
Proof.
  eapply eq_trans.
  - apply (syntax_fix_py_indents_the_next_line (H := disk) missing_indent
             (on_disk [("main.py", main_py)]) "main.py" "1" main_py ("if ready:" +:+ nl) 1
             [("main.py", main_py)]);
      [reflexivity | discriminate | reflexivity | reflexivity | lia
      | reflexivity | reflexivity].
  - vm_compute. reflexivity.
Defined.

(** The import is added to the component, and not a second time. *)
Lemma import_fix_adds_the_import_once_witness :
  fix_missing_import_js (H := disk) missing_react (on_disk [("src/App.jsx", app_jsx)]) =
    (Ok true, on_disk [("src/App.jsx", app_jsx_fixed); ("src/App.jsx", app_jsx)]) /\
  fix_missing_import_js (H := disk) missing_react (on_disk [("src/App.jsx", app_jsx_fixed)]) =
    (Ok false, on_disk [("src/App.jsx", app_jsx_fixed)]).
Proof.
  split.
  - destruct (import_fix_adds_the_import_once (H := disk) missing_react
                (on_disk [("src/App.jsx", app_jsx)]) "src/App.jsx"
                "'React' is not defined" app_jsx [("src/App.jsx", app_jsx)])
      as [Heq _]; [reflexivity | discriminate | reflexivity | reflexivity | reflexivity |].
    eapply eq_trans; [exact Heq | vm_compute; reflexivity].
  - destruct (import_fix_adds_the_import_once (H := disk) missing_react
                (on_disk [("src/App.jsx", app_jsx_fixed)]) "src/App.jsx"
                "'React' is not defined" app_jsx_fixed [("src/App.jsx", app_jsx_fixed)])
      as [Heq _]; [reflexivity | discriminate | reflexivity | reflexivity | reflexivity |].
    eapply eq_trans; [exact Heq | vm_compute; reflexivity].
Defined.

(** On the stubborn project both issues have a registered fixer, and the
    history has an entry for each. *)
Lemma fix_history_skips_generic_fixes_witness :
  exists evs,
    trace (snd stubborn_round) = trace (snd stubborn_pass) ++ evs /\
    Forall (fun e => is_fix_log e = true) evs /\
    map fst (logged evs) =
      List.filter
        (fun f => fixable f &&
                  has_fixer (H := scripted stubborn) (common_fixes (config_of "javascript")) f)
        (failures stubborn_pass_results) /\
    Forall (fun entry =>
              snd entry = "success" /\ fst entry ∈ fixed stubborn_round_results \/
              snd entry = "failed" /\ fst entry ∈ failed stubborn_round_results)
           (logged evs).
Proof.
  exact (fix_history_skips_generic_fixes (H := scripted stubborn)
           stubborn_pass_results "javascript" [] (snd stubborn_pass)
           stubborn_round_results (snd stubborn_round) BettyFacts.stubborn_round_eq).
Defined.

End FixFacts.
(** ** The run *)

Module RunFacts.
Import Py Rt RtFacts Betty.
Local Open Scope py_scope.

Section Engine.
Context `{Host}.


(** *** The shape of the trace *)

Lemma save_test_report_shape results data :
  spec (save_test_report results data) (fun o evs =>
    match o with
    | Ok _ => exists now, evs = [ReportSaved now (session_id data) results (stats_of results)]
    | Raise _ => evs = []
    end).
Proof.
  unfold save_test_report.
  eapply spec_bind; [apply silent_ask | by intros e evs -> |].
  intros now evs0 ->.
  eapply spec_bind; [apply silent_ask | by intros e evs -> |].
  intros stamp evs ->. simpl.
  eapply spec_bind; [apply silent_host | by intros e evs -> |].
  intros [] evs ->. simpl. apply spec_emit. by exists now.
Qed.

Lemma comprehensive_test_body_shape data :
  spec (comprehensive_test_body (Ok data)) (run_trace data).
Proof.
  unfold comprehensive_test_body. simpl.
  eapply spec_bind with (R1 := fun o evs => evs = [] /\ exists d, o = Ok d /\ d = data).
  { apply spec_ret. eauto. }
  { by intros e evs [_ (d & ? & _)]. }
  intros d evs0 [-> (d' & [= <-] & ->)].
  eapply spec_bind; [apply BettyFacts.detect_project_type_silent | |].
  { intros e evs ->. left. by exists e. }
  intros ptype evs1 ->.
  eapply spec_bind; [apply BettyFacts.print_spec | by intros e evs [? _] |].
  intros [] evs2 [_ ->].
  eapply spec_bind;
    [apply BettyFacts.run_all_tests_pass | by intros e evs [_ (r & ? & _)] |].
  intros results evs3 [-> (results' & [= <-] & Hhas)].
  eapply spec_bind; [apply BettyFacts.remediate_shape | |].
  { intros e mid Hmid. right. exists ptype, results, (Raise e), mid.
    simpl. rewrite ?app_nil_r. done. }
  intros [fr final] mid Hmid.
  eapply spec_bind; [apply save_test_report_shape | |].
  { intros e evs ->. right. exists ptype, results, (Ok (fr, final)), mid.
    simpl. rewrite ?app_nil_r. done. }
  intros [] evs5 [now ->]. apply spec_ret.
  right. exists ptype, results, (Ok (fr, final)), mid. simpl.
  split; [done|]. split; [done|]. split; [done|]. split; [done|].
  exists now. simpl. rewrite ?app_nil_r. done.
Qed.

(** Every event of the remediation step, by kind. *)
Lemma remediation_trace_elem results o mid e :
  remediation_trace results o mid -> e ∈ mid ->
  is_fix_log e = true \/
  e = Stderr (MsgFoundIssues (len (failures results))) \/
  e = Stderr MsgNoFixesNeeded \/
  e = Stderr MsgCouldNotFix \/
  (exists lines, e = Posted (AutoFixManualRequired (len (failures results)) lines)) \/
  (exists fr final,
     o = Ok (Some fr, Some final) /\ tally results fr /\ all_fixed fr = true /\
     has_failures final = (0 <? len (failures final)) /\
     Stderr (MsgFoundIssues (len (failures results))) ∈ mid /\
     Stderr MsgAllFixedVerifying ∈ mid /\
     Stderr (verdict fr final) ∈ mid /\
     (e = Stderr MsgAllFixedVerifying \/
      e = Posted (verdict_notification fr final) \/
      e = Stderr (verdict fr final))).
Proof.
  unfold remediation_trace. destruct (has_failures results).
  2:{ intros [_ ->] ->%list_elem_of_singleton. tauto. }
  intros (logs & rest & -> & Hlogs & Hrest) Hin.
  apply elem_of_cons in Hin as [->|Hin]; [tauto|].
  apply elem_of_app in Hin as [Hin|Hin].
  { left. unfold fix_logs in Hlogs. rewrite Forall_forall in Hlogs. by apply Hlogs. }
  destruct o as [[[fr|] [final|]]|err]; try done.
  - destruct Hrest as (Htally & Hall & Hhas & posts & -> & Hposts).
    do 5 right. exists fr, final. repeat (split; [done|]).
    split; [apply elem_of_cons; by left|].
    split; [apply elem_of_cons; right; apply elem_of_app; right;
            apply elem_of_cons; by left|].
    split; [apply elem_of_cons; right; apply elem_of_app; right;
            apply elem_of_cons; right; apply elem_of_app; right;
            apply elem_of_cons; by left|].
    apply elem_of_cons in Hin as [->|Hin]; [tauto|].
    apply elem_of_app in Hin as [Hin|Hin].
    + destruct Hposts as [-> | ->]; [by apply elem_of_nil in Hin|].
      apply list_elem_of_singleton in Hin. tauto.
    + apply list_elem_of_singleton in Hin. tauto.
  - destruct Hrest as (_ & _ & posts & -> & Hposts).
    apply elem_of_app in Hin as [Hin|Hin].
    + destruct Hposts as [->|(lines & ->)]; [by apply elem_of_nil in Hin|].
      apply list_elem_of_singleton in Hin. subst. do 4 right. left. by exists lines.
    + apply list_elem_of_singleton in Hin. tauto.
  - subst rest. by apply elem_of_nil in Hin.
Qed.

(** The remediation step saves no report and prints no error line. *)
Lemma remediation_trace_plain results o mid :
  remediation_trace results o mid ->
  Forall (fun e => is_report e = false) mid /\
  Forall (fun e => is_error_line e = false) mid.
Proof.
  intros Hmid. split; apply Forall_forall; intros e Hin;
    destruct (remediation_trace_elem _ _ _ _ Hmid Hin)
      as [Hl|[->|[->|[->|[(lines & ->)|(fr & final & _ & _ & _ & _ & _ & _ & _
                                         & [->|[->| ->]])]]]]];
    try done; try (by destruct e as [[]| | |]);
    try (unfold verdict; by destruct (has_failures final)).
Qed.



(** X17.  The success notification is posted only after a verification
    pass that found nothing.  When a run posts it with the count [n], the
    first pass had found [n] issues, every one of them was reported
    fixed, the final verification was announced and the run printed that
    all tests pass; and when the [try] block ends normally, the final
    pass holds no failure. *)
Theorem success_is_announced_after_a_clean_pass (data : hook_data)
    (st : state event) (o : outcome run_locals) (st' : state event)
    (evs : list event) (n : Z) :
  comprehensive_test_body (Ok data) st = (o, st') ->
  trace st' = trace st ++ evs ->
  Posted (AutoFixSuccess n) ∈ evs ->
  Stderr (MsgFoundIssues n) ∈ evs /\
  Stderr MsgAllFixedVerifying ∈ evs /\
  Stderr MsgAllPassingReady ∈ evs /\
  forall locals, o = Ok locals ->
    exists fr final,
      loc_fix_results locals = Some fr /\
      loc_final_results locals = Some final /\
      all_fixed fr = true /\
      fixed_count fr = n /\
      len (failures (loc_test_results locals)) = n /\
      failures final = [] /\
      failed fr = [].
Proof.
  intros Hrun Ht Hin.
  destruct (comprehensive_test_body_shape data _ _ _ Hrun) as (evs' & Ht' & Hshape).
  rewrite Ht in Ht'. apply app_inv_head in Ht'. subst evs'.
  destruct Hshape as [(e0 & _ & ->)|(ptype & results & o' & mid & Hmid & _ & Ho)].
  { by apply elem_of_nil in Hin. }
  assert (Hmem : Posted (AutoFixSuccess n) ∈ mid).
  { destruct o as [locals|e].
    - destruct Ho as (_ & _ & now & ->).
      apply elem_of_cons in Hin as [[=]|Hin].
      apply elem_of_app in Hin as [Hin|Hin]; [done|].
      by apply list_elem_of_singleton in Hin.
    - subst evs. by apply elem_of_cons in Hin as [[=]|Hin]. }
  assert (Hsub : forall e, e ∈ mid -> e ∈ evs).
  { intros e He. destruct o as [locals|err].
    - destruct Ho as (_ & _ & now & ->).
      apply elem_of_cons; right. apply elem_of_app; by left.
    - subst evs. apply elem_of_cons; by right. }
  destruct (remediation_trace_elem _ _ _ _ Hmid Hmem)
    as [Hl|[[=]|[[=]|[[=]|[(lines & [=])|
         (fr & final & -> & Htally & Hall & Hhas & Hfound & Hver & Hverdict & Hcase)]]]]];
    [done|].
  assert (Hclean : has_failures final = false /\ fixed_count fr = n).
  { destruct Hcase as [[=]|[Hcase|[=]]]. unfold verdict_notification in Hcase.
    destruct (has_failures final); [discriminate|]. by injection Hcase as ->. }
  destruct Hclean as [Hclean Hn].
  destruct Htally as [(Hc & Ha & Hd & _) Hall'].
  rewrite Hall in Hall'. symmetry in Hall'. apply Z.eqb_eq in Hall'.
  unfold verdict in Hverdict. rewrite Hclean in Hverdict.
  split; [apply Hsub; congruence|]. split; [by apply Hsub|]. split; [by apply Hsub|].
  intros locals ->. destruct Ho as (-> & [= <- <-] & _).
  exists fr, final. repeat (split; [done || congruence|]).
  split.
  - rewrite Hhas in Hclean. unfold len in Hclean.
    destruct (failures final); [done|]. simpl in Hclean.
    apply Z.ltb_ge in Hclean. lia.
  - pose proof (List.filter_length_le fixable (failures (loc_test_results locals))).
    unfold len in *. destruct (failed fr); [done|]. simpl in *. lia.
Qed.

(** X18.  A run never raises and returns 0 whatever happens.  It prints
    its error line exactly when the [try] block raised: once, as the
    last thing it does, with the message of the exception, in the state
    in which the block stopped; no report was saved then.  In particular
    a payload that cannot be read runs nothing and prints that one
    line. *)
Theorem run_reports_errors_and_returns_zero (stdin : outcome hook_data)
    (st : state event) :
  exists st' evs,
    run_comprehensive_test stdin st = (Ok 0, st') /\
    trace st' = trace st ++ evs /\
    match stdin, comprehensive_test_body stdin st with
    | _, (Ok _, st1) =>
        st' = st1 /\ Forall (fun e => is_error_line e = false) evs
    | Ok _, (Raise e, st1) =>
        world st' = world st1 /\
        exists pre,
          evs = pre ++ [Stderr (MsgError (exn_str e))] /\
          trace st1 = trace st ++ pre /\
          Forall (fun e => is_error_line e = false) pre /\
          Forall (fun e => is_report e = false) pre
    | Raise _, (Raise e, _) =>
        world st' = world st /\ evs = [Stderr (MsgError (exn_str e))]
    end.
Proof.
  destruct stdin as [data|err].
  2:{ eexists _, _. split; [reflexivity|]. simpl. by repeat split. }
  unfold run_comprehensive_test, try_except, bind.
  destruct (comprehensive_test_body (Ok data) st) as [o st1] eqn:Hrun.
  destruct (comprehensive_test_body_shape data _ _ _ Hrun)
    as (evs & Ht & [(e0 & -> & ->)|(ptype & results & o' & mid & Hmid & _ & Ho)]).
  { eexists _, _. split; [reflexivity|]. simpl.
    split; [by rewrite Ht, <- app_assoc|]. split; [done|].
    exists []. split; [done|]. split; [done|]. split; constructor. }
  destruct (remediation_trace_plain _ _ _ Hmid) as [Hrep Herr].
  destruct o as [locals|e].
  - exists st1, evs. split; [done|]. split; [done|]. split; [done|].
    destruct Ho as (_ & _ & now & ->).
    constructor; [done|]. apply Forall_app_2; [done|]. by repeat constructor.
  - eexists _, _. split; [reflexivity|]. simpl.
    split; [by rewrite Ht, <- app_assoc|]. split; [done|].
    exists evs. split; [done|]. split; [done|]. subst evs.
    split; by constructor.
Qed.

(** *** Runs that do not verify again *)

(** X19.  A run that found a test failure never verifies again.  When the
    first pass lists an issue of a test stage, or a type error in a
    Python project, the round of fixes records that issue as failed, and
    the run executes no second pass: after the one execution of
    [attempt_fixes] come the failure notification, the line that not all
    issues could be fixed, and the report, and nothing else.  The run
    announces no verification and hands over no success notification. *)
Theorem test_failure_ends_the_run_unverified (stdin : outcome hook_data)
    (st : state event) (locals : run_locals) (st' : state event) (f : failure) :
  comprehensive_test_body stdin st = (Ok locals, st') ->
  f ∈ failures (loc_test_results locals) ->
  get f "type" = VStr "test_failure" \/
  (get f "type" = VStr "type_error" /\
   project_type (loc_test_results locals) = "python") ->
  let results := loc_test_results locals in
  exists fr evs,
    loc_fix_results locals = Some fr /\
    loc_final_results locals = None /\
    f ∈ failed fr /\
    (f ∉ fixed fr) /\
    all_fixed fr = false /\
    (exists data ptype s1 s2 s3,
       let changed := extract_changed_files (tools_used data) in
       stdin = Ok data /\
       detect_project_type st = (Ok ptype, st) /\
       run_all_tests ptype changed (printed st (MsgStarting ptype)) = (Ok results, s1) /\
       attempt_fixes results ptype changed
         (printed s1 (MsgFoundIssues (len (failures results)))) = (Ok fr, s2) /\
       send_failure_notification results s2 = (Ok tt, s3) /\
       save_test_report results data (printed s3 MsgCouldNotFix) = (Ok tt, st')) /\
    trace st' = trace st ++ evs /\
    Stderr MsgCouldNotFix ∈ evs /\
    (Stderr MsgAllFixedVerifying ∉ evs) /\
    reverifications evs = 0%nat /\
    (forall n, Posted (AutoFixSuccess n) ∉ evs).
Proof.
  intros Hrun Hin Hty results.
  destruct stdin as [data|e]; [|discriminate].
  destruct (BettyFacts.comprehensive_test_body_spec (Ok data) _ _ _ Hrun)
    as (evs & Ht & _ & _ & Hloc).
  destruct (Hloc locals eq_refl) as [Hhas Hcourse].
  pose proof (BettyFacts.comprehensive_test_body_steps _ _ _ _ Hrun)
    as (ptype & s1 & s2 & Hdet & Hpass & Hround & Hsave).
  destruct (PassFacts.run_all_tests_inv _ _ _ _ _ Hpass)
    as (_ & Hptype & _ & _ & _ & _ & Hsrc & _).
  destruct (Hsrc f Hin) as (t & _ & _ & _ & Hfix & _).
  assert (Hsome : has_failures (loc_test_results locals) = true).
  { rewrite Hhas. apply Z.ltb_lt. unfold len.
    destruct (failures (loc_test_results locals)); [by apply elem_of_nil in Hin|].
    simpl. lia. }
  assert (Hhopeless :
            (lookup_fixer (common_fixes (config_of ptype)) (get f "type") = None /\
             get f "type" <> VStr "lint_error") \/
            lookup_fixer (common_fixes (config_of ptype)) (get f "type")
              = Some fix_type_error_py \/
            lookup_fixer (common_fixes (config_of ptype)) (get f "type")
              = Some fix_dockerfile_error).
  { destruct Hty as [Hty|[Hty Hpy]]; rewrite Hty.
    - left. split; [apply FixFacts.no_fixer_for_test_failures | done].
    - right; left. rewrite Hptype in Hpy. subst ptype. reflexivity. }
  unfold one_round in Hround. unfold remediation_course in Hcourse.
  destruct (loc_fix_results locals) as [fr|] eqn:Hfr;
    destruct (loc_final_results locals) as [final|] eqn:Hfinal; [| | done |].
  - destruct Hround as (_ & Hall & sa & sb & sc & Hfixes & _).
    destruct (FixFacts.hopeless_failure_fails _ _ _ _ _ _ f Hfixes Hin Hfix Hhopeless)
      as (_ & _ & Hfalse). congruence.
  - destruct Hround as (_ & Hall & sa & sb & Hfixes & Hsend & ->).
    destruct (FixFacts.hopeless_failure_fails _ _ _ _ _ _ f Hfixes Hin Hfix Hhopeless)
      as (Hfailed & Hnot & _).
    destruct Hcourse as (_ & _ & _ & _ & Hrev & Hline).
    exists fr, evs. repeat (split; [done|]).
    split; [by exists data, ptype, s1, sa, sb|].
    split; [done|]. split; [done|].
    destruct (comprehensive_test_body_shape data _ _ _ Hrun) as (evs' & Ht' & Hshape).
    rewrite Ht in Ht'. apply app_inv_head in Ht'. subst evs'.
    destruct Hshape as [(e0 & [=] & _)|(ptype' & results' & o' & mid & Hmid & _ & Ho)].
    destruct Ho as (-> & -> & now & ->). rewrite Hfr, Hfinal in Hmid.
    assert (Hno : forall e, e ∈ Stderr (MsgStarting ptype') :: mid ++
                      [ReportSaved now (session_id data) (loc_test_results locals)
                         (stats_of (loc_test_results locals))] ->
                    e <> Stderr MsgAllFixedVerifying /\
                    forall n, e <> Posted (AutoFixSuccess n)).
    { intros e He. apply elem_of_cons in He as [->|He]; [by split|].
      apply elem_of_app in He as [He|He].
      2:{ apply list_elem_of_singleton in He. rewrite He. by split. }
      destruct (remediation_trace_elem _ _ _ _ Hmid He)
        as [Hl|[->|[->|[->|[(lines & ->)|(fr' & final' & [=] & _)]]]]]; try by split.
      destruct e; try discriminate. by split. }
    split; [intros Hmem; by destruct (Hno _ Hmem)|].
    split; [done|].
    intros n Hmem. destruct (Hno _ Hmem) as [_ Hn]. by apply (Hn n).
  - destruct Hround as [Hnone _]. congruence.
Qed.

End Engine.

Import Script.

(** *** On the project that the linter can repair, and on the red one *)

Lemma healing_run_eq : healing_run = (Ok healing_locals, healing_end).
Proof.
  unfold healing_locals, healing_end.
  apply (BettyFacts.returned_eq healing_run no_locals). decide_it.
Qed.

Lemma red_run_eq : red_run = (Ok red_locals, red_end).
Proof.
  unfold red_locals, red_end.
  apply (BettyFacts.returned_eq red_run no_locals). decide_it.
Qed.

(** The linter repairs both issues, the second pass finds nothing, and
    the run announces success for two. *)
Lemma success_is_announced_after_a_clean_pass_witness :
  Posted (AutoFixSuccess 2) ∈ trace healing_end /\
  Stderr (MsgFoundIssues 2) ∈ trace healing_end /\
  Stderr MsgAllFixedVerifying ∈ trace healing_end /\
  Stderr MsgAllPassingReady ∈ trace healing_end /\
  exists fr final,
    loc_fix_results healing_locals = Some fr /\
    loc_final_results healing_locals = Some final /\
    all_fixed fr = true /\
    fixed_count fr = 2 /\
    len (failures (loc_test_results healing_locals)) = 2 /\
    failures final = [] /\
    failed fr = [].
Proof.
  assert (Hin : Posted (AutoFixSuccess 2) ∈ trace healing_end) by decide_it.
  destruct (success_is_announced_after_a_clean_pass (H := healing)
              idle_session healing_start (Ok healing_locals) healing_end
              (trace healing_end) 2 healing_run_eq
              (eq_sym (app_nil_l (trace healing_end))) Hin)
    as (Hfound & Hver & Hpass & Hloc).
  repeat (split; [assumption|]). exact (Hloc healing_locals eq_refl).
Defined.

(** The failing test is recorded as failed, and the run ends without a
    second pass. *)
Lemma test_failure_ends_the_run_unverified_witness :
  exists fr evs,
    loc_fix_results red_locals = Some fr /\
    loc_final_results red_locals = None /\
    failed_assertion ∈ failed fr /\
    all_fixed fr = false /\
    trace red_end = trace (start (E := event) red) ++ evs /\
    Stderr MsgCouldNotFix ∈ evs /\
    (Stderr MsgAllFixedVerifying ∉ evs) /\
    reverifications evs = 0%nat.
Proof.
  assert (Hin : failed_assertion ∈ failures (loc_test_results red_locals)) by decide_it.
  destruct (test_failure_ends_the_run_unverified (H := scripted red)
              (Ok idle_session) (start red) red_locals red_end failed_assertion
              red_run_eq Hin (or_introl eq_refl))
    as (fr & evs & Hfr & Hfinal & Hfailed & _ & Hall & _ & Ht & Hline & Hno & Hrev & _).
  exists fr, evs. repeat (split; [assumption|]). assumption.
Defined.

End RunFacts.
(** ** The gate and its checks *)

Module GateFacts.
Import Py Rt RtFacts Guardian.
Local Open Scope py_scope.

Section Gate.
Context `{Host}.

(** *** The issues of a pass *)

Lemma unpack4_inv m (st : state event) a b c d st' :
  unpack4 m st = (Ok (a, b, c, d), st') -> st' = st.
Proof.
  unfold unpack4. destruct m as [|a0 [|b0 [|c0 [|d0 [|]]]]]; try discriminate.
  by intros [= _ _ _ _ <-].
Qed.

Lemma typescript_issue_inv m errors st errors' st' :
  typescript_issue m errors st = (Ok errors', st') ->
  exists i, errors' = errors ++ [i] /\ issue_of "typescript" i.
Proof.
  unfold typescript_issue, bind.
  destruct (unpack4 m st) as [[[[[a b] c] d]|e] st1]; [|discriminate].
  intros [= <- <-]. eexists. split; [reflexivity|].
  split; [reflexivity|]. by eexists.
Qed.

Lemma lint_issue_inv m errors st errors' st' :
  lint_issue m errors st = (Ok errors', st') ->
  exists i, errors' = errors ++ [i] /\ issue_of "lint" i.
Proof.
  unfold lint_issue, bind.
  destruct (unpack4 m st) as [[[[[a b] c] d]|e] st1]; [|discriminate].
  intros [= <- <-]. eexists. split; [reflexivity|].
  split; [reflexivity|]. by eexists.
Qed.

Lemma python_issue_inv py_file errors st errors' st' :
  python_issue py_file errors st = (Ok errors', st') ->
  errors' = errors \/ exists i, errors' = errors ++ [i] /\ issue_of "python_syntax" i.
Proof.
  unfold python_issue. destruct (negb (String.eqb py_file EmptyString)).
  2:{ intros [= <- <-]. by left. }
  unfold bind, host. destruct (subprocess_run _ _ _) as [[p|e] w]; [|discriminate].
  destruct (negb (String.eqb (proc_stderr p) EmptyString)).
  2:{ intros [= <- <-]. by left. }
  destruct (re_search _ _) as [m|].
  2:{ intros [= <- <-]. by left. }
  intros [= <- <-]. right. eexists. split; [reflexivity|].
  split; [reflexivity|]. by eexists.
Qed.

(** A loop that adds one issue of a type at each turn. *)
Lemma issue_loop {A} (body : A -> list issue -> Guardian.M (list issue)) (ty : string)
    (xs : list A) st l st' :
  (forall x errors st errors' st',
     body x errors st = (Ok errors', st') ->
     exists i, errors' = errors ++ [i] /\ issue_of ty i) ->
  for_each xs body [] st = (Ok l, st') ->
  List.length l = List.length xs /\ Forall (issue_of ty) l.
Proof.
  intros Hbody Hrun.
  apply (LoopFacts.for_each_Ok_inv body
           (fun done l => List.length l = List.length done /\ Forall (issue_of ty) l)
           xs [] [] st l st'); [|done|done].
  clear -Hbody. intros x done errors st errors' st' [Hlen Hall] Hturn.
  destruct (Hbody _ _ _ _ _ Hturn) as (i & -> & Hi).
  rewrite !length_app, Hlen. split; [done|].
  apply Forall_app_2; [done | by constructor].
Qed.

Lemma check_javascript_inv st l st' :
  check_javascript st = (Ok l, st') ->
  (List.length l <= 5)%nat /\ Forall (issue_of "typescript") l.
Proof.
  unfold check_javascript, exists_in_project, bind, query.
  destruct (path_exists _ _) as [[|]|e]; [|intros [= <- <-]; simpl; split; [lia | done]
                                          |discriminate].
  unfold host. destruct (subprocess_run _ _ _) as [[p|e] w]; [|discriminate].
  destruct (_ || _); [|intros [= <- <-]; simpl; split; [lia | done]].
  intros Hloop. apply (issue_loop _ "typescript") in Hloop as [Hlen Hall].
  - split; [|done]. rewrite Hlen, length_take. lia.
  - apply typescript_issue_inv.
Qed.

Lemma check_linting_inv st l st' :
  check_linting st = (Ok l, st') ->
  (List.length l <= 3)%nat /\ Forall (issue_of "lint") l.
Proof.
  unfold check_linting, exists_in_project, bind, query.
  destruct (path_exists _ _) as [[|]|e]; [|intros [= <- <-]; simpl; split; [lia | done]
                                          |discriminate].
  unfold host. destruct (subprocess_run _ _ _) as [[p|e] w]; [|discriminate].
  destruct (contains _ _); [|intros [= <- <-]; simpl; split; [lia | done]].
  intros Hloop. apply (issue_loop _ "lint") in Hloop as [Hlen Hall].
  - split; [|done]. rewrite Hlen, length_take. lia.
  - apply lint_issue_inv.
Qed.

Lemma check_python_inv st l st' :
  check_python st = (Ok l, st') -> Forall (issue_of "python_syntax") l.
Proof.
  unfold check_python, bind.
  destruct (try_except _ _ st) as [[py_files|e] st1]; [|discriminate].
  intros Hloop.
  apply (LoopFacts.for_each_Ok_inv python_issue
           (fun _ l => Forall (issue_of "python_syntax") l)
           py_files [] [] st1 l st'); [|done|done].
  clear. intros f done errors st errors' st' Hall Hturn.
  apply python_issue_inv in Hturn as [->|(i & -> & Hi)]; [done|].
  apply Forall_app_2; [done | by constructor].
Qed.

Lemma check_docker_inv st l st' :
  check_docker st = (Ok l, st') ->
  (List.length l <= 1)%nat /\ Forall (issue_of "docker_compose") l.
Proof.
  unfold check_docker, exists_in_project, bind, query.
  destruct (path_exists _ _) as [[|]|e]; [|intros [= <- <-]; simpl; split; [lia | done]
                                          |discriminate].
  unfold host. destruct (subprocess_run _ _ _) as [[p|e] w]; [|discriminate].
  destruct (negb _); intros [= <- <-]; simpl; (split; [lia|]); [|done].
  constructor; [|done]. split; [reflexivity|]. by eexists.
Qed.

Lemma git_warnings_inv stdout :
  (List.length (git_warnings stdout) <= 1)%nat /\
  Forall (issue_of "git_warning") (git_warnings stdout).
Proof.
  unfold git_warnings. repeat case_match; simpl; (split; [lia|]); try done.
  constructor; [|done]. split; [reflexivity|]. by eexists.
Qed.

Lemma check_git_status_inv st l st' :
  check_git_status st = (Ok l, st') ->
  (List.length l <= 1)%nat /\ Forall (issue_of "git_warning") l.
Proof.
  unfold check_git_status, bind, host.
  destruct (subprocess_run _ _ _) as [[p|e] w]; [|discriminate].
  intros [= <- <-]. apply git_warnings_inv.
Qed.

Lemma run_checks_inv st issues st' :
  run_checks st = (Ok issues, st') ->
  exists js py dk lint git st1 st2 st3 st4,
    check_javascript st = (Ok js, st1) /\
    check_python st1 = (Ok py, st2) /\
    check_docker st2 = (Ok dk, st3) /\
    check_linting st3 = (Ok lint, st4) /\
    check_git_status st4 = (Ok git, st') /\
    issues = js ++ py ++ dk ++ lint ++ git.
Proof.
  unfold run_checks. intros Hrun.
  apply GuardianFacts.bind_Ok_inv in Hrun as (js & st1 & Hjs & Hrun).
  apply GuardianFacts.bind_Ok_inv in Hrun as (py & st2 & Hpy & Hrun).
  apply GuardianFacts.bind_Ok_inv in Hrun as (dk & st3 & Hdk & Hrun).
  apply GuardianFacts.bind_Ok_inv in Hrun as (lint & st4 & Hlint & Hrun).
  apply GuardianFacts.bind_Ok_inv in Hrun as (git & st5 & Hgit & Hrun).
  injection Hrun as <- <-.
  exists js, py, dk, lint, git, st1, st2, st3, st4.
  repeat (split; [done|]). simpl. by rewrite <- !app_assoc.
Qed.

(** *** How many issues a check yields *)

Lemma typescript_issue_pure m errors (st : state event) o st' :
  typescript_issue m errors st = (o, st') -> st' = st.
Proof.
  unfold typescript_issue, bind, unpack4.
  destruct m as [|a [|b [|c [|d [|]]]]]; by intros [= _ <-].
Qed.

Lemma lint_issue_pure m errors (st : state event) o st' :
  lint_issue m errors st = (o, st') -> st' = st.
Proof.
  unfold lint_issue, bind, unpack4.
  destruct m as [|a [|b [|c [|d [|]]]]]; by intros [= _ <-].
Qed.

(** The type check: without [package.json] it runs nothing; with it, it
    runs the compiler once and yields one issue for each of the first
    five errors that the output shows. *)
Lemma check_javascript_count st js st1 :
  check_javascript st = (Ok js, st1) ->
  match path_exists (betty_dir +:+ "/" +:+ "package.json") (world st) with
  | Ok true =>
      exists p w,
        subprocess_run "npm run type-check 2>&1 || npx tsc --noEmit 2>&1 || true"
          (Some 10%nat) (world st) = (Ok p, w) /\
        st1 = State w (trace st) /\
        List.length js =
          if negb (String.eqb (proc_stdout p) EmptyString)
             || negb (String.eqb (proc_stderr p) EmptyString)
          then Nat.min 5
                 (List.length
                    (re_findall "(.+?)\((\d+),(\d+)\): error TS\d+: (.+)"
                       (proc_stdout p +:+ proc_stderr p)))
          else 0%nat
  | _ => js = [] /\ st1 = st
  end.
Proof.
  unfold check_javascript, exists_in_project, bind, query.
  destruct (path_exists _ _) as [[|]|e]; [|by intros [= <- <-] | discriminate].
  unfold host. destruct (subprocess_run _ _ _) as [[p|e] w]; [|discriminate].
  intros Hrun. exists p, w. split; [done|].
  destruct (_ || _).
  - split.
    + eapply LoopFacts.for_each_pure; [|exact Hrun].
      intros x s st0 o0 st0' Hx. by apply typescript_issue_pure in Hx.
    + apply (issue_loop _ "typescript") in Hrun as [Hlen _];
        [|apply typescript_issue_inv].
      rewrite Hlen, length_take. reflexivity.
  - by injection Hrun as <- <-.
Qed.

(** The linter: without [package.json] it runs nothing; with it, it runs
    once and yields one issue for each of the first three errors, when
    its output names an error at all. *)
Lemma check_linting_count st lint st1 :
  check_linting st = (Ok lint, st1) ->
  match path_exists (betty_dir +:+ "/" +:+ "package.json") (world st) with
  | Ok true =>
      exists p w,
        subprocess_run "npm run lint 2>&1 | head -20" (Some 10%nat) (world st)
          = (Ok p, w) /\
        st1 = State w (trace st) /\
        List.length lint =
          if contains "error" (lower (proc_stdout p))
          then Nat.min 3
                 (List.length
                    (re_findall "(.+?):(\d+):(\d+)\s+error\s+(.+)" (proc_stdout p)))
          else 0%nat
  | _ => lint = [] /\ st1 = st
  end.
Proof.
  unfold check_linting, exists_in_project, bind, query.
  destruct (path_exists _ _) as [[|]|e]; [|by intros [= <- <-] | discriminate].
  unfold host. destruct (subprocess_run _ _ _) as [[p|e] w]; [|discriminate].
  intros Hrun. exists p, w. split; [done|].
  destruct (contains _ _).
  - split.
    + eapply LoopFacts.for_each_pure; [|exact Hrun].
      intros x s st0 o0 st0' Hx. by apply lint_issue_pure in Hx.
    + apply (issue_loop _ "lint") in Hrun as [Hlen _]; [|apply lint_issue_inv].
      rewrite Hlen, length_take. reflexivity.
  - by injection Hrun as <- <-.
Qed.

(** The Docker check: without [docker-compose.yml] it runs nothing; with
    it, it validates the file once and yields one issue exactly when the
    validation exits with an error. *)
Lemma check_docker_count st dk st1 :
  check_docker st = (Ok dk, st1) ->
  match path_exists (betty_dir +:+ "/" +:+ "docker-compose.yml") (world st) with
  | Ok true =>
      exists p w,
        subprocess_run "docker-compose config -q 2>&1" (Some 5%nat) (world st)
          = (Ok p, w) /\
        st1 = State w (trace st) /\
        List.length dk = if returncode p =? 0 then 0%nat else 1%nat
  | _ => dk = [] /\ st1 = st
  end.
Proof.
  unfold check_docker, exists_in_project, bind, query.
  destruct (path_exists _ _) as [[|]|e]; [|by intros [= <- <-] | discriminate].
  unfold host. destruct (subprocess_run _ _ _) as [[p|e] w]; [|discriminate].
  intros Hrun. exists p, w. split; [done|].
  destruct (returncode p =? 0); by injection Hrun as <- <-.
Qed.

(** The check of uncommitted changes runs [git status] once. *)
Lemma check_git_status_count st git st1 :
  check_git_status st = (Ok git, st1) ->
  exists p w,
    subprocess_run "git status --porcelain" None (world st) = (Ok p, w) /\
    st1 = State w (trace st) /\
    git = git_warnings (proc_stdout p).
Proof.
  unfold check_git_status, bind, host.
  destruct (subprocess_run _ _ _) as [[p|e] w]; [|discriminate].
  intros [= <- <-]. by exists p, w.
Qed.

(** X20.  The issues of a verification pass are those of its five checks,
    each run once, in the state the check before it left, and in this
    order: the type check, the Python syntax check, the Docker check, the
    linter and the check of uncommitted changes.  Each check gives its
    issues its own type and a message; the type check yields five issues
    at most, the linter three, the Docker check and the check of
    uncommitted changes one each.  The type check and the linter run
    nothing without [package.json] and the Docker check nothing without
    [docker-compose.yml]; otherwise each runs its command once and
    yields one issue for each of the first five, or three, errors that it
    finds in the output, or for the failed validation. *)
Theorem pass_issues_are_typed_and_bounded (st : state event) (issues : list issue)
    (st' : state event) :
  run_checks st = (Ok issues, st') ->
  exists js py dk lint git st1 st2 st3 st4,
    check_javascript st = (Ok js, st1) /\
    check_python st1 = (Ok py, st2) /\
    check_docker st2 = (Ok dk, st3) /\
    check_linting st3 = (Ok lint, st4) /\
    check_git_status st4 = (Ok git, st') /\
    issues = js ++ py ++ dk ++ lint ++ git /\
    (Forall (issue_of "typescript") js /\ (List.length js <= 5)%nat /\
     Forall (issue_of "python_syntax") py /\
     Forall (issue_of "docker_compose") dk /\ (List.length dk <= 1)%nat /\
     Forall (issue_of "lint") lint /\ (List.length lint <= 3)%nat /\
     Forall (issue_of "git_warning") git /\ (List.length git <= 1)%nat) /\
    match path_exists (betty_dir +:+ "/" +:+ "package.json") (world st) with
    | Ok true =>
        exists p w,
          subprocess_run "npm run type-check 2>&1 || npx tsc --noEmit 2>&1 || true"
            (Some 10%nat) (world st) = (Ok p, w) /\
          st1 = State w (trace st) /\
          List.length js =
            if negb (String.eqb (proc_stdout p) EmptyString)
               || negb (String.eqb (proc_stderr p) EmptyString)
            then Nat.min 5
                   (List.length
                      (re_findall "(.+?)\((\d+),(\d+)\): error TS\d+: (.+)"
                         (proc_stdout p +:+ proc_stderr p)))
            else 0%nat
    | _ => js = [] /\ st1 = st
    end /\
    match path_exists (betty_dir +:+ "/" +:+ "docker-compose.yml") (world st2) with
    | Ok true =>
        exists p w,
          subprocess_run "docker-compose config -q 2>&1" (Some 5%nat) (world st2)
            = (Ok p, w) /\
          st3 = State w (trace st2) /\
          List.length dk = if returncode p =? 0 then 0%nat else 1%nat
    | _ => dk = [] /\ st3 = st2
    end /\
    match path_exists (betty_dir +:+ "/" +:+ "package.json") (world st3) with
    | Ok true =>
        exists p w,
          subprocess_run "npm run lint 2>&1 | head -20" (Some 10%nat) (world st3)
            = (Ok p, w) /\
          st4 = State w (trace st3) /\
          List.length lint =
            if contains "error" (lower (proc_stdout p))
            then Nat.min 3
                   (List.length
                      (re_findall "(.+?):(\d+):(\d+)\s+error\s+(.+)" (proc_stdout p)))
            else 0%nat
    | _ => lint = [] /\ st4 = st3
    end /\
    exists p w,
      subprocess_run "git status --porcelain" None (world st4) = (Ok p, w) /\
      st' = State w (trace st4) /\
      git = git_warnings (proc_stdout p).
Proof.
  intros (js & py & dk & lint & git & st1 & st2 & st3 & st4
          & Hjs & Hpy & Hdk & Hlint & Hgit & ->)%run_checks_inv.
  exists js, py, dk, lint, git, st1, st2, st3, st4.
  repeat (split; [done|]).
  split.
  { apply check_javascript_inv in Hjs as [? ?].
    apply check_python_inv in Hpy.
    apply check_docker_inv in Hdk as [? ?].
    apply check_linting_inv in Hlint as [? ?].
    apply check_git_status_inv in Hgit as [? ?].
    repeat split; done. }
  split; [by apply check_javascript_count|].
  split; [by apply check_docker_count|].
  split; [by apply check_linting_count | by apply check_git_status_count].
Qed.

(** *** The block message *)

Lemma key_eqb_refl (k : pyval) : key_eqb k k = true.
Proof. unfold key_eqb. destruct k; by apply bool_decide_eq_true_2. Qed.

Lemma add_to_group_perm k i l :
  concat (map snd (add_to_group k i l)) ≡ₚ concat (map snd l) ++ [i].
Proof.
  induction l as [|[k0 l0] rest IH]; simpl; [done|].
  destruct (key_eqb k0 k); simpl.
  - rewrite <- !app_assoc. apply Permutation_app_head, Permutation_app_comm.
  - rewrite IH. by rewrite app_assoc.
Qed.

Lemma add_to_group_length k i l :
  (List.length (add_to_group k i l) <= S (List.length l))%nat.
Proof.
  induction l as [|[k0 l0] rest IH]; simpl; [lia|].
  destruct (key_eqb k0 k); simpl; lia.
Qed.

(** A property of the keys that holds of the new key holds of all keys
    after an issue was added. *)
Lemma add_to_group_keys (P : pyval -> bool) k i l :
  P k = true ->
  forallb (fun g => P (fst g)) l = true ->
  forallb (fun g => P (fst g)) (add_to_group k i l) = true.
Proof.
  intros Hk. induction l as [|[k0 l0] rest IH]; simpl.
  - by rewrite Hk.
  - intros [H0 Hrest]%andb_true_iff.
    destruct (key_eqb k0 k); simpl; rewrite H0; simpl; [done | by apply IH].
Qed.

Lemma add_to_group_distinct k i l :
  distinct_keys l = true -> distinct_keys (add_to_group k i l) = true.
Proof.
  induction l as [|[k0 l0] rest IH]; simpl; [done|].
  intros [H0 Hrest]%andb_true_iff.
  destruct (key_eqb k0 k) eqn:Hk; simpl.
  - by rewrite H0, Hrest.
  - rewrite IH by done. rewrite andb_true_r.
    apply (add_to_group_keys (fun k' => negb (key_eqb k0 k'))); [by rewrite Hk | done].
Qed.

(** Every group holds an issue, and the issues of a group have its key as
    their type. *)
Lemma add_to_group_members i l :
  Forall (fun g => snd g <> [] /\
            Forall (fun j => key_eqb (fst g) (get_default j "type" (VStr "unknown")) = true)
                   (snd g)) l ->
  Forall (fun g => snd g <> [] /\
            Forall (fun j => key_eqb (fst g) (get_default j "type" (VStr "unknown")) = true)
                   (snd g))
         (add_to_group (get_default i "type" (VStr "unknown")) i l).
Proof.
  induction 1 as [|[k0 l0] rest [Hne Hkeys] Hrest IH]; simpl.
  - constructor; [|done]. simpl. split; [done|].
    constructor; [apply key_eqb_refl | done].
  - destruct (key_eqb k0 _) eqn:Hk; constructor; simpl in *; try done.
    split; [by destruct l0|]. apply Forall_app_2; [done | by constructor].
Qed.

Lemma group_by_type_facts (issues : list issue) :
  concat (map snd (group_by_type issues)) ≡ₚ issues /\
  Forall (fun g => snd g <> [] /\
            Forall (fun j => key_eqb (fst g) (get_default j "type" (VStr "unknown")) = true)
                   (snd g))
         (group_by_type issues) /\
  distinct_keys (group_by_type issues) = true /\
  (List.length (group_by_type issues) <= List.length issues)%nat.
Proof.
  unfold group_by_type.
  set (step := fun (by_type : list (pyval * list issue)) (i : issue) => _).
  assert (Hgen : forall rest acc,
            Forall (fun g => snd g <> [] /\
                      Forall (fun j => key_eqb (fst g)
                                         (get_default j "type" (VStr "unknown")) = true)
                             (snd g)) acc ->
            distinct_keys acc = true ->
            concat (map snd (fold_left step rest acc)) ≡ₚ concat (map snd acc) ++ rest /\
            Forall (fun g => snd g <> [] /\
                      Forall (fun j => key_eqb (fst g)
                                         (get_default j "type" (VStr "unknown")) = true)
                             (snd g)) (fold_left step rest acc) /\
            distinct_keys (fold_left step rest acc) = true /\
            (List.length (fold_left step rest acc) <= List.length acc + List.length rest)%nat).
  { induction rest as [|i rest IH]; intros acc Hmem Hdist; simpl.
    - rewrite app_nil_r. repeat split; try done. lia.
    - destruct (IH (step acc i)) as (Hperm & Hmem' & Hdist' & Hlen).
      + by apply add_to_group_members.
      + by apply add_to_group_distinct.
      + split; [|split; [done|split; [done|]]].
        * rewrite Hperm. unfold step. rewrite add_to_group_perm.
          by rewrite <- app_assoc.
        * pose proof (add_to_group_length (get_default i "type" (VStr "unknown")) i acc)
            as Hadd.
          change (add_to_group _ i acc) with (step acc i) in Hadd. lia. }
  destruct (Hgen issues []) as (Hperm & Hmem & Hdist & Hlen); try done.
Qed.

(** X21.  Grouping the issues by type loses none and repeats none: the
    groups together hold the issues of the pass, each as often as the
    pass listed it.  There is one group for each type (an issue without a
    type counting as [unknown]), no group is empty, and there are no more
    groups than issues. *)
Theorem grouping_keeps_every_issue (issues : list issue) :
  concat (map snd (group_by_type issues)) ≡ₚ issues /\
  Forall (fun g => snd g <> [] /\
            Forall (fun j => key_eqb (fst g) (get_default j "type" (VStr "unknown")) = true)
                   (snd g))
         (group_by_type issues) /\
  distinct_keys (group_by_type issues) = true /\
  (List.length (group_by_type issues) <= List.length issues)%nat /\
  (group_by_type issues = [] <-> issues = []).
Proof.
  destruct (group_by_type_facts issues) as (Hperm & Hmem & Hdist & Hlen).
  repeat (split; [done|]). split.
  - intros Hnil. rewrite Hnil in Hperm. simpl in Hperm.
    by apply Permutation_nil_l in Hperm.
  - by intros ->.
Qed.

Lemma py_slice_to_pure n v (st : state event) o st' :
  py_slice_to n v st = (o, st') -> st' = st.
Proof. destruct v; simpl; by intros [= _ <-]. Qed.

Lemma bullet_of_inv i bullets st o st' :
  bullet_of i bullets st = (o, st') ->
  st' = st /\ forall bs, o = Ok bs -> exists b, bs = bullets ++ [b].
Proof.
  unfold bullet_of, bind.
  destruct (has_key i "file" && has_key i "line");
    destruct (py_slice_to _ _ st) as [[short|e] st1] eqn:Hs;
    apply py_slice_to_pure in Hs as ->; unfold ret; intros [= <- <-];
    (split; [done|]); intros bs [= <-]; eauto.
Qed.

Lemma bullet_of_Ok i bullets st :
  printable i -> exists bs, bullet_of i bullets st = (Ok bs, st).
Proof.
  intros [s Hs]. unfold bullet_of, bind. rewrite Hs. simpl.
  destruct (has_key i "file" && has_key i "line"); by eexists.
Qed.

Lemma bullets_loop l acc st o st' :
  for_each l bullet_of acc st = (o, st') ->
  st' = st /\
  forall bs, o = Ok bs -> List.length bs = (List.length acc + List.length l)%nat.
Proof.
  intros Hrun. split.
  - eapply LoopFacts.for_each_pure; [|exact Hrun].
    intros x s st0 o0 st0' Hx. by apply bullet_of_inv in Hx as [-> _].
  - intros bs ->.
    apply (LoopFacts.for_each_Ok_inv bullet_of
             (fun done bs => List.length bs = (List.length acc + List.length done)%nat)
             l [] acc st bs st'); [|simpl; lia | done].
    clear. intros x done s st s' st' Hlen Hx.
    apply bullet_of_inv in Hx as [_ Hb]. destruct (Hb s' eq_refl) as (b & ->).
    rewrite !length_app, Hlen. simpl. lia.
Qed.

Lemma group_of_inv g message st o st' :
  group_of g message st = (o, st') ->
  st' = st /\
  forall message', o = Ok message' ->
    exists bullets,
      message' = message ++ [(heading_of (fst g), bullets)] /\
      List.length bullets = Nat.min 3 (List.length (snd g)).
Proof.
  destruct g as [k l]. unfold group_of, bind.
  destruct (for_each (take 3 l) bullet_of [] st) as [[bullets|e] st1] eqn:Hloop;
    apply bullets_loop in Hloop as [-> Hlen]; unfold ret; intros [= <- <-];
    (split; [done|]); intros message' [= <-].
  exists bullets. split; [done|]. rewrite (Hlen bullets eq_refl), length_take. simpl. lia.
Qed.

Lemma group_of_Ok g message st :
  Forall printable (snd g) -> exists message', group_of g message st = (Ok message', st).
Proof.
  destruct g as [k l]. simpl. intros Hall. unfold group_of, bind.
  destruct (LoopFacts.for_each_Ok bullet_of (take 3 l) [] st) as (bullets & ->).
  - intros i Hi bs. apply bullet_of_Ok.
    rewrite Forall_forall in Hall. apply Hall.
    eapply elem_of_sublist; [exact Hi | apply sublist_take].
  - by eexists.
Qed.

(** What [format_block_message] returns, when it returns. *)
Lemma format_block_message_inv issues st r st' :
  format_block_message issues st = (Ok r, st') ->
  st' = st /\
  match r with
  | None => issues = []
  | Some m =>
      issues <> [] /\
      issue_count m = len issues /\
      Forall2 (fun g b => fst b = heading_of (fst g) /\
                          List.length (snd b) = Nat.min 3 (List.length (snd g)))
              (group_by_type issues) (groups m)
  end.
Proof.
  unfold format_block_message. destruct issues as [|i issues]; [by intros [= <- <-]|].
  unfold bind.
  destruct (for_each _ group_of [] st) as [[message|e] st1] eqn:Hloop; [|discriminate].
  intros [= <- <-]. split.
  - eapply LoopFacts.for_each_pure; [|exact Hloop].
    intros g s st0 o0 st0' Hg. by apply group_of_inv in Hg as [-> _].
  - split; [done|]. split; [done|]. simpl.
    apply (LoopFacts.for_each_Ok_inv group_of
             (fun done message =>
                Forall2 (fun g b => fst b = heading_of (fst g) /\
                           List.length (snd b) = Nat.min 3 (List.length (snd g)))
                        done message)
             (group_by_type (i :: issues)) [] [] st message st1); [|done|done].
    clear. intros g done s st s' st' Hall Hg.
    apply group_of_inv in Hg as [_ Hm]. destruct (Hm s' eq_refl) as (bullets & -> & Hlen).
    apply Forall2_app; [done|]. by repeat constructor.
Qed.

(** The block message can be built when every message is a string. *)
Lemma format_block_message_Ok issues st :
  Forall printable issues -> exists r, format_block_message issues st = (Ok r, st).
Proof.
  intros Hall. unfold format_block_message. destruct issues as [|i issues]; [by eexists|].
  unfold bind.
  destruct (LoopFacts.for_each_Ok group_of (group_by_type (i :: issues)) [] st)
    as (message & ->); [|by eexists].
  intros g Hg message. apply group_of_Ok.
  apply Forall_forall. intros j Hj.
  rewrite Forall_forall in Hall. apply Hall.
  destruct (group_by_type_facts (i :: issues)) as (Hperm & _).
  rewrite <- Hperm. apply list_elem_of_In, in_concat. exists (snd g).
  split; [|by apply list_elem_of_In]. apply in_map. by apply list_elem_of_In.
Qed.

(** X22.  The block message counts every issue and shows at most three
    of each type.  When [format_block_message] returns, it has changed
    nothing; it returns no message exactly for the empty list; a message
    gives the number of all issues and has one group of bullets for each
    group of [group_by_type], in the same order, under the heading of
    its type, with one bullet for each of the first three issues of the
    type, so between one and three.  It returns whenever the message
    of every issue is a string or missing. *)
Theorem block_message_shows_three_per_type :
  (forall issues (st : state event) r st',
     format_block_message issues st = (Ok r, st') ->
     st' = st /\
     match r with
     | None => issues = []
     | Some m =>
         issues <> [] /\
         issue_count m = len issues /\
         Forall2 (fun g b => fst b = heading_of (fst g) /\
                             List.length (snd b) = Nat.min 3 (List.length (snd g)))
                 (group_by_type issues) (groups m) /\
         Forall (fun b => (1 <= List.length (snd b) <= 3)%nat) (groups m) /\
         (1 <= List.length (groups m) <= List.length issues)%nat
     end) /\
  (forall issues (st : state event),
     Forall printable issues ->
     exists r, format_block_message issues st = (Ok r, st)).
Proof.
  split; [|apply format_block_message_Ok].
  intros issues st r st' Hrun.
  apply format_block_message_inv in Hrun as [-> Hr]. split; [done|].
  destruct r as [m|]; [|done].
  destruct Hr as (Hne & Hcount & Hgroups).
  destruct (group_by_type_facts issues) as (Hperm & Hmem & _ & Hlen).
  repeat (split; [done|]). split.
  - clear -Hgroups Hmem. induction Hgroups as [|g b gs bs [_ Hb] _ IH]; [done|].
    apply Forall_cons in Hmem as [[Hg _] Hmem].
    constructor; [|by apply IH].
    rewrite Hb. destruct (snd g) as [|j l]; [done|]. cbn [List.length]. lia.
  - rewrite <- (Forall2_length _ _ _ Hgroups). split; [|done].
    destruct (group_by_type issues) eqn:Hg; [|simpl; lia].
    simpl in Hperm. by apply Permutation_nil_l in Hperm.
Qed.

(** *** The decision of the gate *)

Lemma issue_of_printable ty i : issue_of ty i -> printable i.
Proof. intros [_ [s Hs]]. exists s. unfold get_default. by rewrite Hs. Qed.

Lemma pass_issues_printable st issues st' :
  run_checks st = (Ok issues, st') -> Forall printable issues.
Proof.
  intros (js & py & dk & lint & git & st1 & st2 & st3 & st4
          & Hjs & Hpy & Hdk & Hlint & Hgit & ->)%run_checks_inv.
  apply check_javascript_inv in Hjs as [_ Hjs].
  apply check_python_inv in Hpy.
  apply check_docker_inv in Hdk as [_ Hdk].
  apply check_linting_inv in Hlint as [_ Hlint].
  apply check_git_status_inv in Hgit as [_ Hgit].
  repeat apply Forall_app_2;
    (eapply Forall_impl; [eassumption | intros i; apply issue_of_printable]).
Qed.

(** X23.  The gate decides by its pass alone.  Once the pass of a
    checked tool call has returned its issues, the gate returns 0 and
    has printed its decision before it touches the log: for an empty
    list the line that completion is allowed, and otherwise the block
    action, whose message can always be built from the issues of a pass.
    A failure to write the log comes too late to change the decision:
    the gate then prints the error instead of the log entry and the
    closing line.  So the tool call is blocked exactly when the pass
    found an issue. *)
Theorem gate_decides_by_the_pass (t : tool_input) (st st1 : state event)
    (issues : list issue) :
  should_check t = Ok true ->
  run_checks (State (world st) (trace st ++ [Stderr MsgChecking])) = (Ok issues, st1) ->
  exists m st' tail,
    format_block_message issues st1 = (Ok m, st1) /\
    (m = None <-> issues = []) /\
    check_completion (Ok t) st = (Ok 0, st') /\
    world st' = snd (json_write blocks_log (world st1)) /\
    trace st' =
      trace st ++
      [ Stderr MsgChecking;
        if bool_decide (issues = []) then Stderr MsgAllowed else StdoutBlock m ] ++
      tail /\
    tail =
      match fst (json_write blocks_log (world st1)) with
      | Ok _ =>
          BlockLogged (now_isoformat (snd (json_write blocks_log (world st1)))) issues
            (negb (bool_decide (issues = []))) ::
          (if bool_decide (issues = []) then []
           else [Stderr (MsgBlocked (len issues))])
      | Raise e => [Stderr (MsgError (exn_str e))]
      end /\
    allowed
      ([ Stderr MsgChecking;
         if bool_decide (issues = []) then Stderr MsgAllowed else StdoutBlock m ] ++
       tail)
    = bool_decide (issues = []).
Proof.
  intros Hcheck Hpass.
  pose proof (GuardianFacts.run_checks_trace _ _ _ Hpass) as Htrace. simpl in Htrace.
  destruct (format_block_message_Ok issues st1 (pass_issues_printable _ _ _ Hpass))
    as (m & Hformat).
  pose proof (format_block_message_inv _ _ _ _ Hformat) as [_ Hm].
  assert (Hrun : check_completion (Ok t) st =
            try_except
              (match issues with
               | _ :: _ =>
                   (let* block_message := format_block_message issues in
                    emit (StdoutBlock block_message) ;;
                    append_block_log issues true ;;
                    print (MsgBlocked (len issues)))
               | [] => print MsgAllowed ;; append_block_log [] false
               end ;; ret 0)
              (fun e => print (MsgError (exn_str e)) ;; ret 0) st1).
  { unfold check_completion, check_completion_body, try_except, bind, lift, ret,
      print, emit.
    rewrite Hcheck. simpl. rewrite Hpass. reflexivity. }
  exists m. rewrite Hrun.
  unfold try_except, append_block_log, bind, host, ask, print, emit, ret.
  destruct issues as [|i issues].
  - destruct m as [m|]; [by destruct Hm|].
    rewrite bool_decide_eq_true_2 by done. simpl.
    destruct (json_write blocks_log (world st1)) as [[[]|e] w]; simpl;
      eexists _, _; (split; [done|]); (split; [done|]); (split; [reflexivity|]); simpl;
      (split; [reflexivity|]); rewrite Htrace, <- !app_assoc; simpl;
      (split; [reflexivity|]); split; reflexivity.
  - destruct m as [m|]; [|done].
    rewrite bool_decide_eq_false_2 by done. rewrite Hformat. simpl.
    destruct (json_write blocks_log (world st1)) as [[[]|e] w]; simpl;
      eexists _, _; (split; [done|]); (split; [done|]); (split; [reflexivity|]); simpl;
      (split; [reflexivity|]); rewrite Htrace, <- !app_assoc; simpl;
      (split; [reflexivity|]); split; reflexivity.
Qed.

(** The gate only adds to what was printed. *)
Lemma checked_call_grows :
  spec (try_except
          ((let* issues := run_checks in
            match issues with
            | _ :: _ =>
                let* block_message := format_block_message issues in
                emit (StdoutBlock block_message) ;;
                append_block_log issues true ;;
                print (MsgBlocked (len issues))
            | [] =>
                print MsgAllowed ;;
                append_block_log [] false
            end) ;; ret 0)
          (fun e => print (MsgError (exn_str e)) ;; ret 0))
       (fun _ _ => True).
Proof.
  eapply spec_try_except with (R1 := fun _ _ => True); [|done|].
  - eapply spec_bind with (R1 := fun _ _ => True); [|done|by intros; apply spec_ret].
    eapply spec_bind with (R1 := fun _ _ => True);
      [eapply spec_weaken; [apply GuardianFacts.run_checks_silent | done] | done |].
    intros issues evs2 _. destruct issues as [|i issues].
    + eapply spec_weaken; [apply GuardianFacts.allow_branch_spec | done].
    + eapply spec_weaken; [apply GuardianFacts.block_branch_spec | done].
  - intros e evs1 _.
    eapply spec_bind with (R1 := fun _ _ => True); [by apply spec_emit | done |].
    intros. by apply spec_ret.
Qed.

(** A call that is checked is announced, and then the pass runs. *)
Lemma check_completion_checked t st :
  should_check t = Ok true ->
  check_completion (Ok t) st =
  try_except
    ((let* issues := run_checks in
      match issues with
      | _ :: _ =>
          let* block_message := format_block_message issues in
          emit (StdoutBlock block_message) ;;
          append_block_log issues true ;;
          print (MsgBlocked (len issues))
      | [] =>
          print MsgAllowed ;;
          append_block_log [] false
      end) ;; ret 0)
    (fun e => print (MsgError (exn_str e)) ;; ret 0)
    (State (world st) (trace st ++ [Stderr MsgChecking])).
Proof.
  intros Hcheck.
  unfold check_completion, check_completion_body, try_except, bind, lift, ret, print, emit.
  rewrite Hcheck. reflexivity.
Qed.

(** When [should_check] raises, the gate prints the error and checks
    nothing. *)
Lemma check_completion_unreadable t e st :
  should_check t = Raise e ->
  check_completion (Ok t) st =
  (Ok 0, State (world st) (trace st ++ [Stderr (MsgError (exn_str e))])).
Proof.
  intros Hcheck.
  unfold check_completion, check_completion_body, try_except, bind, lift, ret, print, emit.
  rewrite Hcheck. reflexivity.
Qed.

(** A tool call is checked exactly when it is a [Bash] call whose command
    is a string that, in lower case, holds [echo] or [print] and one of
    the completion patterns. *)
Lemma should_check_true t :
  should_check t = Ok true <->
  exists cmd,
    tool_name t = Some "Bash" /\ command t = Command (VStr cmd) /\
    (contains "echo" (lower cmd) = true \/ contains "print" (lower cmd) = true) /\
    exists pattern,
      pattern ∈ completion_patterns /\ contains pattern (lower cmd) = true.
Proof.
  unfold should_check, command_text. split.
  - case_bool_decide as Hname; cbn [negb]; [|done].
    destruct (command t) as [|[| | |cmd|]|]; try done.
    destruct (contains "echo" (lower cmd) || contains "print" (lower cmd)) eqn:Hecho;
      [|done].
    set (found := existsb _ completion_patterns). intros [= Hfound].
    apply existsb_exists in Hfound as (pattern & Hin & Hp). exists cmd.
    split; [done|]. split; [done|]. split; [by apply orb_true_iff|].
    exists pattern. split; [by apply list_elem_of_In|].
    by rewrite PyFacts.lower_idem in Hp.
  - intros (cmd & Hname & -> & Hecho & pattern & Hin & Hp).
    rewrite bool_decide_eq_true_2 by done. cbn [negb].
    apply orb_true_iff in Hecho. rewrite Hecho. f_equal.
    apply existsb_exists. exists pattern.
    split; [by apply list_elem_of_In | by rewrite PyFacts.lower_idem].
Qed.

(** [should_check] raises exactly for a [Bash] call of which it cannot
    read the command. *)
Lemma should_check_raise t e :
  should_check t = Raise e <->
  tool_name t = Some "Bash" /\ e = attribute_error_exn /\
  (command t = NoDictionary \/
   exists v, command t = Command v /\ forall s, v <> VStr s).
Proof.
  unfold should_check, command_text. split.
  - case_bool_decide as Hname; cbn [negb]; [|done].
    destruct (command t) as [|v|]; try (by repeat case_match).
    + destruct v; try (by repeat case_match);
        intros [= <-]; (split; [done|]); (split; [done|]); right; eexists; by split.
    + intros [= <-]. split; [done|]. split; [done|]. by left.
  - intros (Hname & -> & [-> | (v & -> & Hv)]);
      rewrite bool_decide_eq_true_2 by done; cbn [negb]; [done|].
    destruct v; try done. by destruct (Hv s).
Qed.

(** X24.  The gate never raises, always returns 0, and only adds to what
    was printed.  A payload that cannot be read prints one error line
    and blocks nothing; so does a [Bash] call whose command is not a
    string, or whose [tool_input] is not a dictionary, for which
    [should_check] raises.  A tool call that [should_check] answers
    [False] for passes without any check, leaving the machine as it was;
    one that it answers [True] for is announced before anything else
    happens.  [should_check] answers [True] exactly for a [Bash] call
    whose command, in lower case, holds [echo] or [print] together with
    one of the completion patterns; so the gate blocks nothing but such
    calls. *)
Theorem gate_only_blocks_announcements (stdin : outcome tool_input) (st : state event) :
  exists st' evs,
    check_completion stdin st = (Ok 0, st') /\
    trace st' = trace st ++ evs /\
    match stdin with
    | Raise e => world st' = world st /\ evs = [Stderr (MsgError (exn_str e))]
    | Ok t =>
        match should_check t with
        | Ok false => st' = st /\ evs = []
        | Ok true => exists rest, evs = Stderr MsgChecking :: rest
        | Raise e => world st' = world st /\ evs = [Stderr (MsgError (exn_str e))]
        end /\
        (should_check t = Ok true <->
         exists cmd,
           tool_name t = Some "Bash" /\ command t = Command (VStr cmd) /\
           (contains "echo" (lower cmd) = true \/
            contains "print" (lower cmd) = true) /\
           exists pattern,
             pattern ∈ completion_patterns /\ contains pattern (lower cmd) = true) /\
        (forall e,
           should_check t = Raise e <->
           tool_name t = Some "Bash" /\ e = attribute_error_exn /\
           (command t = NoDictionary \/
            exists v, command t = Command v /\ forall s, v <> VStr s)) /\
        (allowed evs = false -> should_check t = Ok true)
    end.
Proof.
  destruct stdin as [t|e].
  2:{ eexists _, _. split; [reflexivity|]. simpl. by repeat split. }
  pose proof (should_check_true t) as Htrue.
  pose proof (should_check_raise t) as Hraise.
  destruct (should_check t) as [[|]|e] eqn:Hcheck.
  - destruct (GuardianFacts.check_completion_returns (Ok t) st) as (st' & Hrun).
    pose proof Hrun as Hrun'. rewrite (check_completion_checked t st Hcheck) in Hrun'.
    destruct (checked_call_grows _ _ _ Hrun') as (rest & Ht & _). simpl in Ht.
    exists st', (Stderr MsgChecking :: rest). split; [exact Hrun|].
    split; [by rewrite Ht, <- app_assoc|].
    split; [by exists rest|]. split; [exact Htrue|]. split; [exact Hraise | done].
  - exists st, []. split; [by apply GuardianFacts.gate_ignores_other_calls|].
    split; [by rewrite app_nil_r|]. split; [done|].
    split; [exact Htrue|]. split; [exact Hraise|]. intros Ha. simpl in Ha. discriminate.
  - eexists _, _. split; [by apply check_completion_unreadable|]. simpl.
    split; [reflexivity|]. split; [done|].
    split; [exact Htrue|]. split; [exact Hraise|]. intros Ha. simpl in Ha. discriminate.
Qed.

End Gate.

Import Script.

(** *** On the repository with uncommitted changes *)

Lemma dirty_pass_eq (n : nat) :
  raised (dirty_pass n) = false ->
  dirty_pass n = (Ok (dirty_issues n), snd (dirty_pass n)).
Proof. apply (BettyFacts.returned_eq (dirty_pass n) []). Qed.

Lemma dirty_pass_eleven : dirty_pass 11 = (Ok (dirty_issues 11), snd (dirty_pass 11)).
Proof. apply dirty_pass_eq. vm_compute. reflexivity. Qed.

(** With eleven uncommitted changes the pass has one issue, the
    warning. *)
Lemma pass_issues_are_typed_and_bounded_witness :
  List.length (dirty_issues 11) = 1%nat /\
  exists js py dk lint git,
    dirty_issues 11 = js ++ py ++ dk ++ lint ++ git /\
    Forall (issue_of "typescript") js /\ (List.length js <= 5)%nat /\
    Forall (issue_of "python_syntax") py /\
    Forall (issue_of "docker_compose") dk /\ (List.length dk <= 1)%nat /\
    Forall (issue_of "lint") lint /\ (List.length lint <= 3)%nat /\
    Forall (issue_of "git_warning") git /\ (List.length git <= 1)%nat.
Proof.
  split; [decide_it|].
  destruct (pass_issues_are_typed_and_bounded (H := scripted (dirty 11))
              (@State (scripted (dirty 11)) event [] [Stderr MsgChecking])
              (dirty_issues 11) (snd (dirty_pass 11)) dirty_pass_eleven)
    as (js & py & dk & lint & git & st1 & st2 & st3 & st4
        & _ & _ & _ & _ & _ & Hissues & Hall & _).
  exists js, py, dk, lint, git. split; [exact Hissues | exact Hall].
Defined.

(** The gate blocks the announcement on that repository. *)
Lemma gate_decides_by_the_pass_witness :
  exists m st',
    format_block_message (H := scripted (dirty 11)) (dirty_issues 11) (snd (dirty_pass 11))
      = (Ok m, snd (dirty_pass 11)) /\
    check_completion (H := scripted (dirty 11)) (Ok all_done) (start (dirty 11))
      = (Ok 0, st') /\
    allowed (trace st') = false.
Proof.
  destruct (gate_decides_by_the_pass (H := scripted (dirty 11)) all_done
              (start (dirty 11)) (snd (dirty_pass 11)) (dirty_issues 11))
    as (m & st' & tail & Hformat & _ & Hrun & _ & Ht & _ & Hallowed).
  - vm_compute. reflexivity.
  - exact dirty_pass_eleven.
  - exists m, st'. split; [exact Hformat|]. split; [exact Hrun|].
    rewrite Ht.
    change (trace (start (E := event) (dirty 11))) with (@nil event).
    rewrite app_nil_l, Hallowed. vm_compute. reflexivity.
Defined.

End GateFacts.
